(** * Conduit MCP bridge: the SET_TEXT and GET_CSS_ASYNC tool handlers

    A shallow embedding of the two tool handlers of the MCP server
    ([commands/figma/text/text-tools.ts], [commands/figma/export/css-tools.ts])
    together with the fragment of JavaScript they rely on: plain data values,
    truthiness, property reads, [String(v)], [JSON.stringify], exceptions and
    [try]/[catch].  The Figma client the handlers talk to is a parameter; every
    call made through it is recorded in a trace, so that statements about
    what was dispatched, and in which order, are statements about that
    trace.  The last part models the bridge behind the client, its envelope
    codec and its table of pending calls, from its specification. *)

From Stdlib Require Import ZArith Ascii String List Lia.
From stdpp Require Import base option list strings gmap pretty.

Local Open Scope string_scope.
Local Open Scope list_scope.
#[local] Set Warnings "-register-all".

(** ** JavaScript data *)

Module JS.

(** A JavaScript number is an IEEE double.  The handlers never compute with
    numbers, they only carry them, test their truthiness and print them, so
    the representation is left open. *)
Class JsNumber := {
  number : Type;
  (** ToBoolean: false for [+0], [-0] and [NaN]. *)
  number_truthy : number -> bool;
  (** false for [NaN], [Infinity] and [-Infinity]. *)
  number_finite : number -> bool;
  (** Number.prototype.toString, radix 10. *)
  Number_toString : number -> string
}.

(** Integers, printed in decimal: the instance used for concrete runs. *)
#[export] Instance Z_number : JsNumber := {|
  number := Z;
  number_truthy := fun n => negb (Z.eqb n 0);
  number_finite := fun _ => true;
  Number_toString := fun n => pretty n
|}.

Section Values.
Context {N : JsNumber}.

(** Plain data: what [JSON.parse] produces, plus [undefined].  An object is
    the ordered list of its own enumerable properties. *)
Inductive value : Type :=
| undefined
| null
| boolean (b : bool)
| num (n : number)
| str (s : string)
| array (items : list value)
| object (props : list (string * value)).

(** What a [throw] carries: an instance of [Error] with its [message], or any
    other value. *)
Inductive exn : Type :=
| ErrorObject (message : string)
| Thrown (v : value).

(** The completion of an expression or statement. *)
Inductive completion (A : Type) : Type :=
| Normal (a : A)
| Throw (e : exn).
#[global] Arguments Normal {A} a.
#[global] Arguments Throw {A} e.

(** ToBoolean. *)
Definition truthy (v : value) : bool :=
  match v with
  | undefined | null => false
  | boolean b => b
  | num n => number_truthy n
  | str s => negb (String.eqb s EmptyString)
  | array _ | object _ => true
  end.

Definition typeof (v : value) : string :=
  match v with
  | undefined => "undefined"
  | null => "object"
  | boolean _ => "boolean"
  | num _ => "number"
  | str _ => "string"
  | array _ | object _ => "object"
  end.

Definition isArray (v : value) : bool :=
  match v with array _ => true | _ => false end.

Fixpoint lookup_prop (k : string) (props : list (string * value)) : value :=
  match props with
  | [] => undefined
  | (k', v) :: rest => if String.eqb k k' then v else lookup_prop k rest
  end.

(** [v.k] for a named key [k] (not an array index, not [length]).  Reading a
    property of [undefined] or [null] throws a TypeError; primitives and
    arrays of plain data have no such property. *)
Definition get (v : value) (k : string) : completion value :=
  match v with
  | undefined =>
      Throw (ErrorObject ("Cannot read properties of undefined (reading '" +:+ k +:+ "')"))
  | null =>
      Throw (ErrorObject ("Cannot read properties of null (reading '" +:+ k +:+ "')"))
  | object props => Normal (lookup_prop k props)
  | boolean _ | num _ | str _ | array _ => Normal undefined
  end.

(** [{ ...base, k: v }]: an assignment replaces an existing property in place
    and appends a new one. *)
Fixpoint set_prop (k : string) (v : value) (props : list (string * value))
  : list (string * value) :=
  match props with
  | [] => [(k, v)]
  | (k', v') :: rest =>
      if String.eqb k k' then (k', v) :: rest else (k', v') :: set_prop k v rest
  end.

(** [{ ...base, ...more }]. *)
Definition spread (base more : list (string * value)) : list (string * value) :=
  fold_left (fun acc kv => set_prop (fst kv) (snd kv) acc) more base.

Fixpoint join (sep : string) (parts : list string) : string :=
  match parts with
  | [] => EmptyString
  | [p] => p
  | p :: rest => p +:+ sep +:+ join sep rest
  end.

(** [Object.hasOwn(o, k)]. *)
Definition has_own (k : string) (props : list (string * value)) : bool :=
  existsb (fun kv => String.eqb k (fst kv)) props.

(** The TypeError of OrdinaryToPrimitive. *)
Definition cannot_convert : exn :=
  ErrorObject "Cannot convert object to primitive value".

(** [String(v)]: also what a template literal, [+] next to a string and a
    DOM property holding a string make of [v].  An array prints as its
    elements joined by commas, with [undefined] and [null] elements printed
    as nothing.  An object prints through [Object.prototype.toString],
    unless it has a [toString] property of its own: in plain data that
    property is no function, [valueOf] gives the object back, and the
    conversion throws a TypeError. *)
Fixpoint to_String (v : value) : completion string :=
  match v with
  | undefined => Normal "undefined"
  | null => Normal "null"
  | boolean b => Normal (if b then "true" else "false")
  | num n => Normal (Number_toString n)
  | str s => Normal s
  | array items =>
      match
        (fix elements (xs : list value) : completion (list string) :=
           match xs with
           | [] => Normal []
           | x :: rest =>
               match match x with
                     | undefined | null => Normal EmptyString
                     | _ => to_String x
                     end with
               | Normal part =>
                   match elements rest with
                   | Normal parts => Normal (part :: parts)
                   | Throw e => Throw e
                   end
               | Throw e => Throw e
               end
           end) items
      with
      | Normal parts => Normal (join "," parts)
      | Throw e => Throw e
      end
  | object props =>
      if has_own "toString" props then Throw cannot_convert
      else Normal "[object Object]"
  end.

(** [v.k1.k2...] on objects, [undefined] as soon as a step is missing; used
    to state what a built object holds. *)
Fixpoint path (v : value) (keys : list string) : value :=
  match keys with
  | [] => v
  | k :: rest =>
      match v with
      | object props => path (lookup_prop k props) rest
      | _ => undefined
      end
  end.

(** [err instanceof Error ? err.message : String(err)]. *)
Definition error_text (e : exn) : completion string :=
  match e with
  | ErrorObject message => Normal message
  | Thrown v => to_String v
  end.

(** *** JSON.stringify *)

Definition hex_digit (n : nat) : ascii :=
  ascii_of_nat (if Nat.ltb n 10 then 48 + n else 87 + n).

Definition dquote : ascii := ascii_of_nat 34.
Definition backslash : ascii := ascii_of_nat 92.

(** One code unit of a quoted JSON string. *)
Definition escape_char (c : ascii) (tail : string) : string :=
  let n := nat_of_ascii c in
  if Nat.eqb n 34 then String backslash (String dquote tail)
  else if Nat.eqb n 92 then String backslash (String backslash tail)
  else if Nat.eqb n 8 then String backslash (String "b" tail)
  else if Nat.eqb n 9 then String backslash (String "t" tail)
  else if Nat.eqb n 10 then String backslash (String "n" tail)
  else if Nat.eqb n 12 then String backslash (String "f" tail)
  else if Nat.eqb n 13 then String backslash (String "r" tail)
  else if Nat.ltb n 32 then
    String backslash (String "u" (String "0" (String "0"
      (String (hex_digit (n / 16)) (String (hex_digit (n mod 16)) tail)))))
  else String c tail.

Fixpoint escape (s : string) : string :=
  match s with
  | EmptyString => EmptyString
  | String c rest => escape_char c (escape rest)
  end.

(** QuoteJSONString. *)
Definition quote (s : string) : string :=
  String dquote (escape s +:+ String dquote EmptyString).

(** [JSON.stringify(v)]; [None] stands for the result [undefined].  A property
    whose value is [undefined] is left out of an object, and an [undefined]
    array element is printed as [null]. *)
Fixpoint stringify (v : value) : option string :=
  match v with
  | undefined => None
  | null => Some "null"
  | boolean b => Some (if b then "true" else "false")
  | num n => Some (if number_finite n then Number_toString n else "null")
  | str s => Some (quote s)
  | array items =>
      Some ("[" +:+ join ","
              (List.map (fun x => match stringify x with
                                  | Some s => s
                                  | None => "null"
                                  end) items) +:+ "]")
  | object props =>
      Some ("{" +:+ join ","
              (List.flat_map (fun kv => match stringify (snd kv) with
                                        | Some s => [quote (fst kv) +:+ ":" +:+ s]
                                        | None => []
                                        end) props) +:+ "}")
  end.

(** [JSON.stringify(v)] used where a string is expected. *)
Definition stringify_text (v : value) : string :=
  match stringify v with
  | Some s => s
  | None => "undefined"
  end.

End Values.

#[global] Arguments value : clear implicits.
#[global] Arguments exn : clear implicits.
#[global] Arguments completion : clear implicits.

End JS.

(** ** Running a handler

    A handler runs against a state it cannot inspect (the [World]: the plugin
    behind the socket, the entropy source) and leaves a [trace] of the calls
    it awaited.  [exec] is the state-and-exception monad over that state; an
    [await] of a call that settles is a step of it.  A promise that never
    settles is not modelled: every awaited call returns. *)

Module Exec.
Import JS.

Section Monad.
Context {N : JsNumber}.

(** One awaited call on the client: the method, its arguments and how the
    promise settled. *)
Record call : Type := Call {
  method : string;
  arguments : list (value N);
  outcome : completion N (value N)
}.

Variable World : Type.

Record state : Type := State {
  world : World;
  trace : list call
}.

Definition exec (A : Type) : Type := state -> completion N A * state.

Definition ret {A} (a : A) : exec A := fun st => (Normal a, st).

Definition bind {A B} (m : exec A) (k : A -> exec B) : exec B :=
  fun st =>
    match m st with
    | (Normal a, st') => k a st'
    | (Throw e, st') => (Throw e, st')
    end.

Definition throw {A} (e : exn N) : exec A := fun st => (Throw e, st).

(** [try { body } catch (err) { handler }]. *)
Definition try_catch {A} (body : exec A) (handler : exn N -> exec A) : exec A :=
  fun st =>
    match body st with
    | (Normal a, st') => (Normal a, st')
    | (Throw e, st') => handler e st'
    end.

(** A synchronous expression evaluated inside the handler. *)
Definition lift {A} (c : completion N A) : exec A := fun st => (c, st).

(** [await f(args)], recorded in the trace. *)
Definition await (name : string) (args : list (value N))
    (f : World -> completion N (value N) * World) : exec (value N) :=
  fun st =>
    let (r, w) := f (world st) in
    (r, {| world := w; trace := trace st ++ [Call name args r] |}).

(** A synchronous call that reads or advances the world and cannot throw. *)
Definition draw {A} (f : World -> A * World) : exec A :=
  fun st =>
    let (a, w) := f (world st) in
    (Normal a, {| world := w; trace := trace st |}).

(** [for (const x of xs) { acc = body(acc, x) }]: the loop variable [acc]
    stands for the local the body mutates. *)
Fixpoint for_of {A Acc} (xs : list A) (acc : Acc) (body : Acc -> A -> exec Acc)
  : exec Acc :=
  match xs with
  | [] => ret acc
  | x :: rest => bind (body acc x) (fun acc' => for_of rest acc' body)
  end.

End Monad.

#[global] Arguments call : clear implicits.
#[global] Arguments exec : clear implicits.
#[global] Arguments state : clear implicits.
#[global] Arguments State {N World} _ _.
#[global] Arguments world {N World} _.
#[global] Arguments trace {N World} _.
#[global] Arguments ret {N World A} _ _.
#[global] Arguments bind {N World A B} _ _ _.
#[global] Arguments throw {N World A} _ _.
#[global] Arguments try_catch {N World A} _ _ _.
#[global] Arguments lift {N World A} _ _.
#[global] Arguments await {N World} _ _ _ _.
#[global] Arguments draw {N World A} _ _.
#[global] Arguments for_of {N World A Acc} _ _ _ _.

End Exec.

Declare Scope exec_scope.
Delimit Scope exec_scope with exec.
Notation "x <- m ;; k" := (Exec.bind m (fun x => k))
  (at level 90, m at next level, right associativity) : exec_scope.

(** The same sequencing for synchronous code. *)
Definition and_then {N : JS.JsNumber} {A B}
    (c : JS.completion N A) (k : A -> JS.completion N B) : JS.completion N B :=
  match c with
  | JS.Normal a => k a
  | JS.Throw e => JS.Throw e
  end.

Declare Scope completion_scope.
Delimit Scope completion_scope with completion.
Notation "x <- c ;; k" := (and_then c (fun x => k))
  (at level 90, c at next level, right associativity) : completion_scope.

(** ** The tool-call interface *)

Module Mcp.

(** [{ type: "text", text }]. *)
Record ContentItem : Type := {
  type : string;
  text : string
}.

(** What a tool handler returns; [isError] is [None] when the property is
    absent. *)
Record ToolResult : Type := {
  content : list ContentItem;
  isError : option bool
}.

Definition text_item (s : string) : ContentItem := {| type := "text"; text := s |}.

End Mcp.

(** [figmaClient]: the two methods the handlers call.  Each takes the state
    of the world and returns how its promise settles. *)
Record FigmaClient {N : JS.JsNumber} (World : Type) : Type := {
  createText : JS.value N -> World -> JS.completion N (JS.value N) * World;
  executeCommand :
    string -> JS.value N -> World -> JS.completion N (JS.value N) * World
}.
#[global] Arguments createText {N World} _ _ _.
#[global] Arguments executeCommand {N World} _ _ _ _.

(** ** text-schema.ts *)

Module TextSchema.
Import JS.

Section Schema.
Context {N : JsNumber}.

(** The output type of [SingleTextSchema].  The bounds the schema puts on each
    field are checked before the handler runs and play no part in it. *)
Record SingleText : Type := {
  x : number;
  y : number;
  text : string;
  width : option number;
  height : option number;
  fontSize : option number;
  fontWeight : option number;
  fontColor : option (value N);
  name : option string;
  parentId : option string
}.

Definition optional {A} (k : string) (inj : A -> value N) (o : option A)
  : list (string * value N) :=
  match o with
  | Some a => [(k, inj a)]
  | None => []
  end.

(** The own enumerable properties of a parsed configuration, in the order of
    the schema; an optional key that was not given is absent. *)
Definition props (c : SingleText) : list (string * value N) :=
  [("x", num (x c)); ("y", num (y c)); ("text", str (text c))]
  ++ optional "width" num (width c)
  ++ optional "height" num (height c)
  ++ optional "fontSize" num (fontSize c)
  ++ optional "fontWeight" num (fontWeight c)
  ++ optional "fontColor" (fun v => v) (fontColor c)
  ++ optional "name" str (name c)
  ++ optional "parentId" str (parentId c).

End Schema.
#[global] Arguments SingleText : clear implicits.

End TextSchema.

(** ** text-tools.ts: the SET_TEXT handler *)

Module TextTools.
Import JS Exec Mcp.

Section Handler.
Context {N : JsNumber}.
Variable World : Type.
(** [uuidv4()] of the [uuid] package: draws a token from the world. *)
Variable uuidv4 : World -> string * World.
Variable figmaClient : FigmaClient World.

(** The handler's arguments: both keys are optional. *)
Record Args : Type := {
  text : option (TextSchema.SingleText N);
  texts : option (list (TextSchema.SingleText N))
}.

(** [typeof v === "string"], with the string it then is. *)
Definition as_string (v : value N) : option string :=
  match v with
  | str s => Some s
  | _ => None
  end.

(** [node && typeof node.id === "string"], with the identifier when the test
    holds. *)
Definition string_id (node : value N) : completion N (option string) :=
  if truthy node
  then (id <- get node "id" ;; Normal (as_string id))%completion
  else Normal None.

(** [result && Array.isArray(result.nodes)], with the nodes when the test
    holds. *)
Definition nodes_array (result : value N) : completion N (option (list (value N))) :=
  if truthy result
  then (nodes <- get result "nodes" ;;
        Normal (match nodes with array items => Some items | _ => None end))%completion
  else Normal None.

(** The inner loop: [for (const node of result.nodes) ...]. *)
Fixpoint push_nodes (nodeIds : list string) (nodes : list (value N))
  : completion N (list string) :=
  match nodes with
  | [] => Normal nodeIds
  | node :: rest =>
      (id <- string_id node ;;
       match id with
       | Some s => push_nodes (nodeIds ++ [s]) rest
       | None => push_nodes nodeIds rest
       end)%completion
  end.

(** Lines 135 to 143: what one result adds to [nodeIds]. *)
Definition collect (nodeIds : list string) (result : value N)
  : completion N (list string) :=
  (id <- string_id result ;;
   match id with
   | Some s => Normal (nodeIds ++ [s])
   | None =>
       nodes <- nodes_array result ;;
       match nodes with
       | Some items => push_nodes nodeIds items
       | None => Normal nodeIds
       end
   end)%completion.

(** [{ commandId: uuidv4(), ...textConfig }]. *)
Definition make_params (commandId : string) (textConfig : TextSchema.SingleText N)
  : value N :=
  object (spread [("commandId", str commandId)] (TextSchema.props textConfig)).

(** The body of the dispatch loop, lines 133 to 143. *)
Definition dispatch_one (nodeIds : list string) (textConfig : TextSchema.SingleText N)
  : exec N World (list string) :=
  (commandId <- draw uuidv4 ;;
   let params := make_params commandId textConfig in
   result <- await "createText" [params] (createText figmaClient params) ;;
   lift (collect nodeIds result))%exec.

Definition missing_input : string :=
  "You must provide either 'text' or 'texts' as input.".

(** Lines 123 to 130.  An array, even an empty one, and an object are truthy;
    an absent key is [undefined]. *)
Definition select_texts (args : Args) : exec N World (list (TextSchema.SingleText N)) :=
  match texts args with
  | Some ts => ret ts
  | None =>
      match text args with
      | Some t => ret [t]
      | None => throw (ErrorObject missing_input)
      end
  end.

(** The [try] block, lines 123 to 150. *)
Definition set_text_body (args : Args) : exec N World ToolResult :=
  (textsArr <- select_texts args ;;
   nodeIds <- for_of textsArr [] dispatch_one ;;
   ret {| content := List.map text_item nodeIds; isError := None |})%exec.

(** The [catch] block, lines 151 to 161. *)
Definition set_text_catch (err : exn N) : exec N World ToolResult :=
  (message <- lift (error_text err) ;;
   ret {| content := [text_item message]; isError := Some true |})%exec.

(** The handler registered for [MCP_COMMANDS.SET_TEXT]. *)
Definition SET_TEXT (args : Args) : exec N World ToolResult :=
  try_catch (set_text_body args) set_text_catch.

(** *** What a run looks like

    The identifiers a result carries, written as a function of the value:
    the specification [collect] is compared with. *)
Definition node_id (node : value N) : list string :=
  match node with
  | object props =>
      match lookup_prop "id" props with
      | str s => [s]
      | _ => []
      end
  | _ => []
  end.

Definition result_ids (result : value N) : list string :=
  match result with
  | object props =>
      match lookup_prop "id" props with
      | str s => [s]
      | _ =>
          match lookup_prop "nodes" props with
          | array items => List.flat_map node_id items
          | _ => []
          end
      end
  | _ => []
  end.

Definition succeeded (c : call N) : bool :=
  match outcome c with
  | Normal _ => true
  | Throw _ => false
  end.

(** The identifiers a settled call contributed. *)
Definition call_ids (c : call N) : list string :=
  match outcome c with
  | Normal v => result_ids v
  | Throw _ => []
  end.

(** [sequential w cfgs calls w']: starting in world [w], one [createText] was
    dispatched for each configuration of [cfgs], in the order of [cfgs], each
    carrying a freshly drawn [commandId] in front of the configuration's own
    properties, and each issued in the world the previous call left when it
    settled; [w'] is the world after the last one settled. *)
Inductive sequential : World -> list (TextSchema.SingleText N) -> list (call N) -> World -> Prop :=
| sequential_nil w : sequential w [] [] w
| sequential_cons w commandId w1 cfg r w2 cfgs calls w3 :
    uuidv4 w = (commandId, w1) ->
    createText figmaClient (make_params commandId cfg) w1 = (r, w2) ->
    sequential w2 cfgs calls w3 ->
    sequential w (cfg :: cfgs)
      (Call "createText" [make_params commandId cfg] r :: calls) w3.

(** How the handler completes once [e] reached its [catch] block: with the
    result that holds the message of [e] and [isError], or with the TypeError
    of a conversion of [e] that failed. *)
Definition error_result (e : exn N) : completion N ToolResult :=
  (message <- error_text e ;;
   Normal {| content := [text_item message]; isError := Some true |})%completion.

Definition ids_result (nodeIds : list string) : ToolResult :=
  {| content := List.map text_item nodeIds; isError := None |}.

End Handler.

#[global] Arguments Args : clear implicits.

End TextTools.

(** ** css-tools.ts: the GET_CSS_ASYNC handler *)

Module CssTools.
Import JS Exec Mcp.

Section Handler.
Context {N : JsNumber}.
Variable World : Type.
Variable figmaClient : FigmaClient World.
(** [MCP_COMMANDS.GET_CSS_ASYNC], from [types/commands.js]. *)
Variable GET_CSS_ASYNC_name : string.
(** [ensureNodeIdIsString], from [utils/node-utils.js]: synchronous, and free
    to throw. *)
Variable ensureNodeIdIsString : value N -> completion N (value N).

(** The destructured arguments; an absent key is [undefined]. *)
Record Args : Type := {
  nodeId : value N;
  format : value N
}.

(** [v !== undefined]. *)
Definition defined (v : value N) : bool :=
  match v with
  | undefined => false
  | _ => true
  end.

(** Lines 41 to 43. *)
Definition build_params (args : Args) : completion N (list (string * value N)) :=
  (params <- (if defined (nodeId args)
              then (id <- ensureNodeIdIsString (nodeId args) ;;
                    Normal (set_prop "nodeId" id []))
              else Normal []) ;;
   Normal (if defined (format args)
           then set_prop "format" (format args) params
           else params))%completion.

(** [Array.isArray(result) ? result : [result]]. *)
Definition results_array (result : value N) : list (value N) :=
  match result with
  | array items => items
  | _ => [result]
  end.

(** Line 46. *)
Definition success_response (result : value N) : value N :=
  object [("success", boolean true); ("results", array (results_array result))].

(** Lines 56 to 66. *)
Definition failure_response (args : Args) (message : string) : value N :=
  object
    [("success", boolean false);
     ("error",
      object
        [("message", str message);
         ("results", array []);
         ("meta",
          object
            [("operation", str "get_css_async");
             ("params", object [("nodeId", nodeId args); ("format", format args)])])])].

(** [{ content: [{ type: "text", text: JSON.stringify(response) }] }]. *)
Definition json_result (response : value N) : ToolResult :=
  {| content := [text_item (stringify_text response)]; isError := None |}.

(** The [try] block, lines 41 to 54. *)
Definition get_css_body (args : Args) : exec N World ToolResult :=
  (params <- lift (build_params args) ;;
   result <- await "executeCommand" [str GET_CSS_ASYNC_name; object params]
               (executeCommand figmaClient GET_CSS_ASYNC_name (object params)) ;;
   ret (json_result (success_response result)))%exec.

(** The [catch] block, lines 55 to 75. *)
Definition get_css_catch (args : Args) (error : exn N) : exec N World ToolResult :=
  (message <- lift (error_text error) ;;
   ret (json_result (failure_response args message)))%exec.

(** How the handler completes once [error] reached its [catch] block. *)
Definition failure_result (args : Args) (error : exn N) : completion N ToolResult :=
  (message <- error_text error ;;
   Normal (json_result (failure_response args message)))%completion.

(** The handler registered for [MCP_COMMANDS.GET_CSS_ASYNC]. *)
Definition GET_CSS_ASYNC (args : Args) : exec N World ToolResult :=
  try_catch (get_css_body args) (get_css_catch args).

End Handler.

#[global] Arguments Args : clear implicits.

End CssTools.

(** ** A scripted plugin

    A concrete world for running the handlers: the plugin answers the calls
    it receives with a fixed list of replies, in order, whatever it is asked,
    and the n-th token drawn is the n-th of a counter. *)

Module Scenario.
Import JS.

Record scripted : Type := {
  replies : list (completion Z_number (value Z_number));
  drawn : nat
}.

Definition uuidv4 (w : scripted) : string * scripted :=
  ("uuid-" +:+ pretty (drawn w), {| replies := replies w; drawn := S (drawn w) |}).

Definition next_reply (w : scripted) : completion Z_number (value Z_number) * scripted :=
  match replies w with
  | r :: rest => (r, {| replies := rest; drawn := drawn w |})
  | [] => (Normal undefined, w)
  end.

Definition client : FigmaClient scripted := {|
  createText := fun _ => next_reply;
  executeCommand := fun _ _ => next_reply
|}.

Definition script (rs : list (completion Z_number (value Z_number))) : scripted :=
  {| replies := rs; drawn := 0 |}.

(** [{ x, y, text }]. *)
Definition label (s : string) (px py : Z) : TextSchema.SingleText Z_number := {|
  TextSchema.x := px; TextSchema.y := py; TextSchema.text := s;
  TextSchema.width := None; TextSchema.height := None;
  TextSchema.fontSize := None; TextSchema.fontWeight := None;
  TextSchema.fontColor := None; TextSchema.name := None;
  TextSchema.parentId := None
|}.

(** A result [{ id }]. *)
Definition created (id : string) : completion Z_number (value Z_number) :=
  Normal (object [("id", str id)]).

(** A rejection with [new Error(message)]. *)
Definition rejected (message : string) : completion Z_number (value Z_number) :=
  Throw (ErrorObject message).

End Scenario.

(** ** Properties of the SET_TEXT handler *)

Module TextToolsFacts.
Import JS Exec Mcp TextTools.

Section Facts.
Context {N : JsNumber}.
Variable World : Type.
Variable uuidv4 : World -> string * World.
Variable figmaClient : FigmaClient World.

#[local] Abbreviation dispatch_one := (dispatch_one World uuidv4 figmaClient).
#[local] Abbreviation SET_TEXT := (SET_TEXT World uuidv4 figmaClient).
#[local] Abbreviation set_text_body := (set_text_body World uuidv4 figmaClient).
#[local] Abbreviation sequential := (sequential World uuidv4 figmaClient).

Lemma typeof_string (v : value N) :
  typeof v = "string" <-> exists s, as_string v = Some s.
Proof.
  destruct v; simpl; split; intros H; try discriminate; eauto;
    destruct H as [s' H]; discriminate.
Qed.

Lemma string_id_spec (node : value N) :
  string_id node = Normal (head (node_id node)).
Proof.
  unfold string_id, node_id.
  destruct node as [| |b|n|s|items|props]; simpl; try reflexivity.
  - destruct b; reflexivity.
  - destruct (number_truthy n); reflexivity.
  - destruct (negb (String.eqb s EmptyString)); reflexivity.
  - destruct (lookup_prop "id" props); reflexivity.
Qed.

Lemma node_id_cases (node : value N) :
  node_id node = [] \/ exists s, node_id node = [s].
Proof.
  unfold node_id. destruct node; auto.
  destruct (lookup_prop "id" props); eauto.
Qed.

Lemma push_nodes_spec (nodes : list (value N)) :
  forall nodeIds,
    push_nodes nodeIds nodes = Normal (nodeIds ++ List.flat_map node_id nodes).
Proof.
  induction nodes as [|node rest IH]; intros nodeIds; simpl.
  - now rewrite app_nil_r.
  - rewrite string_id_spec. simpl.
    destruct (node_id_cases node) as [E | [s E]]; rewrite E; simpl.
    + apply IH.
    + rewrite IH. now rewrite <- app_assoc.
Qed.

(** The guarded reads of lines 135 to 143 never throw, and add exactly the
    identifiers the result carries. *)
Lemma collect_spec (nodeIds : list string) (result : value N) :
  collect nodeIds result = Normal (nodeIds ++ result_ids result).
Proof.
  unfold collect. rewrite string_id_spec. unfold node_id, result_ids, nodes_array.
  destruct result as [| |b|n|s|items|props]; simpl;
    try (now rewrite app_nil_r).
  - destruct b; simpl; now rewrite app_nil_r.
  - destruct (number_truthy n); simpl; now rewrite app_nil_r.
  - destruct (negb (String.eqb s EmptyString)); simpl; now rewrite app_nil_r.
  - destruct (lookup_prop "id" props) eqn:Eid; simpl; try reflexivity;
      destruct (lookup_prop "nodes" props) eqn:Enodes; simpl;
      try (now rewrite app_nil_r); apply push_nodes_spec.
Qed.

Lemma sequential_length w cfgs calls w' :
  sequential w cfgs calls w' -> length calls = length cfgs.
Proof. induction 1; simpl; congruence. Qed.

Lemma sequential_methods w cfgs calls w' :
  sequential w cfgs calls w' ->
  Forall (fun c => method c = "createText") calls.
Proof. induction 1; constructor; auto. Qed.

(** One turn of the loop: a draw, a call, and the identifiers of its result. *)
Lemma dispatch_one_run nodeIds cfg (st : state N World) :
  exists commandId w1 r w2,
    uuidv4 (world st) = (commandId, w1) /\
    createText figmaClient (make_params commandId cfg) w1 = (r, w2) /\
    dispatch_one nodeIds cfg st =
      (match r with
       | Normal v => Normal (nodeIds ++ result_ids v)
       | Throw e => Throw e
       end,
       State w2 (trace st ++ [Call "createText" [make_params commandId cfg] r])).
Proof.
  unfold TextTools.dispatch_one, bind, draw, await, lift.
  destruct (uuidv4 (world st)) as [commandId w1] eqn:Eu. simpl.
  destruct (createText figmaClient (make_params commandId cfg) w1) as [r w2] eqn:Ec.
  exists commandId, w1, r, w2. repeat split; auto.
  destruct r; simpl; [now rewrite collect_spec | reflexivity].
Qed.

(** The dispatch loop, lines 131 to 144. *)
Lemma for_of_dispatch cfgs :
  forall nodeIds (st : state N World) r st',
    for_of cfgs nodeIds dispatch_one st = (r, st') ->
    exists k calls,
      trace st' = trace st ++ calls /\
      k <= length cfgs /\
      sequential (world st) (take k cfgs) calls (world st') /\
      match r with
      | Normal ids =>
          k = length cfgs /\
          forallb succeeded calls = true /\
          ids = nodeIds ++ List.flat_map call_ids calls
      | Throw e =>
          exists pre p,
            calls = pre ++ [Call "createText" [p] (Throw e)] /\
            forallb succeeded pre = true
      end.
Proof.
  induction cfgs as [|cfg rest IH]; intros nodeIds st r st' Hrun; simpl in Hrun.
  - unfold ret in Hrun. injection Hrun as <- <-.
    exists 0, []. rewrite !app_nil_r. simpl.
    repeat split; auto. constructor.
  - unfold bind in Hrun.
    destruct (dispatch_one_run nodeIds cfg st)
      as (commandId & w1 & r1 & w2 & Hu & Hc & Hstep).
    rewrite Hstep in Hrun. destruct r1 as [v|e].
    + apply IH in Hrun as (k & calls & Htr & Hk & Hseq & Hres).
      simpl in Htr, Hseq.
      exists (S k), (Call "createText" [make_params commandId cfg] (Normal v) :: calls).
      split; [now rewrite Htr, <- app_assoc|].
      split; [simpl; lia|].
      split; [simpl; econstructor; eauto|].
      destruct r as [ids|e'].
      * destruct Hres as (-> & Hall & ->). repeat split; auto.
        simpl. unfold call_ids at 1. simpl. now rewrite <- app_assoc.
      * destruct Hres as (pre & p & -> & Hall).
        exists (Call "createText" [make_params commandId cfg] (Normal v) :: pre), p.
        split; auto.
    + injection Hrun as <- <-. simpl.
      exists 1, [Call "createText" [make_params commandId cfg] (Throw e)].
      split; [reflexivity|]. split; [simpl; lia|].
      split.
      * simpl. rewrite take_0. econstructor; eauto. constructor.
      * exists [], (make_params commandId cfg). split; reflexivity.
Qed.

(** The configurations the handler iterates over, lines 123 to 130. *)
Definition selected (args : Args N) : option (list (TextSchema.SingleText N)) :=
  match texts args with
  | Some ts => Some ts
  | None =>
      match text args with
      | Some t => Some [t]
      | None => None
      end
  end.

Lemma select_texts_spec (args : Args N) (st : state N World) :
  select_texts World args st =
    (match selected args with
     | Some cfgs => Normal cfgs
     | None => Throw (ErrorObject missing_input)
     end, st).
Proof.
  unfold select_texts, selected.
  destruct (texts args); [reflexivity|]. destruct (text args); reflexivity.
Qed.

(** The [catch] block, lines 151 to 161, runs no call. *)
Lemma set_text_catch_run (e : exn N) (st : state N World) :
  set_text_catch World e st = (error_result e, st).
Proof.
  unfold set_text_catch, error_result, bind, lift, ret, and_then.
  destruct (error_text e); reflexivity.
Qed.

(** The calls a run of the handler adds to the trace, whatever was there
    before: a sequential dispatch of a prefix of the selected
    configurations; either all of them settled normally, the prefix is
    everything and the result lists their identifiers in order, or the last
    call failed and the handler completes as its [catch] block does on that
    failure alone. *)
Lemma SET_TEXT_added args (st : state N World) r st' :
  SET_TEXT args st = (r, st') ->
  exists calls,
    trace st' = trace st ++ calls /\
    match selected args with
    | None => calls = [] /\ r = error_result (ErrorObject missing_input)
    | Some cfgs =>
        exists k,
          k <= length cfgs /\
          sequential (world st) (take k cfgs) calls (world st') /\
          ((k = length cfgs /\
            forallb succeeded calls = true /\
            r = Normal (ids_result (List.flat_map call_ids calls)))
           \/
           (exists pre p e,
              calls = pre ++ [Call "createText" [p] (Throw e)] /\
              forallb succeeded pre = true /\
              r = error_result e))
    end.
Proof.
  intros Hrun.
  unfold TextTools.SET_TEXT, try_catch, TextTools.set_text_body, bind in Hrun.
  rewrite select_texts_spec in Hrun.
  destruct (selected args) as [cfgs|].
  - destruct (for_of cfgs [] dispatch_one st) as [r1 st1] eqn:Hloop.
    apply for_of_dispatch in Hloop as (k & calls & Htr & Hk & Hseq & Hres).
    destruct r1 as [ids|e]; simpl in Hrun.
    + unfold ret in Hrun. injection Hrun as <- <-.
      destruct Hres as (-> & Hall & ->).
      exists calls. split; [assumption|]. exists (length cfgs).
      split; [lia|]. split; [assumption|]. left. auto.
    + rewrite set_text_catch_run in Hrun. injection Hrun as <- <-.
      destruct Hres as (pre & p & Hcalls & Hall).
      exists calls. split; [assumption|]. exists k.
      split; [assumption|]. split; [assumption|]. right. exists pre, p, e. auto.
  - simpl in Hrun. rewrite set_text_catch_run in Hrun. injection Hrun as <- <-.
    exists []. rewrite app_nil_r. auto.
Qed.

(** The same for an invocation started with an empty trace. *)
Lemma SET_TEXT_run args cfgs w r st' :
  selected args = Some cfgs ->
  SET_TEXT args (State w []) = (r, st') ->
  exists k,
    k <= length cfgs /\
    sequential w (take k cfgs) (trace st') (world st') /\
    ((k = length cfgs /\
      forallb succeeded (trace st') = true /\
      r = Normal (ids_result (List.flat_map call_ids (trace st'))))
     \/
     (exists pre p e,
        trace st' = pre ++ [Call "createText" [p] (Throw e)] /\
        forallb succeeded pre = true /\
        r = error_result e)).
Proof.
  intros Hsel Hrun.
  destruct (SET_TEXT_added _ _ _ _ Hrun) as (calls & Htr & Hcase).
  rewrite Hsel in Hcase. simpl in Htr. subst calls. exact Hcase.
Qed.

Lemma forallb_succeeded_lookup (calls : list (call N)) k c :
  forallb succeeded calls = true -> calls !! k = Some c -> succeeded c = true.
Proof.
  intros Hall Hk. rewrite forallb_forall in Hall. apply Hall.
  apply list_elem_of_In. eapply list_elem_of_lookup_2; eauto.
Qed.

(** A call that failed is the last one of a run. *)
Lemma failed_call_is_last (pre : list (call N)) (c0 c : call N) i :
  forallb succeeded pre = true ->
  (pre ++ [c0]) !! i = Some c ->
  succeeded c = false ->
  i = length pre /\ c = c0.
Proof.
  intros Hall Hi Hfail.
  destruct (Nat.lt_trichotomy i (length pre)) as [Hlt | [-> | Hgt]].
  - rewrite lookup_app_l in Hi by assumption.
    apply (forallb_succeeded_lookup _ _ _ Hall) in Hi. congruence.
  - rewrite list_lookup_middle in Hi by reflexivity. injection Hi as <-. auto.
  - apply lookup_lt_Some in Hi. rewrite length_app in Hi. simpl in Hi. lia.
Qed.

(** C1, as the handler has it: when the command of the k-th element fails,
    the handler returns the failure alone, an [isError] result whose single
    content item is the failure's message; the identifiers produced for the
    elements before it are not part of the result (their commands were
    dispatched, all settled normally, and nothing undoes them), and no element
    after the k-th is attempted: the failed call is the last one made. *)
Theorem set_text_first_failure_ends_batch args cfgs w r st' k p e :
  selected args = Some cfgs ->
  SET_TEXT args (State w []) = (r, st') ->
  trace st' !! k = Some (Call "createText" [p] (Throw e)) ->
  r = error_result e /\
  (forall message,
     e = ErrorObject message ->
     r = Normal {| content := [ {| type := "text"; Mcp.text := message |} ];
                   isError := Some true |}) /\
  length (trace st') = S k /\
  forallb succeeded (take k (trace st')) = true /\
  sequential w (take (S k) cfgs) (trace st') (world st').
Proof.
  intros Hsel Hrun Hk.
  destruct (SET_TEXT_run _ _ _ _ _ Hsel Hrun)
    as (n & Hn & Hseq & [(-> & Hall & _) | (pre & p' & e' & Htr & Hall & ->)]).
  - apply (forallb_succeeded_lookup _ _ _ Hall) in Hk. discriminate.
  - rewrite Htr in Hk.
    destruct (failed_call_is_last _ _ _ _ Hall Hk eq_refl) as [-> [= -> ->]].
    assert (Hn' : n = S (length pre)).
    { apply sequential_length in Hseq. rewrite Htr, length_app in Hseq.
      simpl in Hseq. rewrite length_take in Hseq. lia. }
    subst n. rewrite Htr at 1 2.
    rewrite length_app, take_app_length. simpl.
    split; [reflexivity|]. split; [intros message ->; reflexivity|].
    repeat split; auto. lia.
Qed.

(** C2, as the handler has it: one command per element, in sequence order,
    each issued in the world the previous one left when it settled, up to and
    including the first element whose command fails: a call that failed is
    the last one made, and the dispatch stops short of the whole sequence
    only there.  When every command settles normally exactly N commands are
    dispatched and the content lists the identifiers of each element's
    result in the order of the input. *)
Theorem set_text_dispatch_order args cfgs w r st' :
  texts args = Some cfgs ->
  SET_TEXT args (State w []) = (r, st') ->
  exists k,
    k <= length cfgs /\
    length (trace st') = k /\
    sequential w (take k cfgs) (trace st') (world st') /\
    (forall i c e,
       trace st' !! i = Some c -> outcome c = Throw e ->
       S i = k /\ r = error_result e) /\
    (k < length cfgs ->
       exists c, last (trace st') = Some c /\ succeeded c = false) /\
    (forallb succeeded (trace st') = true ->
       k = length cfgs /\
       r = Normal (ids_result (List.flat_map call_ids (trace st')))).
Proof.
  intros Htexts Hrun.
  assert (Hsel : selected args = Some cfgs) by (unfold selected; now rewrite Htexts).
  destruct (SET_TEXT_run _ _ _ _ _ Hsel Hrun)
    as (n & Hn & Hseq & Hcase).
  exists n. split; [assumption|].
  pose proof (sequential_length _ _ _ _ Hseq) as Hlen.
  rewrite length_take in Hlen.
  split; [lia|]. split; [assumption|].
  destruct Hcase as [(-> & Hall & ->) | (pre & p & e & Htr & Hall & ->)].
  - split; [|split; [lia | auto]].
    intros i c e Hi Hout.
    apply (forallb_succeeded_lookup _ _ _ Hall) in Hi.
    unfold succeeded in Hi. rewrite Hout in Hi. discriminate.
  - split; [|split].
    + intros i c e' Hi Hout. rewrite Htr in Hi.
      assert (Hfail : succeeded c = false) by (unfold succeeded; now rewrite Hout).
      destruct (failed_call_is_last _ _ _ _ Hall Hi Hfail) as [-> ->].
      simpl in Hout. injection Hout as ->.
      rewrite Htr, length_app in Hlen. simpl in Hlen. split; [lia | reflexivity].
    + intros _. exists (Call "createText" [p] (Throw e)).
      split; [rewrite Htr; apply last_snoc | reflexivity].
    + intros Hok. rewrite Htr, forallb_app in Hok. simpl in Hok.
      rewrite andb_false_r in Hok. discriminate.
Qed.

(** C4: for a singular configuration exactly one command is dispatched, for
    that configuration, and the result is that of the one element: the
    handler runs as on the sequence holding the configuration alone, and the
    content holds the identifiers that one command's result carries (one
    item for a string [id]; one per entry with a string [id] of a [nodes]
    array), or the handler completes on the command's failure alone. *)
Theorem set_text_single cfg w r st' :
  SET_TEXT {| text := Some cfg; texts := None |} (State w []) = (r, st') ->
  SET_TEXT {| text := None; texts := Some [cfg] |} (State w []) = (r, st') /\
  exists c,
    trace st' = [c] /\
    sequential w [cfg] [c] (world st') /\
    r = match outcome c with
        | Normal v =>
            Normal {| content := List.map text_item (result_ids v); isError := None |}
        | Throw e => error_result e
        end /\
    (forall props s,
       outcome c = Normal (object props) ->
       lookup_prop "id" props = str s ->
       r = Normal {| content := [ {| type := "text"; Mcp.text := s |} ];
                     isError := None |}).
Proof.
  intros Hrun. split; [exact Hrun|].
  destruct (SET_TEXT_run {| text := Some cfg; texts := None |} [cfg] _ _ _
              eq_refl Hrun) as (n & Hn & Hseq & Hres).
  assert (Hone : exists c, trace st' = [c]).
  { pose proof (sequential_length _ _ _ _ Hseq) as Hlen.
    rewrite length_take in Hlen. simpl in Hlen.
    destruct Hres as [(-> & _) | (pre & p & e & Htr & _)].
    - destruct (trace st') as [|c [|]]; try discriminate. eauto.
    - rewrite Htr, length_app in Hlen. simpl in Hlen.
      destruct pre; [eauto | simpl in Hlen; lia]. }
  assert (Hn1 : take n [cfg] = [cfg]).
  { destruct Hone as (c & Htr).
    pose proof (sequential_length _ _ _ _ Hseq) as Hlen.
    rewrite Htr, length_take in Hlen. simpl in Hlen.
    destruct n; [simpl in Hlen; lia|]. simpl. now rewrite take_nil. }
  rewrite Hn1 in Hseq.
  destruct Hone as (c & Htr). exists c.
  rewrite Htr in Hseq.
  split; [assumption|]. split; [assumption|].
  assert (Hr : r = match outcome c with
                   | Normal v =>
                       Normal {| content := List.map text_item (result_ids v);
                                 isError := None |}
                   | Throw e => error_result e
                   end).
  { destruct Hres as [(_ & Hall & ->) | (pre & p & e & Htr' & Hall & ->)].
    - rewrite Htr in *. simpl in *. unfold call_ids, succeeded in *.
      destruct (outcome c); [now rewrite app_nil_r | discriminate].
    - rewrite Htr in Htr'. destruct pre as [|c' [|]]; try discriminate.
      injection Htr' as ->. reflexivity. }
  split; [assumption|].
  intros props s Hout Hid. rewrite Hr, Hout. simpl. now rewrite Hid.
Qed.

(** C8: with neither [text] nor [texts] the handler dispatches nothing (the
    state, trace included, is left as it was) and returns an [isError] result
    whose single content item is the message of line 129. *)
Theorem set_text_missing_input (args : Args N) (st : state N World) :
  text args = None ->
  texts args = None ->
  SET_TEXT args st =
    (Normal {| content := [ {| type := "text";
                               Mcp.text := "You must provide either 'text' or 'texts' as input." |} ];
               isError := Some true |},
     st).
Proof.
  intros Htext Htexts.
  unfold TextTools.SET_TEXT, try_catch, TextTools.set_text_body, bind.
  rewrite select_texts_spec. unfold selected. now rewrite Htexts, Htext.
Qed.

(** C9: when [texts] is given it is what the handler dispatches, element by
    element and in order, as far as the first failure; [text] is not looked
    at, the run being the same whatever [text] is or is not; and for
    [texts] the empty array the handler returns a result without [isError]
    whose content is empty, leaving the state, trace included, as it was. *)
Theorem set_text_texts_precedence (args : Args N) ts (st : state N World) r st' :
  texts args = Some ts ->
  SET_TEXT args st = (r, st') ->
  (forall t, SET_TEXT {| text := t; texts := Some ts |} st = (r, st')) /\
  (exists k,
     k <= length ts /\
     sequential (world st) (take k ts) (drop (length (trace st)) (trace st')) (world st') /\
     (k < length ts ->
        exists c,
          last (drop (length (trace st)) (trace st')) = Some c /\ succeeded c = false) /\
     (forallb succeeded (drop (length (trace st)) (trace st')) = true ->
        r = Normal (ids_result
                      (List.flat_map call_ids (drop (length (trace st)) (trace st')))))) /\
  (ts = [] -> r = Normal {| content := []; isError := None |} /\ st' = st).
Proof.
  intros Htexts Hrun.
  assert (Hsame : forall t, SET_TEXT {| text := t; texts := Some ts |} st = (r, st')).
  { intros t. rewrite <- Hrun.
    unfold TextTools.SET_TEXT, try_catch, TextTools.set_text_body, bind.
    rewrite !select_texts_spec. unfold selected. simpl. now rewrite Htexts. }
  split; [exact Hsame|]. split.
  - destruct (SET_TEXT_added _ _ _ _ Hrun) as (calls & Htr & Hcase).
    unfold selected in Hcase. rewrite Htexts in Hcase.
    rewrite Htr, drop_app_length.
    destruct Hcase as (k & Hk & Hseq & Hres). exists k.
    split; [assumption|]. split; [assumption|].
    destruct Hres as [(-> & Hall & ->) | (pre & p & e & -> & Hall & ->)].
    + split; [lia | auto].
    + split.
      * intros _. exists (Call "createText" [p] (Throw e)).
        split; [apply last_snoc | reflexivity].
      * intros Hok. rewrite forallb_app in Hok. simpl in Hok.
        rewrite andb_false_r in Hok. discriminate.
  - intros ->. specialize (Hsame None).
    unfold TextTools.SET_TEXT, try_catch, TextTools.set_text_body, bind in Hsame.
    simpl in Hsame. unfold ret in Hsame. injection Hsame as <- <-. auto.
Qed.

(** The spread of line 133 overrides nothing: no key of a configuration is
    [commandId], so the drawn token is what the command carries. *)
Lemma make_params_commandId commandId (cfg : TextSchema.SingleText N) :
  make_params commandId cfg =
    object (("commandId", str commandId) :: TextSchema.props cfg).
Proof.
  unfold make_params, TextSchema.props.
  destruct cfg as [px py t [w0|] [h|] [fs|] [fw|] [fc|] [nm|] [pid|]];
    reflexivity.
Qed.

End Facts.

(** *** Concrete runs against the scripted plugin *)

Import Scenario.

#[local] Abbreviation run_SET_TEXT :=
  (TextTools.SET_TEXT Scenario.scripted Scenario.uuidv4 Scenario.client).
#[local] Abbreviation scripted_sequential :=
  (TextTools.sequential Scenario.scripted Scenario.uuidv4 Scenario.client).

(** A batch of three labels whose second command is rejected. *)
Definition three_labels : Args Z_number :=
  {| text := None;
     texts := Some [label "A" 10 20; label "B" 30 40; label "C" 50 60] |}.

Definition second_fails : state Z_number Scenario.scripted :=
  State (script [created "1:1"; rejected "Parent node not found"; created "1:3"]) [].

(** C1 fails as stated: the second of three commands is rejected, and the
    result is the failure's message alone, without the identifier [1:1] the
    first command produced; only two calls were made, and the reply scripted
    for the third is still unread. *)
Lemma set_text_failure_drops_earlier_ids :
  fst (run_SET_TEXT three_labels second_fails) =
    Normal {| content := [ {| type := "text"; Mcp.text := "Parent node not found" |} ];
              isError := Some true |} /\
  length (trace (snd (run_SET_TEXT three_labels second_fails))) = 2 /\
  replies (world (snd (run_SET_TEXT three_labels second_fails))) = [created "1:3"].
Proof. repeat split; reflexivity. Qed.

Lemma set_text_first_failure_ends_batch_witness :
  fst (run_SET_TEXT three_labels second_fails) =
    error_result (ErrorObject "Parent node not found") /\
  (forall message,
     @ErrorObject Z_number "Parent node not found" = ErrorObject message ->
     fst (run_SET_TEXT three_labels second_fails) =
       Normal {| content := [ {| type := "text"; Mcp.text := message |} ];
                 isError := Some true |}) /\
  length (trace (snd (run_SET_TEXT three_labels second_fails))) = 2 /\
  forallb succeeded (take 1 (trace (snd (run_SET_TEXT three_labels second_fails)))) = true /\
  scripted_sequential (script [created "1:1"; rejected "Parent node not found"; created "1:3"])
    [label "A" 10 20; label "B" 30 40]
    (trace (snd (run_SET_TEXT three_labels second_fails)))
    (world (snd (run_SET_TEXT three_labels second_fails))).
Proof.
  apply (set_text_first_failure_ends_batch Scenario.scripted Scenario.uuidv4 Scenario.client
           three_labels [label "A" 10 20; label "B" 30 40; label "C" 50 60]
           (script [created "1:1"; rejected "Parent node not found"; created "1:3"])
           (fst (run_SET_TEXT three_labels second_fails))
           (snd (run_SET_TEXT three_labels second_fails))
           1 (make_params "uuid-1" (label "B" 30 40))
           (ErrorObject "Parent node not found")).
  - reflexivity.
  - reflexivity.
  - reflexivity.
Defined.

(** A batch of two labels whose first command is rejected. *)
Definition two_labels : Args Z_number :=
  {| text := None; texts := Some [label "A" 10 20; label "B" 30 40] |}.

Definition first_fails : state Z_number Scenario.scripted :=
  State (script [rejected "Font not loaded"; created "1:2"]) [].

(** C2 fails as stated: two configurations are submitted and one command is
    dispatched, the second element never being reached. *)
Lemma set_text_failure_skips_rest :
  List.map arguments (trace (snd (run_SET_TEXT two_labels first_fails))) =
    [[make_params "uuid-0" (label "A" 10 20)]] /\
  fst (run_SET_TEXT two_labels first_fails) =
    Normal {| content := [ {| type := "text"; Mcp.text := "Font not loaded" |} ];
              isError := Some true |}.
Proof. split; reflexivity. Qed.

(** Three labels, the second rejected: the dispatch stops there. *)
Lemma set_text_dispatch_order_witness :
  exists k,
    k <= 3 /\
    length (trace (snd (run_SET_TEXT three_labels second_fails))) = k /\
    scripted_sequential
      (script [created "1:1"; rejected "Parent node not found"; created "1:3"])
      (take k [label "A" 10 20; label "B" 30 40; label "C" 50 60])
      (trace (snd (run_SET_TEXT three_labels second_fails)))
      (world (snd (run_SET_TEXT three_labels second_fails))) /\
    (forall i c e,
       trace (snd (run_SET_TEXT three_labels second_fails)) !! i = Some c ->
       outcome c = Throw e ->
       S i = k /\
       fst (run_SET_TEXT three_labels second_fails) = error_result e) /\
    (k < 3 ->
       exists c,
         last (trace (snd (run_SET_TEXT three_labels second_fails))) = Some c /\
         succeeded c = false) /\
    (forallb succeeded (trace (snd (run_SET_TEXT three_labels second_fails))) = true ->
       k = 3 /\
       fst (run_SET_TEXT three_labels second_fails) =
         Normal (ids_result
                   (List.flat_map call_ids
                      (trace (snd (run_SET_TEXT three_labels second_fails)))))).
Proof.
  apply (set_text_dispatch_order Scenario.scripted Scenario.uuidv4 Scenario.client
           three_labels [label "A" 10 20; label "B" 30 40; label "C" 50 60]
           (script [created "1:1"; rejected "Parent node not found"; created "1:3"])
           (fst (run_SET_TEXT three_labels second_fails))
           (snd (run_SET_TEXT three_labels second_fails))).
  - reflexivity.
  - reflexivity.
Defined.

(** Two labels, both created. *)
Definition both_created : state Z_number Scenario.scripted :=
  State (script [created "1:1"; created "1:2"]) [].

(** The identifiers come out in the order of the input. *)
Example set_text_two_labels :
  fst (run_SET_TEXT two_labels both_created) =
    Normal {| content := [ {| type := "text"; Mcp.text := "1:1" |};
                           {| type := "text"; Mcp.text := "1:2" |} ];
              isError := None |} /\
  List.map arguments (trace (snd (run_SET_TEXT two_labels both_created))) =
    [[make_params "uuid-0" (label "A" 10 20)];
     [make_params "uuid-1" (label "B" 30 40)]].
Proof. split; reflexivity. Qed.

(** One configuration, answered with a container of two nodes. *)
Definition one_label : Args Z_number :=
  {| text := Some (label "A" 10 20); texts := None |}.

Definition two_nodes : state Z_number Scenario.scripted :=
  State (script [Normal (object [("nodes", array [object [("id", str "1:1")];
                                                  object [("id", str "1:2")]])])]) [].

(** The result of one element may hold several identifiers: a singular
    configuration, one command, and the two identifiers of its result. *)
Example set_text_single_many_ids :
  length (trace (snd (run_SET_TEXT one_label two_nodes))) = 1 /\
  fst (run_SET_TEXT one_label two_nodes) =
    Normal {| content := [ {| type := "text"; Mcp.text := "1:1" |};
                           {| type := "text"; Mcp.text := "1:2" |} ];
              isError := None |}.
Proof. split; reflexivity. Qed.

(** A singular configuration answered with nothing that carries an
    identifier gives an empty content. *)
Example set_text_single_no_id :
  fst (run_SET_TEXT one_label (State (script [Normal (object [("ok", boolean true)])]) [])) =
    Normal {| content := []; isError := None |}.
Proof. reflexivity. Qed.

Lemma set_text_single_witness :
  run_SET_TEXT {| text := None; texts := Some [label "A" 10 20] |}
    (State (script [created "7:1"]) []) =
    (fst (run_SET_TEXT one_label (State (script [created "7:1"]) [])),
     snd (run_SET_TEXT one_label (State (script [created "7:1"]) []))) /\
  exists c,
    trace (snd (run_SET_TEXT one_label (State (script [created "7:1"]) []))) = [c] /\
    scripted_sequential (script [created "7:1"]) [label "A" 10 20] [c]
      (world (snd (run_SET_TEXT one_label (State (script [created "7:1"]) [])))) /\
    fst (run_SET_TEXT one_label (State (script [created "7:1"]) [])) =
      match outcome c with
      | Normal v =>
          Normal {| content := List.map text_item (result_ids v); isError := None |}
      | Throw e => error_result e
      end /\
    (forall props s,
       outcome c = Normal (object props) ->
       lookup_prop "id" props = str s ->
       fst (run_SET_TEXT one_label (State (script [created "7:1"]) [])) =
         Normal {| content := [ {| type := "text"; Mcp.text := s |} ];
                   isError := None |}).
Proof.
  apply (set_text_single Scenario.scripted Scenario.uuidv4 Scenario.client
           (label "A" 10 20) (script [created "7:1"])
           (fst (run_SET_TEXT one_label (State (script [created "7:1"]) [])))
           (snd (run_SET_TEXT one_label (State (script [created "7:1"]) [])))).
  reflexivity.
Defined.

(** Nothing given at all. *)
Lemma set_text_missing_input_witness :
  run_SET_TEXT {| text := None; texts := None |} both_created =
    (Normal {| content := [ {| type := "text";
                               Mcp.text := "You must provide either 'text' or 'texts' as input." |} ];
               isError := Some true |},
     both_created).
Proof.
  apply (set_text_missing_input Scenario.scripted Scenario.uuidv4 Scenario.client
           {| text := None; texts := None |} both_created).
  - reflexivity.
  - reflexivity.
Defined.

(** Both keys given: the two labels of [texts] are created, the one of
    [text] is not. *)
Definition text_and_texts : Args Z_number :=
  {| text := Some (label "Z" 0 0); texts := Some [label "A" 10 20; label "B" 30 40] |}.

Lemma set_text_texts_precedence_witness :
  (forall t,
     run_SET_TEXT {| text := t; texts := Some [label "A" 10 20; label "B" 30 40] |}
       both_created =
       (fst (run_SET_TEXT text_and_texts both_created),
        snd (run_SET_TEXT text_and_texts both_created))) /\
  (exists k,
     k <= 2 /\
     scripted_sequential (world both_created)
       (take k [label "A" 10 20; label "B" 30 40])
       (drop (length (trace both_created))
          (trace (snd (run_SET_TEXT text_and_texts both_created))))
       (world (snd (run_SET_TEXT text_and_texts both_created))) /\
     (k < 2 ->
        exists c,
          last (drop (length (trace both_created))
                  (trace (snd (run_SET_TEXT text_and_texts both_created)))) = Some c /\
          succeeded c = false) /\
     (forallb succeeded
        (drop (length (trace both_created))
           (trace (snd (run_SET_TEXT text_and_texts both_created)))) = true ->
        fst (run_SET_TEXT text_and_texts both_created) =
          Normal (ids_result
                    (List.flat_map call_ids
                       (drop (length (trace both_created))
                          (trace (snd (run_SET_TEXT text_and_texts both_created)))))))) /\
  ([label "A" 10 20; label "B" 30 40] = [] ->
   fst (run_SET_TEXT text_and_texts both_created) =
     Normal {| content := []; isError := None |} /\
   snd (run_SET_TEXT text_and_texts both_created) = both_created).
Proof.
  apply (set_text_texts_precedence Scenario.scripted Scenario.uuidv4 Scenario.client
           text_and_texts [label "A" 10 20; label "B" 30 40] both_created
           (fst (run_SET_TEXT text_and_texts both_created))
           (snd (run_SET_TEXT text_and_texts both_created))).
  - reflexivity.
  - reflexivity.
Defined.

(** Both keys given, the labels of [texts] are what is sent; and with
    [texts] empty nothing is sent, [text] or not. *)
Example set_text_texts_wins :
  List.map arguments (trace (snd (run_SET_TEXT text_and_texts both_created))) =
    [[make_params "uuid-0" (label "A" 10 20)];
     [make_params "uuid-1" (label "B" 30 40)]] /\
  run_SET_TEXT {| text := Some (label "Z" 0 0); texts := Some [] |} both_created =
    (Normal {| content := []; isError := None |}, both_created).
Proof. split; reflexivity. Qed.

End TextToolsFacts.

(** ** Properties of the GET_CSS_ASYNC handler *)

Module CssToolsFacts.
Import JS Exec Mcp CssTools.

Section Facts.
Context {N : JsNumber}.
Variable World : Type.
Variable figmaClient : FigmaClient World.
Variable GET_CSS_ASYNC_name : string.
Variable ensureNodeIdIsString : value N -> completion N (value N).

#[local] Abbreviation GET_CSS_ASYNC :=
  (GET_CSS_ASYNC World figmaClient GET_CSS_ASYNC_name ensureNodeIdIsString).
#[local] Abbreviation get_css_body :=
  (get_css_body World figmaClient GET_CSS_ASYNC_name ensureNodeIdIsString).
#[local] Abbreviation build_params := (build_params ensureNodeIdIsString).

(** [JSON.stringify] of an object is a string, never [undefined]. *)
Lemma stringify_object (props : list (string * value N)) :
  stringify (object props) = Some (stringify_text (object props)).
Proof. reflexivity. Qed.

(** The [try] block throws exactly when building the parameters throws or
    the command is rejected; the command is called at most once. *)
Lemma get_css_body_run args (st : state N World) :
  match build_params args with
  | Throw e => get_css_body args st = (Throw e, st)
  | Normal params =>
      exists r w',
        executeCommand figmaClient GET_CSS_ASYNC_name (object params) (world st) = (r, w') /\
        get_css_body args st =
          (match r with
           | Normal result => Normal (json_result (success_response result))
           | Throw e => Throw e
           end,
           State w' (trace st ++
                     [Call "executeCommand" [str GET_CSS_ASYNC_name; object params] r]))
  end.
Proof.
  unfold CssTools.get_css_body, bind, lift, await, ret.
  destruct (build_params args) as [params|e]; [|reflexivity].
  destruct (executeCommand figmaClient GET_CSS_ASYNC_name (object params) (world st))
    as [r w'] eqn:Ecall.
  exists r, w'. split; [reflexivity|]. destruct r; reflexivity.
Qed.

(** The [catch] block, lines 55 to 75, runs no call. *)
Lemma get_css_catch_run args (e : exn N) (st : state N World) :
  get_css_catch World args e st = (failure_result args e, st).
Proof.
  unfold get_css_catch, failure_result, bind, lift, ret, and_then.
  destruct (error_text e); reflexivity.
Qed.

(** A whole invocation: at most one call, and how the handler completes. *)
Lemma GET_CSS_ASYNC_run args (st : state N World) :
  match build_params args with
  | Throw e => GET_CSS_ASYNC args st = (failure_result args e, st)
  | Normal params =>
      exists r w',
        executeCommand figmaClient GET_CSS_ASYNC_name (object params) (world st) = (r, w') /\
        GET_CSS_ASYNC args st =
          (match r with
           | Normal result => Normal (json_result (success_response result))
           | Throw e => failure_result args e
           end,
           State w' (trace st ++
                     [Call "executeCommand" [str GET_CSS_ASYNC_name; object params] r]))
  end.
Proof.
  pose proof (get_css_body_run args st) as Hbody.
  unfold CssTools.GET_CSS_ASYNC, try_catch.
  destruct (build_params args) as [params|e].
  - destruct Hbody as (r & w' & Hcall & ->). exists r, w'. split; [assumption|].
    destruct r as [result|e]; [reflexivity | apply get_css_catch_run].
  - rewrite Hbody. apply get_css_catch_run.
Qed.

(** The parameters fail to build only when the helper of line 42 throws. *)
Lemma build_params_throws args (e : exn N) :
  build_params args = Throw e -> ensureNodeIdIsString (nodeId args) = Throw e.
Proof.
  unfold CssTools.build_params, and_then.
  destruct (defined (nodeId args)); [|destruct (defined (format args)); discriminate].
  destruct (ensureNodeIdIsString (nodeId args)); [|congruence].
  destruct (defined (format args)); discriminate.
Qed.

(** What holds of a failure text: one content item, whose text is
    [JSON.stringify] of an object with [success] false, the message, and an
    empty [results]. *)
Definition failure_text (r : ToolResult) (message : string) : Prop :=
  exists meta text,
    stringify
      (object [("success", boolean false);
               ("error", object [("message", str message);
                                 ("results", @array N []);
                                 ("meta", meta)])]) = Some text /\
    r = {| content := [ {| type := "text"; Mcp.text := text |} ]; isError := None |}.

Lemma failure_result_cases args (e : exn N) :
  match e with
  | ErrorObject message =>
      exists r, failure_result args e = Normal r /\ failure_text r message
  | Thrown v =>
      match to_String v with
      | Normal message =>
          exists r, failure_result args e = Normal r /\ failure_text r message
      | Throw x => failure_result args e = Throw x
      end
  end.
Proof.
  assert (Hmessage : forall message,
             failure_text (json_result (failure_response args message)) message).
  { intros message.
    exists (object [("operation", str "get_css_async");
                    ("params", object [("nodeId", nodeId args);
                                       ("format", format args)])]),
           (stringify_text (failure_response args message)).
    split; reflexivity. }
  unfold failure_result.
  destruct e as [message|v]; simpl.
  - eexists. split; [reflexivity | apply Hmessage].
  - destruct (to_String v) as [message|x]; simpl; [|reflexivity].
    eexists. split; [reflexivity | apply Hmessage].
Qed.


End Facts.

(** *** Concrete runs against the scripted plugin *)

Import Scenario.

(** [ensureNodeIdIsString] as its name reads: a string passes, anything else
    is refused. *)
Definition strings_only (v : value Z_number) : completion Z_number (value Z_number) :=
  match v with
  | str s => Normal (str s)
  | _ => Throw (ErrorObject "Node ID must be a string")
  end.

#[local] Abbreviation run_GET_CSS :=
  (CssTools.GET_CSS_ASYNC Scenario.scripted Scenario.client "get_css_async" strings_only).

Definition css_args : CssTools.Args Z_number :=
  {| nodeId := str "123:456"; format := str "object" |}.

(** A result that is not an array is wrapped. *)
Example get_css_wraps_object :
  fst (run_GET_CSS css_args
         (State (script [Normal (object [("color", str "red")])]) [])) =
    Normal
      {| content :=
           [text_item ("{" +:+ quote "success" +:+ ":true," +:+ quote "results" +:+ ":[{"
                       +:+ quote "color" +:+ ":" +:+ quote "red" +:+ "}]}")];
         isError := None |}.
Proof. reflexivity. Qed.

(** The parameters sent are the two arguments. *)
Example get_css_params :
  List.map arguments
    (trace (snd (run_GET_CSS css_args (State (script [Normal (array [])]) [])))) =
    [[str "get_css_async";
      object [("nodeId", str "123:456"); ("format", str "object")]]].
Proof. reflexivity. Qed.

(** A rejection becomes a [success: false] text; an argument that was not
    given is left out of [meta.params]. *)
Example get_css_rejected :
  fst (run_GET_CSS {| nodeId := str "1:2"; format := undefined |}
         (State (script [rejected "Node not found"]) [])) =
    Normal
      {| content :=
           [text_item ("{" +:+ quote "success" +:+ ":false," +:+ quote "error" +:+ ":{"
                       +:+ quote "message" +:+ ":" +:+ quote "Node not found" +:+ ","
                       +:+ quote "results" +:+ ":[],"
                       +:+ quote "meta" +:+ ":{" +:+ quote "operation" +:+ ":"
                       +:+ quote "get_css_async" +:+ "," +:+ quote "params" +:+ ":{"
                       +:+ quote "nodeId" +:+ ":" +:+ quote "1:2" +:+ "}}}}")];
         isError := None |}.
Proof. reflexivity. Qed.

(** A rejection with a value that is no [Error] and that [String] cannot
    convert: plain data with a [toString] of its own. *)
Definition unprintable : value Z_number := object [("toString", num 1%Z)].


(** A rejection with a string, no [Error] either, comes back as text. *)
Example get_css_rejected_with_string :
  exists r,
    fst (run_GET_CSS css_args (State (script [Throw (Thrown (str "timeout"))]) [])) =
      Normal r /\
    failure_text r "timeout".
Proof.
  eexists. split; [reflexivity|].
  exists (object [("operation", str "get_css_async");
                  ("params", object [("nodeId", str "123:456");
                                     ("format", str "object")])]).
  eexists. split; reflexivity.
Qed.

End CssToolsFacts.

(** ** Failures are returned, unless they cannot be printed *)

Module ErrorHandling.
Import JS Exec Mcp.

Section Facts.
Context {N : JsNumber}.
Variable World : Type.
Variable uuidv4 : World -> string * World.
Variable figmaClient : FigmaClient World.
Variable GET_CSS_ASYNC_name : string.
Variable ensureNodeIdIsString : value N -> completion N (value N).

#[local] Abbreviation SET_TEXT := (TextTools.SET_TEXT World uuidv4 figmaClient).
#[local] Abbreviation set_text_body := (TextTools.set_text_body World uuidv4 figmaClient).
#[local] Abbreviation GET_CSS_ASYNC :=
  (CssTools.GET_CSS_ASYNC World figmaClient GET_CSS_ASYNC_name ensureNodeIdIsString).
#[local] Abbreviation get_css_body :=
  (CssTools.get_css_body World figmaClient GET_CSS_ASYNC_name ensureNodeIdIsString).

(** The expression of lines 156 and 59 throws only on a value that is no
    [Error] and has no string conversion. *)
Lemma error_text_throws (e x : exn N) :
  error_text e = Throw x -> exists v, e = Thrown v /\ to_String v = Throw x.
Proof. destruct e as [message|v]; simpl; [discriminate | eauto]. Qed.

(** What the [catch] block of SET_TEXT makes of an error. *)
Lemma error_result_cases (e : exn N) :
  match e with
  | ErrorObject message =>
      TextTools.error_result e =
        Normal {| content := [ {| type := "text"; text := message |} ];
                  isError := Some true |}
  | Thrown v =>
      match to_String v with
      | Normal message =>
          TextTools.error_result e =
            Normal {| content := [ {| type := "text"; text := message |} ];
                      isError := Some true |}
      | Throw x => TextTools.error_result e = Throw x
      end
  end.
Proof.
  unfold TextTools.error_result. destruct e as [message|v]; simpl; [reflexivity|].
  destruct (to_String v); reflexivity.
Qed.

(** A rejected call is what the [try] block of SET_TEXT throws. *)
Lemma set_text_body_rethrows args (st : state N World) c e :
  In c (drop (length (trace st)) (trace (snd (set_text_body args st)))) ->
  outcome c = Throw e ->
  fst (set_text_body args st) = Throw e.
Proof.
  unfold TextTools.set_text_body, bind.
  rewrite TextToolsFacts.select_texts_spec.
  destruct (TextToolsFacts.selected args) as [cfgs|]; simpl.
  - destruct (for_of cfgs [] (TextTools.dispatch_one World uuidv4 figmaClient) st)
      as [r st1] eqn:Hloop.
    apply TextToolsFacts.for_of_dispatch in Hloop
      as (k & calls & Htr & _ & _ & Hres).
    intros Hin Hout.
    assert (Hin' : In c calls).
    { destruct r; simpl in Hin; rewrite Htr, drop_app_length in Hin; exact Hin. }
    destruct r as [ids|e'].
    + destruct Hres as (_ & Hall & _). rewrite forallb_forall in Hall.
      apply Hall in Hin'. unfold TextTools.succeeded in Hin'.
      rewrite Hout in Hin'. discriminate.
    + destruct Hres as (pre & p & -> & Hall). simpl.
      apply in_app_or in Hin' as [Hpre | [<- | []]].
      * rewrite forallb_forall in Hall. apply Hall in Hpre.
        unfold TextTools.succeeded in Hpre. rewrite Hout in Hpre. discriminate.
      * simpl in Hout. congruence.
  - rewrite drop_all. intros [].
Qed.

(** A rejected call is what the [try] block of GET_CSS_ASYNC throws. *)
Lemma get_css_body_rethrows args (st : state N World) c e :
  In c (drop (length (trace st)) (trace (snd (get_css_body args st)))) ->
  outcome c = Throw e ->
  fst (get_css_body args st) = Throw e.
Proof.
  pose proof (CssToolsFacts.get_css_body_run World figmaClient GET_CSS_ASYNC_name
                ensureNodeIdIsString args st) as Hbody.
  destruct (CssTools.build_params ensureNodeIdIsString args) as [params|e0].
  - destruct Hbody as (r & w' & _ & ->). simpl. rewrite drop_app_length.
    intros [<- | []] Hout. simpl in Hout. subst r. reflexivity.
  - rewrite Hbody. simpl. rewrite drop_all. intros [].
Qed.

(** How SET_TEXT completes when one of its calls was rejected with [e]. *)
Lemma set_text_on_rejection targs (st : state N World) c e :
  In c (drop (length (trace st)) (trace (snd (SET_TEXT targs st)))) ->
  outcome c = Throw e ->
  fst (SET_TEXT targs st) = TextTools.error_result e.
Proof.
  destruct (SET_TEXT targs st) as [r st'] eqn:Hrun.
  apply TextToolsFacts.SET_TEXT_added in Hrun as (calls & Htr & Hcase).
  simpl. rewrite Htr, drop_app_length. intros Hin Hout.
  destruct (TextToolsFacts.selected targs) as [cfgs|].
  - destruct Hcase as (k & _ & _ & [(_ & Hall & _) | (pre & p & e' & -> & Hall & ->)]).
    + rewrite forallb_forall in Hall. apply Hall in Hin.
      unfold TextTools.succeeded in Hin. rewrite Hout in Hin. discriminate.
    + apply in_app_or in Hin as [Hpre | [<- | []]].
      * rewrite forallb_forall in Hall. apply Hall in Hpre.
        unfold TextTools.succeeded in Hpre. rewrite Hout in Hpre. discriminate.
      * simpl in Hout. congruence.
  - destruct Hcase as [-> _]. destruct Hin.
Qed.

(** SET_TEXT throws only the error its [catch] block threw on a rejection. *)
Lemma set_text_throws targs (st : state N World) x :
  fst (SET_TEXT targs st) = Throw x ->
  exists c e,
    In c (drop (length (trace st)) (trace (snd (SET_TEXT targs st)))) /\
    outcome c = Throw e /\
    error_text e = Throw x.
Proof.
  destruct (SET_TEXT targs st) as [r st'] eqn:Hrun.
  apply TextToolsFacts.SET_TEXT_added in Hrun as (calls & Htr & Hcase).
  simpl. rewrite Htr, drop_app_length. intros ->.
  destruct (TextToolsFacts.selected targs) as [cfgs|].
  - destruct Hcase as (k & _ & _ & [(_ & _ & Hr) | (pre & p & e & -> & _ & Hr)]);
      [discriminate|].
    exists (Call "createText" [p] (Throw e)), e.
    split; [apply in_or_app; right; now left|]. split; [reflexivity|].
    unfold TextTools.error_result, and_then in Hr.
    destruct (error_text e); congruence.
  - destruct Hcase as [_ Hr]. discriminate.
Qed.


End Facts.

(** *** Concrete runs against the scripted plugin *)

Import Scenario.


(** A rejection with a string, or with an array of printable values, is
    returned as its conversion. *)
Example set_text_rejected_with_values :
  fst (TextTools.SET_TEXT Scenario.scripted Scenario.uuidv4 Scenario.client
         TextToolsFacts.one_label
         (State (script [Throw (Thrown (str "socket closed"))]) [])) =
    Normal {| content := [text_item "socket closed"]; isError := Some true |} /\
  fst (TextTools.SET_TEXT Scenario.scripted Scenario.uuidv4 Scenario.client
         TextToolsFacts.one_label
         (State (script [Throw (Thrown (array [num 4%Z; null; str "x"; object []]))]) [])) =
    Normal {| content := [text_item "4,,x,[object Object]"]; isError := Some true |}.
Proof. split; reflexivity. Qed.

End ErrorHandling.

(** ** The bridge behind the client

    The Figma client ([clients/figma-client.js]), with its codec and its
    table of pending calls, lies outside the part of the server embedded
    above.  What follows is the bridge as its specification words it: the
    codec that writes a command request to the text sent over the socket
    and reads it back, failing on parameters that cannot be written; and
    the table that resolves or rejects each pending call once. *)

Module Bridge.
Import JS.

(** Modelled from the spec: the error taxonomy of section 7; the client that
    raises these errors is missing. *)
Inductive ErrorKind : Type :=
| NotConnected
| EncodingError
| TransportError
| ConnectionClosed
| Timeout
| RemoteError (reason : option string).

(** *** Text on the wire *)

Definition is_digit (c : ascii) : bool :=
  match Ascii.is_nat c with
  | Some _ => true
  | None => false
  end.

(** A number on the wire starts with a digit or a minus sign. *)
Definition number_head (s : string) : bool :=
  match s with
  | String c _ => Ascii.eqb c "-" || is_digit c
  | EmptyString => false
  end.

(** What can follow a value on the wire: nothing, or the comma or the
    closing bracket of the array or object it stands in. *)
Definition delimited (rest : string) : bool :=
  match rest with
  | EmptyString => true
  | String c _ => Ascii.eqb c "," || Ascii.eqb c "]" || Ascii.eqb c "}"
  end.

(** Modelled from the spec: the reading of a number by the Command Envelope
    Codec, whose source is missing.  [Number_read] reads a number off the
    front of a text and gives what follows it; it reads back what
    [Number.prototype.toString] writes of a finite number, which starts as
    a number does on the wire. *)
Class NumberReader (N : JsNumber) := {
  Number_read : string -> option (number * string);
  Number_read_toString :
    forall (n : number) (rest : string),
      number_finite n = true -> delimited rest = true ->
      Number_read (Number_toString n +:+ rest) = Some (n, rest);
  Number_toString_head :
    forall n : number, number_finite n = true -> number_head (Number_toString n) = true
}.

Section Codec.
Context {N : JsNumber} {R : NumberReader N}.

(** Modelled from the spec: the Command Envelope Codec, whose source is
    missing.  A Command Envelope holds a command identifier, a command name,
    a channel identifier and the parameters, an arbitrary structured
    payload. *)
Record Envelope : Type := {
  commandId : string;
  commandName : string;
  channelId : string;
  parameters : value N
}.

(** Modelled from the spec: the wire format of the Command Envelope Codec,
    whose source is missing: JSON text, written without spaces.  A payload
    that JSON has no writing for ([undefined], a number that is not finite,
    anywhere in it) cannot be serialized. *)
Fixpoint encode (v : value N) : option string :=
  match v with
  | undefined => None
  | null => Some "null"
  | boolean b => Some (if b then "true" else "false")
  | num n => if number_finite n then Some (Number_toString n) else None
  | str s => Some (quote s)
  | array items =>
      match
        (fix elements (xs : list (value N)) : option (list string) :=
           match xs with
           | [] => Some []
           | x :: rest =>
               match encode x, elements rest with
               | Some part, Some parts => Some (part :: parts)
               | _, _ => None
               end
           end) items
      with
      | Some parts => Some ("[" +:+ join "," parts +:+ "]")
      | None => None
      end
  | object props =>
      match
        (fix members (kvs : list (string * value N)) : option (list string) :=
           match kvs with
           | [] => Some []
           | kv :: rest =>
               match encode (snd kv), members rest with
               | Some part, Some parts =>
                   Some ((quote (fst kv) +:+ ":" +:+ part) :: parts)
               | _, _ => None
               end
           end) props
      with
      | Some parts => Some ("{" +:+ join "," parts +:+ "}")
      | None => None
      end
  end.

(** Modelled from the spec: the parameters that can be serialized (sections
    4.1 and 7), the Command Envelope Codec being missing: those with a
    writing on the wire. *)
Fixpoint encodable (v : value N) : bool :=
  match v with
  | undefined => false
  | null | boolean _ | str _ => true
  | num n => number_finite n
  | array items => forallb encodable items
  | object props => forallb (fun kv => encodable (snd kv)) props
  end.

(** [p] in front of [s], and what follows it. *)
Fixpoint strip_prefix (p s : string) : option string :=
  match p with
  | EmptyString => Some s
  | String c p' =>
      match s with
      | String c' s' => if Ascii.eqb c c' then strip_prefix p' s' else None
      | EmptyString => None
      end
  end.

Definition hex_value (c : ascii) : option nat :=
  let n := nat_of_ascii c in
  if Nat.leb 48 n && Nat.leb n 57 then Some (n - 48)
  else if Nat.leb 97 n && Nat.leb n 102 then Some (n - 87)
  else if Nat.leb 65 n && Nat.leb n 70 then Some (n - 55)
  else None.

(** The character a backslash and [c] stand for, [u] apart. *)
Definition unescape (c : ascii) : option ascii :=
  let n := nat_of_ascii c in
  if Nat.eqb n 34 then Some dquote
  else if Nat.eqb n 92 then Some backslash
  else if Nat.eqb n 47 then Some "/"%char
  else if Nat.eqb n 98 then Some (ascii_of_nat 8)
  else if Nat.eqb n 116 then Some (ascii_of_nat 9)
  else if Nat.eqb n 110 then Some (ascii_of_nat 10)
  else if Nat.eqb n 102 then Some (ascii_of_nat 12)
  else if Nat.eqb n 114 then Some (ascii_of_nat 13)
  else None.

(** Modelled from the spec: the reading side of the wire format, the
    Command Envelope Codec being missing: the characters of a quoted string,
    the opening quote already read, up to the closing one. *)
Fixpoint parse_chars (s : string) : option (string * string) :=
  match s with
  | EmptyString => None
  | String c rest =>
      if Ascii.eqb c dquote then Some (EmptyString, rest)
      else if Ascii.eqb c backslash then
        match rest with
        | String e rest1 =>
            if Ascii.eqb e "u" then
              match rest1 with
              | String h1 (String h2 (String h3 (String h4 rest2))) =>
                  match hex_value h1, hex_value h2, hex_value h3, hex_value h4 with
                  | Some 0, Some 0, Some d3, Some d4 =>
                      match parse_chars rest2 with
                      | Some (body, tail) =>
                          Some (String (ascii_of_nat (16 * d3 + d4)) body, tail)
                      | None => None
                      end
                  | _, _, _, _ => None
                  end
              | _ => None
              end
            else
              match unescape e with
              | Some c' =>
                  match parse_chars rest1 with
                  | Some (body, tail) => Some (String c' body, tail)
                  | None => None
                  end
              | None => None
              end
        | EmptyString => None
        end
      else
        match parse_chars rest with
        | Some (body, tail) => Some (String c body, tail)
        | None => None
        end
  end.

(** Modelled from the spec: the reading side of the wire format, the
    Command Envelope Codec being missing: a value, the elements of an array
    and the members of an object, each with the text that follows it.
    [fuel] bounds the number of values, elements and members read. *)
Fixpoint parse_value (fuel : nat) (s : string) : option (value N * string) :=
  match fuel with
  | 0 => None
  | S fuel =>
      match s with
      | EmptyString => None
      | String c rest =>
          if Ascii.eqb c "n" then
            match strip_prefix "ull" rest with
            | Some tail => Some (null, tail)
            | None => None
            end
          else if Ascii.eqb c "t" then
            match strip_prefix "rue" rest with
            | Some tail => Some (boolean true, tail)
            | None => None
            end
          else if Ascii.eqb c "f" then
            match strip_prefix "alse" rest with
            | Some tail => Some (boolean false, tail)
            | None => None
            end
          else if Ascii.eqb c dquote then
            match parse_chars rest with
            | Some (body, tail) => Some (str body, tail)
            | None => None
            end
          else if Ascii.eqb c "[" then
            match rest with
            | String c' tail =>
                if Ascii.eqb c' "]" then Some (array [], tail)
                else
                  match parse_elements fuel rest with
                  | Some (items, tail') => Some (array items, tail')
                  | None => None
                  end
            | EmptyString => None
            end
          else if Ascii.eqb c "{" then
            match rest with
            | String c' tail =>
                if Ascii.eqb c' "}" then Some (object [], tail)
                else
                  match parse_members fuel rest with
                  | Some (props, tail') => Some (object props, tail')
                  | None => None
                  end
            | EmptyString => None
            end
          else if number_head s then
            match Number_read s with
            | Some (n, tail) => Some (num n, tail)
            | None => None
            end
          else None
      end
  end
with parse_elements (fuel : nat) (s : string) : option (list (value N) * string) :=
  match fuel with
  | 0 => None
  | S fuel =>
      match parse_value fuel s with
      | Some (v, String c rest) =>
          if Ascii.eqb c "," then
            match parse_elements fuel rest with
            | Some (vs, tail) => Some (v :: vs, tail)
            | None => None
            end
          else if Ascii.eqb c "]" then Some ([v], rest)
          else None
      | _ => None
      end
  end
with parse_members (fuel : nat) (s : string)
  : option (list (string * value N) * string) :=
  match fuel with
  | 0 => None
  | S fuel =>
      match s with
      | String q rest =>
          if Ascii.eqb q dquote then
            match parse_chars rest with
            | Some (k, String colon rest1) =>
                if Ascii.eqb colon ":" then
                  match parse_value fuel rest1 with
                  | Some (v, String c rest2) =>
                      if Ascii.eqb c "," then
                        match parse_members fuel rest2 with
                        | Some (kvs, tail) => Some ((k, v) :: kvs, tail)
                        | None => None
                        end
                      else if Ascii.eqb c "}" then Some ([(k, v)], rest2)
                      else None
                  | _ => None
                  end
                else None
            | _ => None
            end
          else None
      | EmptyString => None
      end
  end.

(** Modelled from the spec: the reading side of the wire format, the
    Command Envelope Codec being missing: a whole text read as one value,
    with fuel for any text of its length. *)
Definition decode (wire : string) : option (value N) :=
  match parse_value (S (String.length wire)) wire with
  | Some (v, EmptyString) => Some v
  | _ => None
  end.

(** Modelled from the spec: the [command-request] message of section 6, its
    kind and its four fields. *)
Definition command_request (e : Envelope) : value N :=
  object [("kind", str "command-request");
          ("commandId", str (commandId e));
          ("commandName", str (commandName e));
          ("channelId", str (channelId e));
          ("parameters", parameters e)].

(** Modelled from the spec: the writing side of the Command Envelope Codec,
    whose source is missing: the text of the [command-request] message, or
    [EncodingError] when the parameters cannot be serialized (sections 4.1
    and 7). *)
Definition serialize (e : Envelope) : ErrorKind + string :=
  match encode (command_request e) with
  | Some wire => inr wire
  | None => inl EncodingError
  end.

(** Modelled from the spec: a message read as a command request.  A message
    of another kind, or one whose identifiers are not strings, is not a
    command request. *)
Definition read_request (m : value N) : option Envelope :=
  match m with
  | object props =>
      match lookup_prop "kind" props,
            lookup_prop "commandId" props,
            lookup_prop "commandName" props,
            lookup_prop "channelId" props with
      | str kind, str id, str name, str channel =>
          if String.eqb kind "command-request"
          then Some {| commandId := id; commandName := name; channelId := channel;
                       parameters := lookup_prop "parameters" props |}
          else None
      | _, _, _, _ => None
      end
  | _ => None
  end.

(** Modelled from the spec: the reading side of the Command Envelope Codec,
    whose source is missing. *)
Definition deserialize (wire : string) : option Envelope :=
  match decode wire with
  | Some m => read_request m
  | None => None
  end.


(** *** Reading back what was written *)

Lemma append_cons c (s t : string) : String c s +:+ t = String c (s +:+ t).
Proof. reflexivity. Qed.

Lemma append_nil_r (s : string) : s +:+ EmptyString = s.
Proof. induction s as [|c s IH]; [reflexivity|]. now rewrite append_cons, IH. Qed.

Lemma append_assoc (s t u : string) : (s +:+ t) +:+ u = s +:+ (t +:+ u).
Proof. induction s as [|c s IH]; [reflexivity|]. now rewrite !append_cons, IH. Qed.

Lemma append_length (s t : string) :
  String.length (s +:+ t) = String.length s + String.length t.
Proof. induction s as [|c s IH]; [reflexivity|]. rewrite append_cons. simpl. now rewrite IH. Qed.

(** Induction on a payload, through its arrays and objects. *)
Lemma value_nested_ind (P : value N -> Prop) :
  P undefined -> P null -> (forall b, P (boolean b)) -> (forall n, P (num n)) ->
  (forall s, P (str s)) ->
  (forall items, Forall P items -> P (array items)) ->
  (forall props, Forall (fun kv => P (snd kv)) props -> P (object props)) ->
  forall v, P v.
Proof.
  intros Hundefined Hnull Hboolean Hnum Hstr Harray Hobject.
  fix IH 1. intros [| |b|n|s|items|props].
  - exact Hundefined.
  - exact Hnull.
  - apply Hboolean.
  - apply Hnum.
  - apply Hstr.
  - apply Harray. revert items. fix IHitems 1.
    intros [|x xs]; constructor; [apply IH | apply IHitems].
  - apply Hobject. revert props. fix IHprops 1.
    intros [|kv kvs]; constructor; [apply IH | apply IHprops].
Qed.

(** The writings of the elements of an array, and of the members of an
    object. *)
Fixpoint encode_elements (xs : list (value N)) : option (list string) :=
  match xs with
  | [] => Some []
  | x :: rest =>
      match encode x, encode_elements rest with
      | Some part, Some parts => Some (part :: parts)
      | _, _ => None
      end
  end.

Fixpoint encode_members (kvs : list (string * value N)) : option (list string) :=
  match kvs with
  | [] => Some []
  | kv :: rest =>
      match encode (snd kv), encode_members rest with
      | Some part, Some parts => Some ((quote (fst kv) +:+ ":" +:+ part) :: parts)
      | _, _ => None
      end
  end.

Lemma encode_array (items : list (value N)) :
  encode (array items) =
    match encode_elements items with
    | Some parts => Some ("[" +:+ join "," parts +:+ "]")
    | None => None
    end.
Proof. reflexivity. Qed.

Lemma encode_object (props : list (string * value N)) :
  encode (object props) =
    match encode_members props with
    | Some parts => Some ("{" +:+ join "," parts +:+ "}")
    | None => None
    end.
Proof. reflexivity. Qed.

Lemma strip_prefix_append (p rest : string) : strip_prefix p (p +:+ rest) = Some rest.
Proof.
  induction p as [|c p IH]; [reflexivity|].
  rewrite append_cons. simpl. now rewrite Ascii.eqb_refl.
Qed.

Lemma escape_char_append c (body tail : string) :
  escape_char c body +:+ tail = escape_char c (body +:+ tail).
Proof.
  unfold escape_char.
  repeat match goal with
         | |- context [if ?b then _ else _] => destruct b
         end; reflexivity.
Qed.

Lemma parse_chars_escape_char c (body : string) :
  parse_chars (escape_char c body) =
    match parse_chars body with
    | Some (read, tail) => Some (String c read, tail)
    | None => None
    end.
Proof. destruct c as [[] [] [] [] [] [] [] []]; reflexivity. Qed.

(** A quoted string is read back up to its closing quote. *)
Lemma parse_chars_escape (s rest : string) :
  parse_chars (escape s +:+ String dquote rest) = Some (s, rest).
Proof.
  induction s as [|c s IH]; [reflexivity|].
  simpl escape. now rewrite escape_char_append, parse_chars_escape_char, IH.
Qed.

Lemma quote_append (s rest : string) :
  quote s +:+ rest = String dquote (escape s +:+ String dquote rest).
Proof. unfold quote. now rewrite append_cons, append_assoc. Qed.

Lemma quote_length (s : string) : String.length (escape s) < String.length (quote s).
Proof. unfold quote. simpl. rewrite append_length. simpl. lia. Qed.

(** What a number starts with sends the reader to [Number_read]. *)
Lemma number_head_dispatch c (t : string) :
  number_head (String c t) = true ->
  Ascii.eqb c "n" = false /\ Ascii.eqb c "t" = false /\ Ascii.eqb c "f" = false /\
  Ascii.eqb c dquote = false /\ Ascii.eqb c "[" = false /\ Ascii.eqb c "{" = false /\
  Ascii.eqb c "]" = false.
Proof.
  destruct c as [[] [] [] [] [] [] [] []]; simpl; intros H;
    try discriminate H; repeat split.
Qed.

(** No writing starts with a closing bracket. *)
Lemma encode_head (v : value N) (p : string) :
  encode v = Some p -> exists c t, p = String c t /\ Ascii.eqb c "]" = false.
Proof.
  destruct v as [| |b|n|s|items|props].
  - discriminate.
  - intros [= <-]. eexists _, _. split; reflexivity.
  - intros [= <-]. destruct b; eexists _, _; split; reflexivity.
  - simpl. destruct (number_finite n) eqn:Hfinite; [|discriminate]. intros [= <-].
    pose proof (Number_toString_head n Hfinite) as Hhead.
    destruct (Number_toString n) as [|c t]; [discriminate|].
    exists c, t. split; [reflexivity|]. now apply number_head_dispatch in Hhead.
  - intros [= <-]. eexists _, _. split; reflexivity.
  - rewrite encode_array. destruct (encode_elements items); [|discriminate].
    intros [= <-]. eexists _, _. split; reflexivity.
  - rewrite encode_object. destruct (encode_members props); [|discriminate].
    intros [= <-]. eexists _, _. split; reflexivity.
Qed.

(** [v] is read back from its writing, whatever follows it in a text. *)
Definition reads_back (v : value N) : Prop :=
  forall p,
    encode v = Some p ->
    forall fuel rest,
      String.length p < fuel -> delimited rest = true ->
      parse_value fuel (p +:+ rest) = Some (v, rest).

Lemma join_cons_cons (p q : string) (rest : list string) :
  join "," (p :: q :: rest) = p +:+ "," +:+ join "," (q :: rest).
Proof. reflexivity. Qed.

Lemma parse_elements_encode (items : list (value N)) :
  Forall reads_back items ->
  forall parts,
    encode_elements items = Some parts ->
    items <> [] ->
    forall fuel rest,
      String.length (join "," parts) + 1 < fuel ->
      parse_elements fuel (join "," parts +:+ String "]" rest) = Some (items, rest).
Proof.
  induction 1 as [|x xs Hx Hxs IH]; intros parts Hparts Hne fuel rest Hfuel;
    [now contradiction Hne|].
  simpl in Hparts.
  destruct (encode x) as [part|] eqn:Hpart; [|discriminate].
  destruct (encode_elements xs) as [parts'|] eqn:Hparts'; [|discriminate].
  injection Hparts as <-.
  destruct fuel as [|fuel]; [lia|].
  destruct xs as [|y ys].
  - simpl in Hparts'. injection Hparts' as <-. simpl join in *.
    simpl parse_elements.
    rewrite (Hx part Hpart fuel (String "]" rest)) by (reflexivity || lia).
    reflexivity.
  - destruct parts' as [|q qs].
    { simpl in Hparts'. destruct (encode y), (encode_elements ys); discriminate. }
    specialize (IH (q :: qs) eq_refl ltac:(discriminate)).
    rewrite join_cons_cons in *.
    set (J := join "," (q :: qs)) in *. clearbody J.
    rewrite !append_length in Hfuel. simpl in Hfuel.
    rewrite !append_assoc. simpl parse_elements.
    rewrite (Hx part Hpart fuel ("," +:+ J +:+ String "]" rest))
      by (reflexivity || lia).
    change ("," +:+ J +:+ String "]" rest) with (String "," (J +:+ String "]" rest)).
    simpl. rewrite IH by lia. reflexivity.
Qed.

Lemma parse_members_encode (props : list (string * value N)) :
  Forall (fun kv => reads_back (snd kv)) props ->
  forall parts,
    encode_members props = Some parts ->
    props <> [] ->
    forall fuel rest,
      String.length (join "," parts) + 1 < fuel ->
      parse_members fuel (join "," parts +:+ String "}" rest) = Some (props, rest).
Proof.
  induction 1 as [|[k x] kvs Hx Hkvs IH]; intros parts Hparts Hne fuel rest Hfuel;
    [now contradiction Hne|].
  simpl in Hparts, Hx.
  destruct (encode x) as [part|] eqn:Hpart; [|discriminate].
  destruct (encode_members kvs) as [parts'|] eqn:Hparts'; [|discriminate].
  injection Hparts as <-.
  destruct fuel as [|fuel]; [lia|].
  assert (Hmember : forall tail,
             (quote k +:+ ":" +:+ part) +:+ tail =
               String dquote (escape k +:+ String dquote (String ":" (part +:+ tail)))).
  { intros tail. now rewrite !append_assoc, quote_append. }
  assert (Hlen : String.length part < String.length (quote k +:+ ":" +:+ part)).
  { rewrite !append_length. simpl. lia. }
  destruct kvs as [|kv kvs].
  - simpl in Hparts'. injection Hparts' as <-. simpl join in *.
    rewrite Hmember. simpl parse_members.
    rewrite parse_chars_escape. simpl.
    rewrite (Hx part Hpart fuel (String "}" rest)) by (reflexivity || lia).
    reflexivity.
  - destruct parts' as [|q qs].
    { simpl in Hparts'. destruct (encode (snd kv)), (encode_members kvs); discriminate. }
    specialize (IH (q :: qs) eq_refl ltac:(discriminate)).
    rewrite join_cons_cons in *.
    set (J := join "," (q :: qs)) in *. clearbody J.
    rewrite (append_length (quote k +:+ ":" +:+ part)) in Hfuel.
    change (String.length ("," +:+ J)) with (S (String.length J)) in Hfuel.
    rewrite (append_assoc (quote k +:+ ":" +:+ part)). rewrite Hmember.
    simpl parse_members. rewrite parse_chars_escape. simpl.
    rewrite (append_assoc ",").
    rewrite (Hx part Hpart fuel ("," +:+ J +:+ String "}" rest))
      by (reflexivity || lia).
    change ("," +:+ J +:+ String "}" rest) with (String "," (J +:+ String "}" rest)).
    simpl. rewrite IH by lia. reflexivity.
Qed.

Lemma join_head c (t : string) (parts : list string) :
  exists t', join "," (String c t :: parts) = String c t'.
Proof. destruct parts; eexists; reflexivity. Qed.

Lemma parse_value_array fuel c (t : string) :
  Ascii.eqb c "]" = false ->
  parse_value (S fuel) (String "[" (String c t)) =
    match parse_elements fuel (String c t) with
    | Some (items, tail) => Some (array items, tail)
    | None => None
    end.
Proof. intros Hc. simpl. now rewrite Hc. Qed.

Lemma parse_value_object fuel (t : string) :
  parse_value (S fuel) (String "{" (String dquote t)) =
    match parse_members fuel (String dquote t) with
    | Some (props, tail) => Some (object props, tail)
    | None => None
    end.
Proof. reflexivity. Qed.

(** Every payload that has a writing is read back from it. *)
Lemma parse_value_encode (v : value N) : reads_back v.
Proof.
  induction v as [| |b|n|s|items IH|props IH] using value_nested_ind;
    intros p Hp fuel rest Hfuel Hrest.
  - discriminate.
  - injection Hp as <-. destruct fuel; [simpl in Hfuel; lia | reflexivity].
  - injection Hp as <-. destruct fuel; [simpl in Hfuel; lia|].
    destruct b; reflexivity.
  - simpl in Hp.
    destruct (number_finite n) eqn:Hfinite; [|discriminate]. injection Hp as <-.
    destruct fuel; [lia|].
    pose proof (Number_toString_head n Hfinite) as Hhead.
    pose proof (Number_read_toString n rest Hfinite Hrest) as Hread.
    destruct (Number_toString n) as [|c t]; [discriminate|].
    rewrite append_cons in *.
    assert (Hhead' : number_head (String c (t +:+ rest)) = true) by exact Hhead.
    apply number_head_dispatch in Hhead as (H1 & H2 & H3 & H4 & H5 & H6 & _).
    simpl parse_value. rewrite H1, H2, H3, H4, H5, H6.
    change (Ascii.eqb c "-" || is_digit c) with (number_head (String c (t +:+ rest))).
    now rewrite Hhead', Hread.
  - injection Hp as <-. destruct fuel; [lia|].
    rewrite quote_append.
    change (parse_value (S fuel) (String dquote (escape s +:+ String dquote rest)))
      with (match parse_chars (escape s +:+ String dquote rest) with
            | Some (body, tail) => Some (str body, tail)
            | None => None
            end).
    now rewrite parse_chars_escape.
  - rewrite encode_array in Hp.
    destruct (encode_elements items) as [parts|] eqn:Hparts; [|discriminate].
    injection Hp as <-. destruct fuel; [lia|].
    rewrite !append_length in Hfuel.
    change (String.length "[") with 1 in Hfuel.
    change (String.length "]") with 1 in Hfuel.
    rewrite !append_assoc.
    change ("[" +:+ join "," parts +:+ "]" +:+ rest)
      with (String "[" (join "," parts +:+ String "]" rest)).
    destruct items as [|x xs].
    + simpl in Hparts. injection Hparts as <-. reflexivity.
    + pose proof (parse_elements_encode (x :: xs) IH parts Hparts
                    ltac:(discriminate) fuel rest ltac:(lia)) as Hread.
      simpl in Hparts.
      destruct (encode x) as [part|] eqn:Hpart; [|discriminate].
      destruct (encode_elements xs) as [parts'|]; [|discriminate].
      injection Hparts as <-.
      destruct (encode_head x part Hpart) as (c & t & -> & Hc).
      destruct (join_head c t parts') as [t' Hjoin].
      rewrite Hjoin, append_cons in *.
      rewrite (parse_value_array _ _ _ Hc). now rewrite Hread.
  - rewrite encode_object in Hp.
    destruct (encode_members props) as [parts|] eqn:Hparts; [|discriminate].
    injection Hp as <-. destruct fuel; [lia|].
    rewrite !append_length in Hfuel.
    change (String.length "{") with 1 in Hfuel.
    change (String.length "}") with 1 in Hfuel.
    rewrite !append_assoc.
    change ("{" +:+ join "," parts +:+ "}" +:+ rest)
      with (String "{" (join "," parts +:+ String "}" rest)).
    destruct props as [|[k x] kvs].
    + simpl in Hparts. injection Hparts as <-. reflexivity.
    + pose proof (parse_members_encode ((k, x) :: kvs) IH parts Hparts
                    ltac:(discriminate) fuel rest ltac:(lia)) as Hread.
      simpl in Hparts.
      destruct (encode x) as [part|] eqn:Hpart; [|discriminate].
      destruct (encode_members kvs) as [parts'|]; [|discriminate].
      injection Hparts as <-.
      assert (Hmember : exists t, quote k +:+ ":" +:+ part = String dquote t).
      { unfold quote. rewrite append_cons. eauto. }
      destruct Hmember as [t Hmember]. rewrite Hmember in *.
      destruct (join_head dquote t parts') as [t' Hjoin].
      rewrite Hjoin, append_cons in *.
      rewrite parse_value_object. now rewrite Hread.
Qed.

(** A whole text decodes to the payload it was written from. *)
Lemma decode_encode (v : value N) (wire : string) :
  encode v = Some wire -> decode wire = Some v.
Proof.
  intros Hwire. unfold decode.
  pose proof (parse_value_encode v wire Hwire (S (String.length wire)) EmptyString
                ltac:(lia) eq_refl) as Hread.
  rewrite append_nil_r in Hread. now rewrite Hread.
Qed.


(** A payload has a writing exactly when it is encodable. *)
Lemma encode_encodable (v : value N) :
  match encode v with
  | Some _ => encodable v = true
  | None => encodable v = false
  end.
Proof.
  induction v as [| |b|n|s|items IH|props IH] using value_nested_ind;
    try reflexivity.
  - simpl. now destruct (number_finite n).
  - rewrite encode_array. simpl encodable.
    assert (Hitems : match encode_elements items with
                     | Some _ => forallb encodable items = true
                     | None => forallb encodable items = false
                     end).
    { induction IH as [|x xs Hx _ IHxs]; [reflexivity|]. simpl.
      destruct (encode x); rewrite Hx; [|reflexivity].
      now destruct (encode_elements xs). }
    now destruct (encode_elements items).
  - rewrite encode_object. simpl encodable.
    assert (Hprops : match encode_members props with
                     | Some _ => forallb (fun kv => encodable (snd kv)) props = true
                     | None => forallb (fun kv => encodable (snd kv)) props = false
                     end).
    { induction IH as [|kv kvs Hx _ IHkvs]; [reflexivity|]. simpl.
      destruct (encode (snd kv)); rewrite Hx; [|reflexivity].
      now destruct (encode_members kvs). }
    now destruct (encode_members props).
Qed.

Lemma read_request_command_request (e : Envelope) :
  read_request (command_request e) = Some e.
Proof. now destruct e. Qed.

(** C7: an envelope whose parameters can be serialized is written to a text
    from which deserializing gives the envelope back, identifier, name,
    channel and parameters; an envelope whose parameters cannot be
    serialized has no serialized form, [serialize] failing with
    [EncodingError]. *)
Theorem envelope_round_trip (e : Envelope) :
  match serialize e with
  | inr wire => encodable (parameters e) = true /\ deserialize wire = Some e
  | inl err => err = EncodingError /\ encodable (parameters e) = false
  end.
Proof.
  unfold serialize, deserialize.
  pose proof (encode_encodable (command_request e)) as Hable.
  assert (Hparams : encodable (command_request e) = encodable (parameters e)).
  { simpl. now rewrite andb_true_r. }
  rewrite Hparams in Hable.
  destruct (encode (command_request e)) as [wire|] eqn:Hwire.
  - split; [assumption|].
    rewrite (decode_encode _ _ Hwire). apply read_request_command_request.
  - split; [reflexivity | assumption].
Qed.

(** Reading is also faithful the other way round: a message read as an
    envelope carries that envelope's four fields. *)
Lemma read_request_fields (m : value N) (e : Envelope) :
  read_request m = Some e ->
  path m ["kind"] = str "command-request" /\
  path m ["commandId"] = str (commandId e) /\
  path m ["commandName"] = str (commandName e) /\
  path m ["channelId"] = str (channelId e) /\
  path m ["parameters"] = parameters e.
Proof.
  destruct m as [| | | | | |props]; try discriminate. simpl.
  destruct (lookup_prop "kind" props) as [| | | |kind| |]; try discriminate.
  destruct (lookup_prop "commandId" props) as [| | | |id| |]; try discriminate.
  destruct (lookup_prop "commandName" props) as [| | | |name| |]; try discriminate.
  destruct (lookup_prop "channelId" props) as [| | | |channel| |]; try discriminate.
  destruct (String.eqb kind "command-request") eqn:Ekind; try discriminate.
  apply String.eqb_eq in Ekind. subst kind.
  intros [= <-]. simpl. repeat split; reflexivity.
Qed.

End Codec.
#[global] Arguments Envelope : clear implicits.

(** *** Integers on the wire *)

(** The digits a text starts with, added to [acc], and what follows them. *)
Fixpoint read_digits (acc : N) (s : string) : N * string :=
  match s with
  | String c rest =>
      match Ascii.is_nat c with
      | Some d => read_digits (10 * acc + N.of_nat d) rest
      | None => (acc, s)
      end
  | EmptyString => (acc, s)
  end.

Definition digit_head (s : string) : bool :=
  match s with
  | String c _ => is_digit c
  | EmptyString => false
  end.

(** At least one digit. *)
Definition read_natural (s : string) : option (N * string) :=
  if digit_head s then Some (read_digits 0 s) else None.

(** An optional minus sign and at least one digit. *)
Definition read_Z (s : string) : option (Z * string) :=
  match s with
  | String c rest =>
      if Ascii.eqb c "-" then
        match read_natural rest with
        | Some (n, tail) => Some ((- Z.of_N n)%Z, tail)
        | None => None
        end
      else
        match read_natural s with
        | Some (n, tail) => Some (Z.of_N n, tail)
        | None => None
        end
  | EmptyString => None
  end.

Lemma read_digits_delimited acc (rest : string) :
  delimited rest = true -> read_digits acc rest = (acc, rest).
Proof.
  destruct rest as [|c rest]; [reflexivity|].
  destruct c as [[] [] [] [] [] [] [] []]; simpl; intros H;
    try discriminate H; reflexivity.
Qed.

Lemma is_nat_pretty_N_char (d : N) :
  (d < 10)%N -> Ascii.is_nat (pretty_N_char d) = Some (N.to_nat d).
Proof.
  intros Hd.
  assert (d = 0 \/ d = 1 \/ d = 2 \/ d = 3 \/ d = 4 \/ d = 5 \/ d = 6 \/ d = 7 \/
          d = 8 \/ d = 9)%N as Hcases by lia.
  repeat destruct Hcases as [-> | Hcases]; try reflexivity. now subst.
Qed.

Lemma pretty_N_go_append (x : N) :
  forall s rest : string, pretty_N_go x s +:+ rest = pretty_N_go x (s +:+ rest).
Proof.
  induction (N.lt_wf_0 x) as [x _ IH]. intros s rest.
  destruct (decide (x = 0%N)) as [->|Hx]; [now rewrite !pretty_N_go_0|].
  rewrite (pretty_N_go_step x s), (pretty_N_go_step x (s +:+ rest)) by lia.
  rewrite IH by (apply N.div_lt; lia). reflexivity.
Qed.

(** Reading the digits [pretty] wrote adds the number they stand for. *)
Lemma read_digits_pretty_N_go (x : N) :
  exists p : N,
    forall acc (s : string),
      read_digits acc (pretty_N_go x s) = read_digits (acc * p + x) s.
Proof.
  induction (N.lt_wf_0 x) as [x _ IH].
  destruct (decide (x = 0%N)) as [->|Hx].
  - exists 1%N. intros acc s. rewrite pretty_N_go_0. f_equal. lia.
  - destruct (IH (x `div` 10)%N) as [p Hp]; [apply N.div_lt; lia|].
    exists (10 * p)%N. intros acc s.
    rewrite pretty_N_go_step by lia. rewrite Hp. simpl.
    rewrite is_nat_pretty_N_char by (apply N.mod_lt; lia).
    f_equal. rewrite N2Nat.id.
    pose proof (N.div_mod x 10 ltac:(lia)). lia.
Qed.

Lemma digit_head_pretty_N_go (x : N) :
  forall s : string,
    (0 < x)%N \/ digit_head s = true -> digit_head (pretty_N_go x s) = true.
Proof.
  induction (N.lt_wf_0 x) as [x _ IH]. intros s Hs.
  destruct (decide (x = 0%N)) as [->|Hx].
  - rewrite pretty_N_go_0. destruct Hs as [Hs | Hs]; [lia | assumption].
  - rewrite pretty_N_go_step by lia. apply IH; [apply N.div_lt; lia|].
    right. unfold digit_head, is_digit.
    now rewrite is_nat_pretty_N_char by (apply N.mod_lt; lia).
Qed.

Lemma digit_not_minus c : is_digit c = true -> Ascii.eqb c "-" = false.
Proof. destruct c as [[] [] [] [] [] [] [] []]; simpl; intros H; try discriminate H; reflexivity. Qed.

(** A positive number as [pretty] writes it, followed by [rest], is read
    back. *)
Lemma read_natural_pretty (x : positive) (rest : string) :
  delimited rest = true ->
  digit_head (pretty_N_go (N.pos x) rest) = true /\
  read_natural (pretty_N_go (N.pos x) rest) = Some (N.pos x, rest).
Proof.
  intros Hrest.
  assert (Hhead : digit_head (pretty_N_go (N.pos x) rest) = true).
  { apply digit_head_pretty_N_go. left. lia. }
  split; [assumption|]. unfold read_natural. rewrite Hhead.
  destruct (read_digits_pretty_N_go (N.pos x)) as [p Hp].
  rewrite Hp. simpl. now rewrite read_digits_delimited.
Qed.

Lemma pretty_pos (x : positive) (rest : string) :
  pretty (N.pos x) +:+ rest = pretty_N_go (N.pos x) rest.
Proof.
  unfold pretty, pretty_N. destruct (decide (N.pos x = 0%N)); [discriminate|].
  apply pretty_N_go_append.
Qed.

Lemma read_Z_pretty (n : Z) (rest : string) :
  delimited rest = true -> read_Z (pretty n +:+ rest) = Some (n, rest).
Proof.
  intros Hrest. destruct n as [|x|x].
  - change (pretty 0%Z +:+ rest) with (String "0" rest).
    unfold read_Z, read_natural. simpl. now rewrite read_digits_delimited.
  - change (pretty (Z.pos x)) with (pretty (N.pos x)). rewrite pretty_pos.
    destruct (read_natural_pretty x rest Hrest) as [Hhead Hread].
    destruct (pretty_N_go (N.pos x) rest) as [|c t]; [discriminate|].
    unfold read_Z. rewrite (digit_not_minus c Hhead). now rewrite Hread.
  - change (pretty (Z.neg x)) with ("-" +:+ pretty (N.pos x)).
    rewrite append_assoc, pretty_pos.
    change ("-" +:+ pretty_N_go (N.pos x) rest)
      with (String "-" (pretty_N_go (N.pos x) rest)).
    destruct (read_natural_pretty x rest Hrest) as [_ Hread].
    unfold read_Z. simpl. now rewrite Hread.
Qed.

Lemma number_head_pretty (n : Z) : number_head (pretty n) = true.
Proof.
  destruct n as [|x|x]; [reflexivity| |reflexivity].
  change (pretty (Z.pos x)) with (pretty (N.pos x)).
  rewrite <- (append_nil_r (pretty (N.pos x))), pretty_pos.
  pose proof (digit_head_pretty_N_go (N.pos x) EmptyString ltac:(left; lia)) as Hhead.
  destruct (pretty_N_go (N.pos x) EmptyString) as [|c t]; [discriminate|].
  simpl in *. rewrite Hhead. apply orb_true_r.
Qed.

(** Integers are read back from their decimal writing. *)
#[export] Instance Z_reader : NumberReader Z_number := {|
  Number_read := read_Z;
  Number_read_toString := fun n rest _ Hrest => read_Z_pretty n rest Hrest;
  Number_toString_head := fun n _ => number_head_pretty n
|}.

(** A request to create a text, with a name that needs escaping. *)
Definition create_text_request : Envelope Z_number :=
  {| commandId := "c-17";
     commandName := "create_text";
     channelId := "ch-1";
     parameters :=
       object [("x", num 100%Z); ("y", num (-20)%Z);
               ("text", str ("say " +:+ String dquote ("hi" +:+ String dquote EmptyString)));
               ("tags", array [str "a"; null; boolean true; array []; object []])] |}.

Example create_text_request_round_trip :
  exists wire,
    serialize create_text_request = inr wire /\
    deserialize wire = Some create_text_request.
Proof. eexists. split; reflexivity. Qed.

(** Parameters holding [undefined] have no serialized form. *)
Example undefined_is_not_serialized :
  serialize {| commandId := "c-18"; commandName := "create_text"; channelId := "ch-1";
               parameters := object [("parentId", @undefined Z_number)] |} =
    inl EncodingError.
Proof. reflexivity. Qed.

Section Correlation.
Context {N : JsNumber}.

(** Modelled from the spec: the status of a Progress Event (section 3); the
    plugin side that emits the events is missing. *)
Inductive Status : Type := started | in_progress | completed | error.

(** Modelled from the spec: a Progress Event (section 3), with the payload
    section 4.2 resolves a call with; the plugin side that emits the events
    is missing. *)
Record ProgressEvent : Type := {
  event_id : string;
  progress : nat;
  status : Status;
  message : option string;
  payload : value N
}.

(** Modelled from the spec: a Pending Invocation (section 3), whose source is
    missing.  Its callback pair is not stored: calling one of the two is the
    [Resolved] or [Rejected] delivery below. *)
Record Pending : Type := {
  created : nat;
  deadline : option nat
}.

(** Modelled from the spec: what the Correlation Table, whose source is
    missing, is fed: a registration by the dispatcher (4.1), a message from
    the socket (section 6), the expiry of a deadline (4.2), the loss of the
    connection (4.3). *)
Inductive Input : Type :=
| Register (id : string) (p : Pending)
| Progress (ev : ProgressEvent)
| CommandResult (id : string) (success : bool) (result : value N) (errorMessage : string)
| Expire (id : string)
| Disconnect.

(** Modelled from the spec: what the Correlation Table and the Progress
    Relay, whose source is missing, hand out: a call of the success callback,
    a call of the failure callback, an event passed to the observers. *)
Inductive Delivery : Type :=
| Resolved (id : string) (result : value N)
| Rejected (id : string) (kind : ErrorKind)
| Relayed (ev : ProgressEvent).

(** Modelled from the spec: the Correlation Table and the Progress Relay of
    section 4.2, whose source is missing.  An event with status [completed]
    resolves the Pending Invocation with its payload, one with status
    [error] rejects it with the event's message, any other status goes to
    the relay only; an event for an identifier with no Pending Invocation is
    dropped silently.  A deadline that expires rejects with [Timeout]
    (section 4.2), a disconnect rejects every pending call with
    [ConnectionClosed] (section 4.3). *)
Definition step (table : gmap string Pending) (i : Input)
  : gmap string Pending * list Delivery :=
  match i with
  | Register id p => (<[id := p]> table, [])
  | Progress ev =>
      match table !! event_id ev with
      | None => (table, [])
      | Some _ =>
          match status ev with
          | completed =>
              (delete (event_id ev) table,
               [Relayed ev; Resolved (event_id ev) (payload ev)])
          | error =>
              (delete (event_id ev) table,
               [Relayed ev; Rejected (event_id ev) (RemoteError (message ev))])
          | started | in_progress => (table, [Relayed ev])
          end
      end
  | CommandResult id success result errorMessage =>
      match table !! id with
      | None => (table, [])
      | Some _ =>
          (delete id table,
           [if success then Resolved id result
            else Rejected id (RemoteError (Some errorMessage))])
      end
  | Expire id =>
      match table !! id with
      | None => (table, [])
      | Some _ => (delete id table, [Rejected id Timeout])
      end
  | Disconnect =>
      (∅, (fun kv => Rejected (fst kv) ConnectionClosed) <$> map_to_list table)
  end.

(** Modelled from the spec: the event loop of a channel (section 5), whose
    source is missing: inputs are processed one at a time, in the order
    received. *)
Fixpoint run (table : gmap string Pending) (inputs : list Input)
  : gmap string Pending * list Delivery :=
  match inputs with
  | [] => (table, [])
  | i :: rest =>
      let (table1, out1) := step table i in
      let (table2, out2) := run table1 rest in
      (table2, out1 ++ out2)
  end.

(** A terminal delivery to the caller of [id]. *)
Definition terminal_for (id : string) (d : Delivery) : bool :=
  match d with
  | Resolved id' _ | Rejected id' _ => String.eqb id' id
  | Relayed _ => false
  end.

Definition terminal_count (id : string) (out : list Delivery) : nat :=
  length (List.filter (terminal_for id) out).

Definition registers (id : string) (i : Input) : bool :=
  match i with
  | Register id' _ => String.eqb id' id
  | _ => false
  end.

Definition terminal_status (s : Status) : bool :=
  match s with
  | completed | error => true
  | started | in_progress => false
  end.

(** *** At most one terminal delivery *)

Implicit Types (table : gmap string Pending) (id : string).

Lemma terminal_count_app id (out1 out2 : list Delivery) :
  terminal_count id (out1 ++ out2) = terminal_count id out1 + terminal_count id out2.
Proof. unfold terminal_count. by rewrite List.filter_app, length_app. Qed.

(** The rejections of a disconnect that go to [id]: one per entry of the
    table under [id]. *)
Lemma terminal_count_rejections id (kvs : list (string * Pending)) :
  terminal_count id ((fun kv => Rejected (fst kv) ConnectionClosed) <$> kvs) =
    length (List.filter (fun k => String.eqb k id) kvs.*1).
Proof.
  unfold terminal_count. induction kvs as [|[k p] kvs IH]; [done|].
  simpl. destruct (String.eqb k id); simpl; [f_equal|]; exact IH.
Qed.

Lemma filter_eqb_absent id (ks : list string) :
  id ∉ ks -> List.filter (fun k => String.eqb k id) ks = [].
Proof.
  induction ks as [|k ks IH]; [done|]. intros Hnot.
  apply not_elem_of_cons in Hnot as [Hne Hnot]. simpl.
  destruct (String.eqb_spec k id) as [->|_]; [done|]. by apply IH.
Qed.

Lemma filter_eqb_NoDup id (ks : list string) :
  NoDup ks -> length (List.filter (fun k => String.eqb k id) ks) <= 1.
Proof.
  induction 1 as [|k ks Hk Hnd IH]; simpl; [lia|].
  destruct (String.eqb_spec k id) as [->|_]; [|done].
  rewrite filter_eqb_absent by done. simpl. lia.
Qed.

Lemma absent_from_keys table id :
  table !! id = None -> id ∉ (map_to_list table).*1.
Proof.
  intros Hnone [[k p] [-> Hin]]%list_elem_of_fmap.
  apply elem_of_map_to_list in Hin. simpl in Hnone. congruence.
Qed.

(** An identifier that is not pending, and is not being registered, stays
    out of the table and receives nothing. *)
Lemma step_absent table id (i : Input) :
  table !! id = None ->
  registers id i = false ->
  fst (step table i) !! id = None /\ terminal_count id (snd (step table i)) = 0.
Proof.
  intros Hnone Hreg.
  assert (Hdel : forall k, delete k table !! id = None).
  { intros k. apply lookup_delete_None. auto. }
  destruct i as [id' p|ev|id' success result msg|id'|]; simpl.
  - simpl in Hreg. apply String.eqb_neq in Hreg.
    split; [by rewrite lookup_insert_ne|done].
  - destruct (table !! event_id ev) eqn:Hev; [|done].
    assert (Hne : event_id ev <> id) by congruence.
    apply String.eqb_neq in Hne.
    destruct (status ev); simpl; unfold terminal_count; simpl; rewrite ?Hne;
      split; auto.
  - destruct (table !! id') eqn:Hid'; [|done].
    assert (Hne : id' <> id) by congruence. apply String.eqb_neq in Hne.
    simpl. split; [apply Hdel|].
    unfold terminal_count. destruct success; simpl; by rewrite Hne.
  - destruct (table !! id') eqn:Hid'; [|done].
    assert (Hne : id' <> id) by congruence. apply String.eqb_neq in Hne.
    simpl. split; [apply Hdel|].
    unfold terminal_count. simpl. by rewrite Hne.
  - split; [apply lookup_empty|].
    rewrite terminal_count_rejections, filter_eqb_absent; [done|].
    by apply absent_from_keys.
Qed.

(** One input delivers at most one terminal outcome to [id], and when it
    delivers one [id] is pending no more. *)
Lemma step_at_most_one table id (i : Input) :
  registers id i = false ->
  terminal_count id (snd (step table i)) <= 1 /\
  (terminal_count id (snd (step table i)) = 1 -> fst (step table i) !! id = None).
Proof.
  intros Hreg. destruct (table !! id) as [p|] eqn:Hid.
  2:{ destruct (step_absent table id i Hid Hreg) as [Hnone ->]. split; [lia|done]. }
  destruct i as [id' p'|ev|id' success result msg|id'|]; simpl.
  - split; [unfold terminal_count; simpl; lia | done].
  - destruct (table !! event_id ev) eqn:Hev; [|by split; [unfold terminal_count; simpl; lia|]].
    destruct (status ev); simpl; unfold terminal_count; simpl;
      destruct (String.eqb_spec (event_id ev) id) as [<-|Hne]; simpl;
      (split; [lia | try done; intros _; apply lookup_delete_eq]).
  - destruct (table !! id') eqn:Hid'; [|by split; [unfold terminal_count; simpl; lia|]].
    unfold terminal_count. destruct success; simpl;
      destruct (String.eqb_spec id' id) as [<-|Hne]; simpl;
      (split; [lia | try done; intros _; apply lookup_delete_eq]).
  - destruct (table !! id') eqn:Hid'; [|by split; [unfold terminal_count; simpl; lia|]].
    unfold terminal_count. simpl.
    destruct (String.eqb_spec id' id) as [<-|Hne]; simpl;
      (split; [lia | try done; intros _; apply lookup_delete_eq]).
  - split; [|intros _; apply lookup_empty].
    rewrite terminal_count_rejections. apply filter_eqb_NoDup, NoDup_fst_map_to_list.
Qed.

Lemma run_absent (inputs : list Input) :
  forall table id,
    table !! id = None ->
    forallb (fun i => negb (registers id i)) inputs = true ->
    terminal_count id (snd (run table inputs)) = 0.
Proof.
  induction inputs as [|i rest IH]; intros table id Hnone Hreg; [done|].
  simpl in Hreg. apply andb_true_iff in Hreg as [Hi Hrest].
  apply negb_true_iff in Hi. simpl.
  destruct (step_absent table id i Hnone Hi) as [Hnone' Hzero].
  destruct (step table i) as [table1 out1]. simpl in *.
  specialize (IH table1 id Hnone' Hrest).
  destruct (run table1 rest) as [table2 out2]. simpl in *.
  rewrite terminal_count_app. lia.
Qed.

Lemma run_at_most_one (inputs : list Input) :
  forall table id,
    forallb (fun i => negb (registers id i)) inputs = true ->
    terminal_count id (snd (run table inputs)) <= 1.
Proof.
  induction inputs as [|i rest IH]; intros table id Hreg; [simpl; unfold terminal_count; simpl; lia|].
  simpl in Hreg. apply andb_true_iff in Hreg as [Hi Hrest].
  apply negb_true_iff in Hi. simpl.
  destruct (step_at_most_one table id i Hi) as [Hle Hgone].
  pose proof (run_absent rest (fst (step table i)) id) as Habs.
  specialize (IH (fst (step table i)) id Hrest).
  destruct (step table i) as [table1 out1]. simpl in *.
  destruct (run table1 rest) as [table2 out2]. simpl in *.
  rewrite terminal_count_app.
  destruct (terminal_count id out1) as [|[|n]]; [lia| |lia].
  rewrite Habs; auto.
Qed.

(** C3: as long as [id] is not registered anew, whatever reaches the table
    (progress events, results, expiries, a disconnect, registrations of other
    calls), the caller of [id] is delivered at most one terminal outcome.
    The first [completed] or [error] event for a pending [id] resolves or
    rejects it and removes it; an event for an identifier that is not
    pending leaves the table as it is and delivers nothing; and after the
    first terminal event whatever follows delivers nothing more to [id]. *)
Theorem terminal_delivery_at_most_once table id (inputs : list Input) :
  forallb (fun i => negb (registers id i)) inputs = true ->
  terminal_count id (snd (run table inputs)) <= 1 /\
  (forall ev p,
     event_id ev = id -> table !! id = Some p -> terminal_status (status ev) = true ->
     step table (Progress ev) =
       (delete id table,
        [Relayed ev;
         match status ev with
         | error => Rejected id (RemoteError (message ev))
         | _ => Resolved id (payload ev)
         end]) /\
     terminal_count id (snd (run (delete id table) inputs)) = 0) /\
  (forall ev,
     event_id ev = id -> table !! id = None ->
     step table (Progress ev) = (table, [])).
Proof.
  intros Hreg. split; [by apply run_at_most_one|]. split.
  - intros ev p <- Hp Hterm. split.
    + simpl. rewrite Hp. by destruct (status ev).
    + apply run_absent; [apply lookup_delete_eq|done].
  - intros ev <- Hnone. simpl. by rewrite Hnone.
Qed.

End Correlation.
#[global] Arguments ProgressEvent : clear implicits.
#[global] Arguments Input : clear implicits.
#[global] Arguments Delivery : clear implicits.

(** *** A concrete run: one pending call, two [completed] events *)

Definition one_pending : gmap string Pending :=
  {[ "cmd-1" := {| created := 0; deadline := None |} ]}.

Definition event (s : Status) (pct : nat) : ProgressEvent Z_number :=
  {| event_id := "cmd-1"; progress := pct; status := s; message := None;
     payload := object [("id", str "1:1")] |}.

Definition echoes : list (Input Z_number) :=
  [Progress (event started 0); Progress (event completed 100);
   Progress (event completed 100); CommandResult "cmd-1" true null "late";
   Expire "cmd-1"].

(** The second [completed] event, the late result and the expiry all fall on
    an identifier that is pending no more. *)
Example echoes_deliver_once :
  snd (run one_pending echoes) =
    [Relayed (event started 0); Relayed (event completed 100);
     Resolved "cmd-1" (object [("id", str "1:1")])].
Proof. reflexivity. Qed.

Lemma terminal_delivery_at_most_once_witness :
  terminal_count "cmd-1" (snd (run one_pending echoes)) <= 1 /\
  (forall ev p,
     event_id ev = "cmd-1" -> one_pending !! "cmd-1" = Some p ->
     terminal_status (status ev) = true ->
     step one_pending (Progress ev) =
       (delete "cmd-1" one_pending,
        [Relayed ev;
         match status ev with
         | error => Rejected "cmd-1" (RemoteError (message ev))
         | _ => Resolved "cmd-1" (payload ev)
         end]) /\
     terminal_count "cmd-1" (snd (run (delete "cmd-1" one_pending) echoes)) = 0) /\
  (forall ev,
     event_id ev = "cmd-1" -> one_pending !! "cmd-1" = None ->
     step one_pending (Progress ev) = (one_pending, [])).
Proof.
  apply (terminal_delivery_at_most_once one_pending "cmd-1" echoes).
  reflexivity.
Defined.

End Bridge.

(** ** More on the SET_TEXT handler *)

Module TextToolsMore.
Import JS Exec Mcp TextTools.

Section Facts.
Context {N : JsNumber}.
Variable World : Type.
Variable uuidv4 : World -> string * World.
Variable figmaClient : FigmaClient World.

#[local] Abbreviation dispatch_one := (dispatch_one World uuidv4 figmaClient).
#[local] Abbreviation SET_TEXT := (SET_TEXT World uuidv4 figmaClient).
#[local] Abbreviation set_text_body := (set_text_body World uuidv4 figmaClient).

(** X1: lines 135 to 143 cannot throw, whatever the plugin answered, and never
    drop what was collected before.  What they add depends on the answer
    alone: a string [id] wins over [nodes]; an answer that is no object (a
    falsy one, a string, a number, [true], an array) adds nothing; without a
    string [id], the entries of a [nodes] array are gone through in order,
    each object among them with a string [id] adding that [id] and any other
    entry nothing; and nothing else is looked at. *)
Theorem collect_guarded (nodeIds : list string) (result : value N) :
  exists added,
    collect nodeIds result = Normal (nodeIds ++ added) /\
    (forall props s,
       result = object props -> lookup_prop "id" props = str s -> added = [s]) /\
    ((forall props, result <> object props) -> added = []) /\
    (forall props items,
       result = object props ->
       as_string (lookup_prop "id" props) = None ->
       lookup_prop "nodes" props = array items ->
       added =
         List.flat_map
           (fun node => match node with
                        | object entry =>
                            match lookup_prop "id" entry with
                            | str s => [s]
                            | _ => []
                            end
                        | _ => []
                        end) items) /\
    (forall props,
       result = object props ->
       as_string (lookup_prop "id" props) = None ->
       isArray (lookup_prop "nodes" props) = false ->
       added = []).
Proof.
  exists (result_ids result). split; [apply TextToolsFacts.collect_spec|].
  split; [|split; [|split]].
  - intros props s -> Hid. simpl. now rewrite Hid.
  - intros Hnot. destruct result; try reflexivity. now contradiction (Hnot props).
  - intros props items -> Hid Hnodes. simpl. rewrite Hnodes.
    destruct (lookup_prop "id" props); try reflexivity. discriminate.
  - intros props -> Hid Hnodes. simpl.
    destruct (lookup_prop "id" props); try discriminate;
      destruct (lookup_prop "nodes" props); try reflexivity; discriminate.
Qed.

(** X2: what a dispatched command carries (line 133): the drawn token under
    [commandId], and under every other key what the configuration has
    there. *)
Theorem params_carry_token_and_config commandId (cfg : TextSchema.SingleText N) k :
  get (make_params commandId cfg) k =
    Normal (if String.eqb k "commandId" then str commandId
            else lookup_prop k (TextSchema.props cfg)).
Proof.
  rewrite TextToolsFacts.make_params_commandId. simpl.
  destruct (String.eqb k "commandId"); reflexivity.
Qed.

(** The calls of a sequential dispatch, paired with the configurations they
    were made for. *)
Lemma sequential_calls w cfgs calls w' :
  sequential World uuidv4 figmaClient w cfgs calls w' ->
  Forall2 (fun cfg c => method c = "createText" /\
                        exists commandId, arguments c = [make_params commandId cfg])
          cfgs calls.
Proof.
  induction 1 as [|w0 commandId w1 cfg r0 w2 rest calls w3 Hu Hc Hseq IH];
    constructor; [|assumption].
  split; [reflexivity | now exists commandId].
Qed.

(** X3: the handler only ever calls [createText], with one argument; its
    calls go through the selected configurations from the first on, one call
    per configuration and in their order, each with that configuration's own
    properties, so that none is sent twice and none is skipped on the way;
    and what was in the trace before it ran is still there, in front. *)
Theorem set_text_calls_only_createText args (st : state N World) r st' :
  SET_TEXT args st = (r, st') ->
  exists calls k,
    trace st' = trace st ++ calls /\
    k <= length (default [] (TextToolsFacts.selected args)) /\
    Forall2 (fun cfg c => method c = "createText" /\
                          exists commandId, arguments c = [make_params commandId cfg])
            (take k (default [] (TextToolsFacts.selected args))) calls.
Proof.
  intros Hrun.
  destruct (TextToolsFacts.SET_TEXT_added _ _ _ _ _ _ _ Hrun) as (calls & Htr & Hsel).
  exists calls.
  destruct (TextToolsFacts.selected args) as [cfgs|]; simpl.
  - destruct Hsel as (k & Hk & Hseq & _). exists k.
    split; [assumption|]. split; [assumption|]. now apply sequential_calls in Hseq.
  - destruct Hsel as [-> _]. exists 0. split; [assumption|]. split; [lia|constructor].
Qed.

Lemma answered_with_ids (calls : list (call N)) :
  Forall (fun c => exists props s,
                     outcome c = Normal (object props) /\
                     lookup_prop "id" props = str s) calls ->
  exists ids,
    List.flat_map call_ids calls = ids /\
    length ids = length calls /\
    List.map call_ids calls = List.map (fun s => [s]) ids.
Proof.
  induction 1 as [|c calls (props & s & Hout & Hid) _ (ids & Hflat & Hlen & Hmap)].
  - exists []. auto.
  - assert (Hc : call_ids c = [s]).
    { unfold call_ids. rewrite Hout. simpl. now rewrite Hid. }
    exists (s :: ids). simpl. rewrite Hc, Hflat, Hmap, Hlen. auto.
Qed.

(** X21: when every call of a run is answered with a string [id], the content
    holds one item per configuration, in the order of the configurations,
    each the [id] its own call was answered with. *)
Theorem set_text_one_id_per_text args cfgs (st : state N World) r st' :
  TextToolsFacts.selected args = Some cfgs ->
  SET_TEXT args st = (r, st') ->
  Forall (fun c => exists props s,
                     outcome c = Normal (object props) /\
                     lookup_prop "id" props = str s)
         (drop (length (trace st)) (trace st')) ->
  exists ids,
    r = Normal {| content := List.map text_item ids; isError := None |} /\
    length ids = length cfgs /\
    List.map call_ids (drop (length (trace st)) (trace st')) =
      List.map (fun s => [s]) ids /\
    sequential World uuidv4 figmaClient (world st) cfgs
      (drop (length (trace st)) (trace st')) (world st').
Proof.
  intros Hsel Hrun Hall.
  destruct (TextToolsFacts.SET_TEXT_added _ _ _ _ _ _ _ Hrun) as (calls & Htr & Hcase).
  rewrite Htr, drop_app_length in *. rewrite Hsel in Hcase.
  destruct Hcase as (k & Hk & Hseq & [(-> & _ & ->) | (pre & p & e & -> & _ & _)]).
  - rewrite firstn_all in Hseq.
    pose proof (TextToolsFacts.sequential_length _ _ _ _ _ _ _ Hseq) as Hcount.
    destruct (answered_with_ids calls Hall) as (ids & Hflat & Hlen & Hmap).
    exists ids. rewrite Hflat. split; [reflexivity|]. split; [congruence|].
    split; assumption.
  - apply Forall_app in Hall as [_ Hlast]. inversion Hlast as [|? ? (props & s & Hout & _)].
    discriminate.
Qed.

(** X4: a result the handler returns carries [isError] exactly when there was
    nothing to create or a call was rejected; it then holds the one message
    and nothing else.  Every content item, of a failure or not, is of type
    [text].  The handler returns such a result unless its last call was
    rejected with a value that is no [Error] and has no string conversion. *)
Theorem set_text_error_flag args (st : state N World) r st' :
  SET_TEXT args st = (r, st') ->
  (exists res,
     r = Normal res /\
     (isError res = Some true <->
        TextToolsFacts.selected args = None \/
        exists c, In c (drop (length (trace st)) (trace st')) /\ succeeded c = false) /\
     (isError res <> Some true -> isError res = None) /\
     (isError res = Some true -> length (content res) = 1) /\
     Forall (fun item => type item = "text") (content res))
  \/
  (exists c v x,
     last (drop (length (trace st)) (trace st')) = Some c /\
     outcome c = Throw (Thrown v) /\
     to_String v = Throw x /\
     r = Throw x).
Proof.
  intros Hrun.
  destruct (TextToolsFacts.SET_TEXT_added _ _ _ _ _ _ _ Hrun) as (calls & Htr & Hsel).
  rewrite Htr, drop_app_length.
  assert (Herr : forall message,
             let res := {| content := [text_item message]; isError := Some true |} in
             (isError res <> Some true -> isError res = None) /\
             (isError res = Some true -> length (content res) = 1) /\
             Forall (fun item => type item = "text") (content res)).
  { intros message. simpl. split; [intros Hne; now contradiction Hne|].
    split; [reflexivity | repeat constructor]. }
  destruct (TextToolsFacts.selected args) as [cfgs|].
  - destruct Hsel as (k & _ & _ & [(_ & Hall & ->) | (pre & p & e & -> & Hall & ->)]).
    + left. exists (ids_result (List.flat_map call_ids calls)).
      split; [reflexivity|]. simpl. split; [|split; [|split]].
      * split; [discriminate|]. intros [Hnone | (c & Hin & Hfail)]; [discriminate|].
        rewrite forallb_forall in Hall. apply Hall in Hin. congruence.
      * reflexivity.
      * discriminate.
      * apply List.Forall_forall. intros item [id [<- _]]%in_map_iff. reflexivity.
    + unfold error_result, and_then.
      destruct (error_text e) as [message|x] eqn:He.
      * left. eexists. split; [reflexivity|].
        split; [|apply Herr]. simpl. split; [|reflexivity]. intros _. right.
        exists (Call "createText" [p] (Throw e)).
        split; [apply in_or_app; right; now left | reflexivity].
      * right. destruct e as [message|v]; [discriminate|]. simpl in He.
        exists (Call "createText" [p] (Throw (Thrown v))), v, x.
        split; [apply last_snoc|]. auto.
  - destruct Hsel as [-> ->]. left. eexists. split; [reflexivity|].
    split; [|apply Herr]. simpl. split; [now left | reflexivity].
Qed.

End Facts.

(** *** Concrete runs against the scripted plugin *)

Import Scenario.

#[local] Abbreviation run_SET_TEXT :=
  (TextTools.SET_TEXT Scenario.scripted Scenario.uuidv4 Scenario.client).

(** Two titles, the second of which is refused; one earlier call is already
    in the trace. *)
Definition two_titles : Args Z_number :=
  {| text := None; texts := Some [label "Title" 0 0; label "Subtitle" 0 40] |}.

Definition after_one_call : state Z_number Scenario.scripted :=
  State (script [created "9:1"; rejected "Font not available"])
        [Call "createText" [make_params "uuid-x" (label "Earlier" 5 5)] (created "9:0")].

Lemma set_text_calls_only_createText_witness :
  exists calls k,
    trace (snd (run_SET_TEXT two_titles after_one_call)) =
      trace after_one_call ++ calls /\
    k <= length (default [] (TextToolsFacts.selected two_titles)) /\
    Forall2 (fun cfg c => method c = "createText" /\
                          exists commandId, arguments c = [make_params commandId cfg])
            (take k (default [] (TextToolsFacts.selected two_titles))) calls.
Proof.
  apply (set_text_calls_only_createText Scenario.scripted Scenario.uuidv4 Scenario.client
           two_titles after_one_call
           (fst (run_SET_TEXT two_titles after_one_call))
           (snd (run_SET_TEXT two_titles after_one_call))).
  reflexivity.
Defined.

Lemma set_text_error_flag_witness :
  (exists res,
     fst (run_SET_TEXT two_titles after_one_call) = Normal res /\
     (isError res = Some true <->
        TextToolsFacts.selected two_titles = None \/
        exists c,
          In c (drop (length (trace after_one_call))
                  (trace (snd (run_SET_TEXT two_titles after_one_call)))) /\
          succeeded c = false) /\
     (isError res <> Some true -> isError res = None) /\
     (isError res = Some true -> length (content res) = 1) /\
     Forall (fun item => type item = "text") (content res))
  \/
  (exists c v x,
     last (drop (length (trace after_one_call))
             (trace (snd (run_SET_TEXT two_titles after_one_call)))) = Some c /\
     outcome c = Throw (Thrown v) /\
     to_String v = Throw x /\
     fst (run_SET_TEXT two_titles after_one_call) = Throw x).
Proof.
  apply (set_text_error_flag Scenario.scripted Scenario.uuidv4 Scenario.client
           two_titles after_one_call
           (fst (run_SET_TEXT two_titles after_one_call))
           (snd (run_SET_TEXT two_titles after_one_call))).
  reflexivity.
Defined.

Definition both_created : state Z_number Scenario.scripted :=
  State (script [created "9:1"; created "9:2"])
        [Call "createText" [make_params "uuid-x" (label "Earlier" 5 5)] (created "9:0")].

Lemma set_text_one_id_per_text_witness :
  exists ids,
    fst (run_SET_TEXT two_titles both_created) =
      Normal {| content := List.map text_item ids; isError := None |} /\
    length ids = length [label "Title" 0 0; label "Subtitle" 0 40] /\
    List.map call_ids (drop (length (trace both_created))
                         (trace (snd (run_SET_TEXT two_titles both_created)))) =
      List.map (fun s => [s]) ids /\
    sequential Scenario.scripted Scenario.uuidv4 Scenario.client
      (world both_created) [label "Title" 0 0; label "Subtitle" 0 40]
      (drop (length (trace both_created))
         (trace (snd (run_SET_TEXT two_titles both_created))))
      (world (snd (run_SET_TEXT two_titles both_created))).
Proof.
  apply (set_text_one_id_per_text Scenario.scripted Scenario.uuidv4 Scenario.client
           two_titles [label "Title" 0 0; label "Subtitle" 0 40] both_created
           (fst (run_SET_TEXT two_titles both_created))
           (snd (run_SET_TEXT two_titles both_created))).
  - reflexivity.
  - reflexivity.
  - repeat constructor; eexists _, _; split; reflexivity.
Defined.

(** The earlier call stays in front, and the refusal is all that is
    returned. *)
Example set_text_after_one_call :
  List.map outcome (trace (snd (run_SET_TEXT two_titles after_one_call))) =
    [created "9:0"; created "9:1"; rejected "Font not available"] /\
  fst (run_SET_TEXT two_titles after_one_call) =
    Normal {| content := [text_item "Font not available"]; isError := Some true |}.
Proof. split; reflexivity. Qed.

End TextToolsMore.

(** ** More on the GET_CSS_ASYNC handler *)

Module CssToolsMore.
Import JS Exec Mcp CssTools.

Section Facts.
Context {N : JsNumber}.
Variable World : Type.
Variable figmaClient : FigmaClient World.
Variable GET_CSS_ASYNC_name : string.

#[local] Abbreviation GET_CSS_ASYNC := (GET_CSS_ASYNC World figmaClient GET_CSS_ASYNC_name).

(** What line 43 adds to the parameters. *)
Definition format_props (args : Args N) : list (string * value N) :=
  if defined (format args) then [("format", format args)] else [].

Lemma build_params_spec helper (args : Args N) :
  build_params helper args =
    if defined (nodeId args)
    then match helper (nodeId args) with
         | Normal id => Normal (("nodeId", id) :: format_props args)
         | Throw e => Throw e
         end
    else Normal (format_props args).
Proof.
  unfold build_params, format_props, and_then.
  destruct (defined (nodeId args)).
  - destruct (helper (nodeId args)) as [id|e]; [|reflexivity]. simpl.
    destruct (defined (format args)); reflexivity.
  - destruct (defined (format args)); reflexivity.
Qed.

(** The one call a run makes once the parameters are built. *)
Lemma GET_CSS_ASYNC_call helper (args : Args N) (st : state N World) params :
  build_params helper args = Normal params ->
  snd (GET_CSS_ASYNC helper args st) =
    State (snd (executeCommand figmaClient GET_CSS_ASYNC_name (object params) (world st)))
          (trace st ++
           [Call "executeCommand" [str GET_CSS_ASYNC_name; object params]
              (fst (executeCommand figmaClient GET_CSS_ASYNC_name (object params)
                      (world st)))]) /\
  fst (GET_CSS_ASYNC helper args st) =
    match fst (executeCommand figmaClient GET_CSS_ASYNC_name (object params)
                 (world st)) with
    | Normal result => Normal (json_result (success_response result))
    | Throw e => failure_result args e
    end.
Proof.
  intros Hparams.
  pose proof (CssToolsFacts.GET_CSS_ASYNC_run World figmaClient GET_CSS_ASYNC_name
                helper args st) as Hrun.
  rewrite Hparams in Hrun. destruct Hrun as (r & w' & -> & ->). split; reflexivity.
Qed.

(** X5: without a [nodeId] the helper of line 42 is not consulted: the run is
    the same whatever that helper would do, and the command is sent the
    [format] alone, or an empty object when that is absent too. *)
Theorem get_css_without_nodeId helper (args : Args N) (st : state N World) :
  nodeId args = undefined ->
  GET_CSS_ASYNC helper args st = GET_CSS_ASYNC (fun v => Normal v) args st /\
  List.map arguments (drop (length (trace st)) (trace (snd (GET_CSS_ASYNC helper args st)))) =
    [[str GET_CSS_ASYNC_name; object (format_props args)]].
Proof.
  intros Hid.
  assert (Hp : forall h, build_params h args = Normal (format_props args)).
  { intros h. rewrite build_params_spec, Hid. reflexivity. }
  destruct (GET_CSS_ASYNC_call helper args st _ (Hp helper)) as [Hsnd Hfst].
  destruct (GET_CSS_ASYNC_call (fun v => Normal v) args st _ (Hp _)) as [Hsnd' Hfst'].
  split.
  - rewrite (surjective_pairing (GET_CSS_ASYNC helper args st)).
    rewrite (surjective_pairing (GET_CSS_ASYNC (fun v => Normal v) args st)).
    now rewrite Hsnd, Hfst, Hsnd', Hfst'.
  - rewrite Hsnd. simpl. now rewrite drop_app_length.
Qed.

(** The failure text for [message], and what it holds. *)
Definition refused_with (args : Args N) (message : string) (r : completion N ToolResult)
  : Prop :=
  r = Normal (json_result (failure_response args message)) /\
  path (failure_response args message) ["error"; "message"] = str message /\
  path (failure_response args message) ["error"; "meta"; "params"; "nodeId"] = nodeId args.

(** X6: when the helper refuses the [nodeId], no command is sent and the world
    is left alone: the failure text, carrying the helper's message and the
    arguments as they were given, is all that happens; and when what the
    helper threw has no string conversion, the TypeError of that conversion
    is. *)
Theorem get_css_nodeId_refused helper (args : Args N) (st : state N World) e :
  defined (nodeId args) = true ->
  helper (nodeId args) = Throw e ->
  snd (GET_CSS_ASYNC helper args st) = st /\
  match e with
  | ErrorObject message => refused_with args message (fst (GET_CSS_ASYNC helper args st))
  | Thrown v =>
      match to_String v with
      | Normal message => refused_with args message (fst (GET_CSS_ASYNC helper args st))
      | Throw x => fst (GET_CSS_ASYNC helper args st) = Throw x
      end
  end.
Proof.
  intros Hdef Hthrow.
  pose proof (CssToolsFacts.GET_CSS_ASYNC_run World figmaClient GET_CSS_ASYNC_name
                helper args st) as Hrun.
  rewrite build_params_spec, Hdef, Hthrow in Hrun. rewrite Hrun. simpl.
  split; [reflexivity|]. unfold failure_result, refused_with.
  destruct e as [message|v]; simpl.
  - repeat split.
  - destruct (to_String v); simpl; [repeat split | reflexivity].
Qed.

(** X7: what is sent under [nodeId] is what the helper made of the argument, not
    the argument; [format] goes unchanged, after it; and a [null] counts as
    given, for either key. *)
Theorem get_css_params_sent helper (args : Args N) (st : state N World) id :
  defined (nodeId args) = true ->
  helper (nodeId args) = Normal id ->
  List.map arguments (drop (length (trace st)) (trace (snd (GET_CSS_ASYNC helper args st)))) =
    [[str GET_CSS_ASYNC_name;
      object (("nodeId", id) ::
              match format args with
              | undefined => []
              | given => [("format", given)]
              end)]].
Proof.
  intros Hdef Hid.
  assert (Hp : build_params helper args = Normal (("nodeId", id) :: format_props args)).
  { now rewrite build_params_spec, Hdef, Hid. }
  destruct (GET_CSS_ASYNC_call helper args st _ Hp) as [Hsnd _].
  rewrite Hsnd. simpl. rewrite drop_app_length. unfold format_props.
  destruct (format args); reflexivity.
Qed.

End Facts.

(** *** Concrete runs against the scripted plugin *)

Import Scenario.

#[local] Abbreviation run_GET_CSS helper :=
  (CssTools.GET_CSS_ASYNC Scenario.scripted Scenario.client "get_css_async" helper).

(** A helper that accepts identifiers written as strings and turns a number
    into its decimal writing. *)
Definition to_id (v : value Z_number) : completion Z_number (value Z_number) :=
  match v with
  | str s => Normal (str s)
  | num n => Normal (str (pretty n))
  | _ => Throw (ErrorObject "Node ID must be a string")
  end.

Definition css_ready : state Z_number Scenario.scripted :=
  State (script [Normal (array [object [("color", str "red")]])]) [].

Lemma get_css_without_nodeId_witness :
  run_GET_CSS to_id {| nodeId := undefined; format := str "inline" |} css_ready =
    run_GET_CSS (fun v => Normal v) {| nodeId := undefined; format := str "inline" |}
      css_ready /\
  List.map arguments
    (drop (length (trace css_ready))
       (trace (snd (run_GET_CSS to_id {| nodeId := undefined; format := str "inline" |}
                      css_ready)))) =
    [[str "get_css_async";
      object (format_props {| nodeId := undefined; format := str "inline" |})]].
Proof.
  apply (get_css_without_nodeId Scenario.scripted Scenario.client "get_css_async"
           to_id {| nodeId := undefined; format := str "inline" |} css_ready).
  reflexivity.
Defined.

Lemma get_css_nodeId_refused_witness :
  snd (run_GET_CSS to_id {| nodeId := null; format := undefined |} css_ready) = css_ready /\
  refused_with {| nodeId := null; format := undefined |} "Node ID must be a string"
    (fst (run_GET_CSS to_id {| nodeId := null; format := undefined |} css_ready)).
Proof.
  apply (get_css_nodeId_refused Scenario.scripted Scenario.client "get_css_async"
           to_id {| nodeId := null; format := undefined |} css_ready
           (ErrorObject "Node ID must be a string")).
  - reflexivity.
  - reflexivity.
Defined.

Lemma get_css_params_sent_witness :
  List.map arguments
    (drop (length (trace css_ready))
       (trace (snd (run_GET_CSS to_id {| nodeId := @num Z_number 42%Z; format := null |} css_ready)))) =
    [[str "get_css_async"; object [("nodeId", str "42"); ("format", null)]]].
Proof.
  apply (get_css_params_sent Scenario.scripted Scenario.client "get_css_async"
           to_id {| nodeId := @num Z_number 42%Z; format := null |} css_ready (str "42")).
  - reflexivity.
  - reflexivity.
Defined.

End CssToolsMore.

(** ** document-duplicate.js: duplicating a page *)

Module DocumentDuplicate.
Import JS Exec.

Section Plugin.
Context {N : JsNumber}.
Variable World : Type.
(** [figma.getNodeByIdAsync] of the plugin API, and [createPage] and
    [clone_node] of the plugin's other modules: each takes one argument and
    the state of the document, and returns how its promise settles. *)
Variable getNodeByIdAsync : value N -> World -> completion N (value N) * World.
Variable createPage : value N -> World -> completion N (value N) * World.
Variable clone_node : value N -> World -> completion N (value N) * World.

(** [v === s] for a string literal [s]. *)
Definition is_string (v : value N) (s : string) : bool :=
  match v with
  | str s' => String.eqb s' s
  | _ => false
  end.

Fixpoint characters (s : string) : list (value N) :=
  match s with
  | EmptyString => []
  | String c rest => str (String c EmptyString) :: characters rest
  end.

(** What [for (const x of v)] and [...v] go through: the items of an array,
    the characters of a string (one per code unit here), and a TypeError for
    anything else of plain data. *)
Definition iterate (v : value N) : completion N (list (value N)) :=
  match v with
  | array items => Normal items
  | str s => Normal (characters s)
  | _ => Throw (ErrorObject (typeof v +:+ " is not iterable"))
  end.

(** [const { k } = v]: a TypeError on [undefined] and [null], a property read
    otherwise. *)
Definition destructure (v : value N) (k : string) : completion N (value N) :=
  match v with
  | undefined =>
      Throw (ErrorObject ("Cannot destructure property '" +:+ k
                          +:+ "' of 'undefined' as it is undefined."))
  | null =>
      Throw (ErrorObject ("Cannot destructure property '" +:+ k
                          +:+ "' of 'null' as it is null."))
  | _ => get v k
  end.

(** Line 11: [!originalPage || originalPage.type !== 'PAGE']. *)
Definition not_a_page (originalPage : value N) : completion N bool :=
  if negb (truthy originalPage) then Normal true
  else (type <- get originalPage "type" ;;
        Normal (negb (is_string type "PAGE")))%completion.

(** Line 13: [newPageName || (originalPage.name + ' (Copy)')]. *)
Definition page_name (newPageName originalPage : value N) : completion N (value N) :=
  if truthy newPageName then Normal newPageName
  else (name <- get originalPage "name" ;;
        text <- to_String name ;;
        Normal (str (text +:+ " (Copy)")))%completion.

(** The body of the loop, lines 19 to 23. *)
Definition clone_child (newPageNode : value N) (clonedIds : list (value N))
    (child : value N) : exec N World (list (value N)) :=
  (nodeId <- lift (get child "id") ;;
   parentId <- lift (get newPageNode "id") ;;
   let params := object [("nodeId", nodeId); ("parentId", parentId)] in
   result <- await "clone_node" [params] (clone_node params) ;;
   newNodeIds <- lift (destructure result "newNodeIds") ;;
   pushed <- lift (iterate newNodeIds) ;;
   ret (clonedIds ++ pushed))%exec.

(** Lines 17 to 25, once the new page has been read back. *)
Definition clone_children (originalPage newPageNode : value N) : exec N World (value N) :=
  (children <- lift (get originalPage "children") ;;
   items <- lift (iterate children) ;;
   clonedIds <- for_of items [] (clone_child newPageNode) ;;
   newPageId <- lift (get newPageNode "id") ;;
   newPageName <- lift (get newPageNode "name") ;;
   ret (object [("newPageId", newPageId); ("newPageName", newPageName);
               ("clonedIds", array clonedIds)]))%exec.

(** Lines 13 to 25, once the original page has been found. *)
Definition copy_page (newPageName originalPage : value N) : exec N World (value N) :=
  (name <- lift (page_name newPageName originalPage) ;;
   newPageInfo <- await "createPage" [name] (createPage name) ;;
   id <- lift (get newPageInfo "id") ;;
   newPageNode <- await "figma.getNodeByIdAsync" [id] (getNodeByIdAsync id) ;;
   if negb (truthy newPageNode)
   then throw (ErrorObject "Failed to create new page")
   else clone_children originalPage newPageNode)%exec.

(** [duplicatePage({ pageId, newPageName })], lines 8 to 26, on the two
    properties of its argument; one that is absent is [undefined]. *)
Definition duplicatePage (pageId newPageName : value N) : exec N World (value N) :=
  if negb (truthy pageId)
  then throw (ErrorObject "Missing pageId parameter")
  else
    (originalPage <- await "figma.getNodeByIdAsync" [pageId] (getNodeByIdAsync pageId) ;;
     invalid <- lift (not_a_page originalPage) ;;
     if (invalid : bool)
     then throw (ErrorObject "Invalid page ID")
     else copy_page newPageName originalPage)%exec.

(** [duplicatePageUnified(params)], lines 35 to 37: the argument is taken
    apart by the parameter pattern of [duplicatePage]. *)
Definition duplicatePageUnified (params : value N) : exec N World (value N) :=
  (pageId <- lift (destructure params "pageId") ;;
   newPageName <- lift (destructure params "newPageName") ;;
   duplicatePage pageId newPageName)%exec.

(** *** Reading the trace *)

(** The arguments [clone_node] is called with for [child]. *)
Definition clone_params (newPageNode child : value N) : value N :=
  object [("nodeId", path child ["id"]); ("parentId", path newPageNode ["id"])].

(** What a settled [clone_node] call adds to [clonedIds], lines 19 and 23. *)
Definition pushed_by (c : call N) : completion N (list (value N)) :=
  match outcome c with
  | Normal result =>
      (newNodeIds <- destructure result "newNodeIds" ;; iterate newNodeIds)%completion
  | Throw e => Throw e
  end.

Definition rejected (c : call N) : bool :=
  match outcome c with
  | Normal _ => false
  | Throw _ => true
  end.

End Plugin.

End DocumentDuplicate.

(** ** A rejected call ends a computation

    Outside a [try], nothing is called after a call that was rejected, and
    what the computation throws is that call's error.  The combinators of
    [exec] keep this, so every computation built from them without
    [try_catch] has it. *)

Module Discipline.
Import JS Exec.

Section Facts.
Context {N : JsNumber}.
Variable World : Type.

(** [calls] were made and the computation completed with [r]: a rejected
    call among them is the last one, and [r] throws its error. *)
Definition stops_at_rejection {A} (calls : list (call N)) (r : completion N A) : Prop :=
  forall c e,
    In c calls -> outcome c = Throw e -> r = Throw e /\ last calls = Some c.

(** Whatever the state it starts in, [m] only appends to the trace, and
    what it appends stops at a rejection. *)
Definition disciplined {A} (m : exec N World A) : Prop :=
  forall st,
    exists calls,
      trace (snd (m st)) = trace st ++ calls /\
      stops_at_rejection calls (fst (m st)).

Lemma stops_nil {A} (r : completion N A) : stops_at_rejection [] r.
Proof. intros c e []. Qed.

Lemma stops_app {A B} calls1 calls2 (a : A) (r : completion N B) :
  stops_at_rejection calls1 (Normal a) ->
  stops_at_rejection calls2 r ->
  stops_at_rejection (calls1 ++ calls2) r.
Proof.
  intros H1 H2 c e Hin Hout. apply in_app_or in Hin as [Hin | Hin].
  - destruct (H1 c e Hin Hout) as [Habs _]. discriminate.
  - destruct (H2 c e Hin Hout) as [-> Hlast]. split; [reflexivity|].
    destruct calls2 as [|c2 rest]; [destruct Hin|].
    rewrite last_app. now rewrite Hlast.
Qed.

Lemma disciplined_ret {A} (a : A) : disciplined (ret a).
Proof. intros st. exists []. simpl. rewrite app_nil_r. split; [reflexivity | apply stops_nil]. Qed.

Lemma disciplined_throw {A} (e : exn N) : disciplined (throw (A := A) e).
Proof. intros st. exists []. simpl. rewrite app_nil_r. split; [reflexivity | apply stops_nil]. Qed.

Lemma disciplined_lift {A} (c : completion N A) : disciplined (lift c).
Proof. intros st. exists []. simpl. rewrite app_nil_r. split; [reflexivity | apply stops_nil]. Qed.

Lemma disciplined_draw {A} (f : World -> A * World) : disciplined (draw f).
Proof.
  intros st. exists []. unfold draw. destruct (f (world st)). simpl.
  rewrite app_nil_r. split; [reflexivity | apply stops_nil].
Qed.

Lemma disciplined_await name args f : disciplined (await name args f).
Proof.
  intros st. unfold await. destruct (f (world st)) as [r w] eqn:Ef.
  exists [Call name args r]. simpl. split; [reflexivity|].
  intros c e [<- | []] Hout. simpl in Hout. subst r. split; reflexivity.
Qed.

Lemma disciplined_bind {A B} (m : exec N World A) (k : A -> exec N World B) :
  disciplined m -> (forall a, disciplined (k a)) -> disciplined (bind m k).
Proof.
  intros Hm Hk st. unfold bind.
  destruct (Hm st) as (calls1 & Htr1 & Hstop1).
  destruct (m st) as [[a|e] st1]; simpl in *.
  - destruct (Hk a st1) as (calls2 & Htr2 & Hstop2).
    exists (calls1 ++ calls2). split.
    + now rewrite Htr2, Htr1, <- app_assoc.
    + eapply stops_app; eauto.
  - exists calls1. split; [assumption|].
    intros c e' Hin Hout. destruct (Hstop1 c e' Hin Hout) as [[= ->] Hlast]. auto.
Qed.

Lemma disciplined_if {A} (b : bool) (m1 m2 : exec N World A) :
  disciplined m1 -> disciplined m2 -> disciplined (if b then m1 else m2).
Proof. destruct b; auto. Qed.

Lemma disciplined_for_of {A Acc} (body : Acc -> A -> exec N World Acc) (xs : list A) :
  (forall acc x, disciplined (body acc x)) ->
  forall acc, disciplined (for_of xs acc body).
Proof.
  intros Hbody. induction xs as [|x rest IH]; intros acc; simpl.
  - apply disciplined_ret.
  - apply disciplined_bind; auto.
Qed.

End Facts.

Create HintDb discipline.
#[global] Hint Resolve disciplined_ret disciplined_throw disciplined_lift
  disciplined_draw disciplined_await disciplined_bind disciplined_if
  disciplined_for_of : discipline.

End Discipline.

(** ** Properties of duplicatePage *)

Module DocumentDuplicateFacts.
Import JS Exec DocumentDuplicate Discipline.

Section Facts.
Context {N : JsNumber}.
Variable World : Type.
Variable getNodeByIdAsync : value N -> World -> completion N (value N) * World.
Variable createPage : value N -> World -> completion N (value N) * World.
Variable clone_node : value N -> World -> completion N (value N) * World.

#[local] Abbreviation duplicatePage :=
  (duplicatePage World getNodeByIdAsync createPage clone_node).
#[local] Abbreviation copy_page :=
  (copy_page World getNodeByIdAsync createPage clone_node).
#[local] Abbreviation clone_children := (clone_children World clone_node).
#[local] Abbreviation clone_child := (clone_child World clone_node).

(** A property read that did not throw read [path]. *)
Lemma get_Normal (v x : value N) k : get v k = Normal x -> x = path v [k].
Proof. destruct v; simpl; intros [= <-] || discriminate; reflexivity. Qed.

Lemma get_truthy (v : value N) k : truthy v = true -> get v k = Normal (path v [k]).
Proof. destruct v; simpl; try discriminate; reflexivity. Qed.

Lemma is_string_true (v : value N) s : is_string v s = true <-> v = str s.
Proof.
  destruct v; simpl; split; try discriminate.
  - intros E. apply String.eqb_eq in E. now subst.
  - intros [= ->]. apply String.eqb_refl.
Qed.

Lemma clone_child_disciplined node acc child :
  disciplined World (clone_child node acc child).
Proof.
  unfold DocumentDuplicate.clone_child. auto 12 with discipline.
Qed.

Lemma clone_children_disciplined page node :
  disciplined World (clone_children page node).
Proof.
  unfold DocumentDuplicate.clone_children.
  apply disciplined_bind; [apply disciplined_lift|]. intros children.
  apply disciplined_bind; [apply disciplined_lift|]. intros items.
  apply disciplined_bind.
  - apply disciplined_for_of. intros acc child. apply clone_child_disciplined.
  - intros clonedIds.
    repeat (apply disciplined_bind; [apply disciplined_lift|intros ?]).
    apply disciplined_ret.
Qed.

(** What follows [createPage] in [copy_page]. *)
Definition after_createPage (originalPage newPageInfo : value N) : exec N World (value N) :=
  (id <- lift (get newPageInfo "id") ;;
   newPageNode <- await "figma.getNodeByIdAsync" [id] (getNodeByIdAsync id) ;;
   if negb (truthy newPageNode)
   then throw (ErrorObject "Failed to create new page")
   else clone_children originalPage newPageNode)%exec.

Lemma after_createPage_disciplined page info :
  disciplined World (after_createPage page info).
Proof.
  unfold after_createPage.
  apply disciplined_bind; [apply disciplined_lift|]. intros id.
  apply disciplined_bind; [apply disciplined_await|]. intros newPageNode.
  apply disciplined_if; [apply disciplined_throw | apply clone_children_disciplined].
Qed.

Lemma copy_page_disciplined newPageName page :
  disciplined World (copy_page newPageName page).
Proof.
  unfold DocumentDuplicate.copy_page.
  apply disciplined_bind; [apply disciplined_lift|]. intros name.
  apply disciplined_bind; [apply disciplined_await|]. intros newPageInfo.
  apply (after_createPage_disciplined page newPageInfo).
Qed.

Lemma duplicatePage_disciplined pageId newPageName :
  disciplined World (duplicatePage pageId newPageName).
Proof.
  unfold DocumentDuplicate.duplicatePage.
  apply disciplined_if; [apply disciplined_throw|].
  apply disciplined_bind; [apply disciplined_await|]. intros originalPage.
  apply disciplined_bind; [apply disciplined_lift|]. intros invalid.
  apply disciplined_if; [apply disciplined_throw | apply copy_page_disciplined].
Qed.

(** X8: nothing in [duplicatePage] is called after a rejected call, and the
    rejection is what it throws: there is no [catch] in it, so a page that
    was created stays when a later clone fails, and the children after the
    failing one are not cloned. *)
Theorem duplicatePage_stops_at_rejection (pageId newPageName : value N)
    (st : state N World) :
  exists calls,
    trace (snd (duplicatePage pageId newPageName st)) = trace st ++ calls /\
    forall c e,
      In c calls -> outcome c = Throw e ->
      fst (duplicatePage pageId newPageName st) = Throw e /\ last calls = Some c.
Proof. exact (duplicatePage_disciplined pageId newPageName st). Qed.

(** X9: a falsy [pageId] (absent, [null], the empty string) is refused before
    anything is looked up. *)
Theorem duplicatePage_missing_pageId (pageId newPageName : value N)
    (st : state N World) :
  truthy pageId = false ->
  duplicatePage pageId newPageName st =
    (Throw (ErrorObject "Missing pageId parameter"), st).
Proof. intros H. unfold DocumentDuplicate.duplicatePage. now rewrite H. Qed.

(** X10: when what [pageId] names is nothing, or not a page, the one lookup is
    all that is called: no page is created. *)
Theorem duplicatePage_invalid_page (pageId newPageName found : value N)
    (st : state N World) w :
  truthy pageId = true ->
  getNodeByIdAsync pageId (world st) = (Normal found, w) ->
  truthy found = false \/ path found ["type"] <> str "PAGE" ->
  duplicatePage pageId newPageName st =
    (Throw (ErrorObject "Invalid page ID"),
     State w (trace st ++ [Call "figma.getNodeByIdAsync" [pageId] (Normal found)])).
Proof.
  intros Hid Hfound Hbad.
  unfold DocumentDuplicate.duplicatePage. rewrite Hid. simpl.
  unfold bind at 1. unfold await. rewrite Hfound.
  unfold bind, lift.
  assert (Hnot : not_a_page found = Normal true).
  { unfold not_a_page. destruct (truthy found) eqn:Ht; [|reflexivity]. simpl.
    destruct Hbad as [Hf | Htype]; [discriminate|].
    rewrite (get_truthy _ _ Ht). unfold and_then. f_equal.
    destruct (is_string (path found ["type"]) "PAGE") eqn:E; [|reflexivity].
    apply is_string_true in E. now contradiction Htype. }
  now rewrite Hnot.
Qed.

(** A found page passes line 11. *)
Lemma not_a_page_PAGE (page : value N) :
  truthy page = true -> path page ["type"] = str "PAGE" ->
  not_a_page page = Normal false.
Proof.
  intros Ht Htype. unfold not_a_page. rewrite Ht. simpl.
  rewrite (get_truthy _ _ Ht). unfold and_then. rewrite Htype. reflexivity.
Qed.

Lemma not_a_page_false (page : value N) :
  not_a_page page = Normal false ->
  truthy page = true /\ path page ["type"] = str "PAGE".
Proof.
  unfold not_a_page. destruct (truthy page) eqn:Ht; simpl; [|discriminate].
  rewrite (get_truthy _ _ Ht). unfold and_then. intros [= E].
  apply negb_false_iff, is_string_true in E. auto.
Qed.

(** The name asked of [createPage], line 13. *)
Definition requested_name (newPageName page : value N) : completion N (value N) :=
  if truthy newPageName then Normal newPageName
  else (text <- to_String (path page ["name"]) ;;
        Normal (str (text +:+ " (Copy)")))%completion.

Lemma page_name_spec newPageName (page : value N) :
  truthy page = true ->
  page_name newPageName page = requested_name newPageName page.
Proof.
  intros Ht. unfold page_name, requested_name.
  destruct (truthy newPageName); [reflexivity|].
  now rewrite (get_truthy _ _ Ht).
Qed.

(** X11: once a page is found, [createPage] is the very next call, asked for the
    given name when that is truthy and for the original's name followed by
    " (Copy)" otherwise: an empty [newPageName] counts as none.  When the
    original's name is needed and has no string conversion, the TypeError of
    that conversion is thrown and nothing more is called. *)
Theorem duplicatePage_requested_name (pageId newPageName page : value N)
    (st : state N World) w :
  truthy pageId = true ->
  getNodeByIdAsync pageId (world st) = (Normal page, w) ->
  truthy page = true ->
  path page ["type"] = str "PAGE" ->
  match (if truthy newPageName then Normal newPageName
         else match to_String (path page ["name"]) with
              | Normal text => Normal (str (text +:+ " (Copy)"))
              | Throw e => Throw e
              end) with
  | Normal name =>
      exists rest,
        trace (snd (duplicatePage pageId newPageName st)) =
          trace st ++
          Call "figma.getNodeByIdAsync" [pageId] (Normal page) ::
          Call "createPage" [name] (fst (createPage name w)) :: rest
  | Throw e =>
      duplicatePage pageId newPageName st =
        (Throw e,
         State w (trace st ++ [Call "figma.getNodeByIdAsync" [pageId] (Normal page)]))
  end.
Proof.
  intros Hid Hfound Ht Htype.
  change (if truthy newPageName then Normal newPageName
          else match to_String (path page ["name"]) with
               | Normal text => Normal (str (text +:+ " (Copy)"))
               | Throw e => Throw e
               end) with (requested_name newPageName page).
  assert (Hrun : duplicatePage pageId newPageName st =
            match requested_name newPageName page with
            | Normal name =>
                bind (await "createPage" [name] (createPage name)) (after_createPage page)
                  (State w (trace st ++
                            [Call "figma.getNodeByIdAsync" [pageId] (Normal page)]))
            | Throw e =>
                (Throw e,
                 State w (trace st ++
                          [Call "figma.getNodeByIdAsync" [pageId] (Normal page)]))
            end).
  { unfold DocumentDuplicate.duplicatePage. rewrite Hid. simpl.
    unfold bind at 1. unfold await at 1. rewrite Hfound.
    unfold bind at 1. unfold lift at 1. rewrite (not_a_page_PAGE _ Ht Htype).
    unfold DocumentDuplicate.copy_page.
    unfold bind at 1. unfold lift at 1. rewrite (page_name_spec _ _ Ht).
    destruct (requested_name newPageName page); reflexivity. }
  rewrite Hrun. clear Hrun.
  destruct (requested_name newPageName page) as [name|e]; [|reflexivity].
  unfold bind, await. simpl.
  destruct (createPage name w) as [[info|e] w2]; simpl.
  - destruct (after_createPage_disciplined page info
                (State w2 ((trace st ++
                            [Call "figma.getNodeByIdAsync" [pageId] (Normal page)]) ++
                           [Call "createPage" [name] (Normal info)])))
      as (rest & Htr & _).
    exists rest. rewrite Htr. simpl. now rewrite <- !app_assoc.
  - exists []. now rewrite <- app_assoc.
Qed.

#[local] Arguments path : simpl never.

(** One turn of the loop of lines 18 to 24. *)
Lemma clone_child_run node acc child (st : state N World) :
  truthy node = true ->
  match get child "id" with
  | Throw e => clone_child node acc child st = (Throw e, st)
  | Normal _ =>
      exists r w,
        clone_node (clone_params node child) (world st) = (r, w) /\
        clone_child node acc child st =
          (match pushed_by (Call "clone_node" [clone_params node child] r) with
           | Normal pushed => Normal (acc ++ pushed)
           | Throw e => Throw e
           end,
           State w (trace st ++ [Call "clone_node" [clone_params node child] r]))
  end.
Proof.
  intros Ht. unfold DocumentDuplicate.clone_child, bind, lift, await, ret.
  destruct (get child "id") as [nodeId|e] eqn:Hid; [|reflexivity].
  apply get_Normal in Hid. subst nodeId.
  rewrite (get_truthy _ _ Ht).
  change (object [("nodeId", path child ["id"]); ("parentId", path node ["id"])])
    with (clone_params node child).
  destruct (clone_node (clone_params node child) (world st)) as [r w] eqn:Hc.
  exists r, w. split; [reflexivity|].
  unfold pushed_by. simpl. destruct r as [result|e]; [|reflexivity].
  unfold and_then.
  destruct (destructure result "newNodeIds") as [ids|e]; [|reflexivity].
  destruct (iterate ids); reflexivity.
Qed.

(** The loop: one [clone_node] per child, in the order of the children, each
    for that child and into the new page. *)
Lemma clone_loop node items :
  truthy node = true ->
  forall acc (st : state N World) r st',
    for_of items acc (clone_child node) st = (r, st') ->
    exists k calls,
      trace st' = trace st ++ calls /\
      k <= length items /\
      List.map method calls = repeat "clone_node" k /\
      List.map arguments calls =
        List.map (fun child => [clone_params node child]) (take k items) /\
      forall ids,
        r = Normal ids ->
        k = length items /\
        exists pushed,
          Forall2 (fun c l => pushed_by c = Normal l) calls pushed /\
          ids = acc ++ concat pushed.
Proof.
  intros Ht. induction items as [|child rest IH]; intros acc st r st' Hrun; simpl in Hrun.
  - unfold ret in Hrun. injection Hrun as <- <-. exists 0, [].
    rewrite !app_nil_r. simpl.
    split; [reflexivity|]. split; [lia|]. split; [reflexivity|]. split; [reflexivity|].
    intros ids0 [= <-]. split; [reflexivity|]. exists []. split; [constructor|].
    simpl. now rewrite app_nil_r.
  - unfold bind in Hrun.
    pose proof (clone_child_run node acc child st Ht) as Hstep.
    destruct (get child "id") as [nodeId|e].
    + destruct Hstep as (r0 & w & Hc & Hstep). rewrite Hstep in Hrun.
      destruct (pushed_by (Call "clone_node" [clone_params node child] r0))
        as [pushed|e] eqn:Hpushed.
      * apply IH in Hrun as (k & calls & Htr & Hk & Hm & Ha & Hres).
        simpl in Htr.
        exists (S k), (Call "clone_node" [clone_params node child] r0 :: calls).
        split; [now rewrite Htr, <- app_assoc|].
        split; [simpl; lia|].
        split; [simpl; now rewrite Hm|].
        split; [simpl; now rewrite Ha|].
        intros ids0 Hids. destruct (Hres ids0 Hids) as (-> & pushed' & Hall & ->).
        split; [reflexivity|]. exists (pushed :: pushed').
        split; [now constructor|]. simpl. now rewrite <- app_assoc.
      * injection Hrun as <- <-.
        exists 1, [Call "clone_node" [clone_params node child] r0]. simpl.
        split; [reflexivity|]. split; [lia|]. split; [reflexivity|].
        split; [reflexivity|]. discriminate.
    + rewrite Hstep in Hrun. injection Hrun as <- <-. exists 0, [].
      rewrite app_nil_r. simpl.
      split; [reflexivity|]. split; [lia|]. split; [reflexivity|]. split; [reflexivity|].
      discriminate.
Qed.

(** X12: what a page duplicated without an error looks like: the page was looked
    up and is a page; a page was created under the requested name and read
    back; every child of the original, in order, was cloned into it, once;
    and the result names the new page as it was read back, with the new
    identifiers of all the clones, child by child, under [clonedIds]. *)
Theorem duplicatePage_success (pageId newPageName result : value N)
    (st st' : state N World) :
  duplicatePage pageId newPageName st = (Normal result, st') ->
  exists page name created node children clones pushed,
    trace st' =
      trace st ++
      Call "figma.getNodeByIdAsync" [pageId] (Normal page) ::
      Call "createPage" [name] (Normal created) ::
      Call "figma.getNodeByIdAsync" [path created ["id"]] (Normal node) :: clones /\
    requested_name newPageName page = Normal name /\
    path page ["type"] = str "PAGE" /\
    truthy node = true /\
    iterate (path page ["children"]) = Normal children /\
    List.map method clones = repeat "clone_node" (length children) /\
    List.map arguments clones =
      List.map (fun child => [object [("nodeId", path child ["id"]);
                                      ("parentId", path node ["id"])]]) children /\
    Forall2 (fun c l => pushed_by c = Normal l) clones pushed /\
    result = object [("newPageId", path node ["id"]);
                     ("newPageName", path node ["name"]);
                     ("clonedIds", array (concat pushed))].
Proof.
  intros Hrun. unfold DocumentDuplicate.duplicatePage in Hrun.
  destruct (truthy pageId) eqn:Hid; simpl in Hrun; [|discriminate].
  unfold bind at 1 in Hrun. unfold await at 1 in Hrun.
  destruct (getNodeByIdAsync pageId (world st)) as [[page|e] w1] eqn:Hfound;
    [|discriminate].
  unfold bind at 1 in Hrun. unfold lift at 1 in Hrun.
  destruct (not_a_page page) as [[|]|e] eqn:Hpage; try discriminate.
  apply not_a_page_false in Hpage as [Ht Htype].
  unfold DocumentDuplicate.copy_page in Hrun.
  unfold bind at 1 in Hrun. unfold lift at 1 in Hrun.
  rewrite (page_name_spec _ _ Ht) in Hrun.
  destruct (requested_name newPageName page) as [name|e] eqn:Hname; [|discriminate].
  unfold bind at 1 in Hrun. unfold await at 1 in Hrun. simpl in Hrun.
  destruct (createPage name w1) as [[created|e] w2] eqn:Hcreate; [|discriminate].
  unfold bind at 1 in Hrun. unfold lift at 1 in Hrun.
  destruct (get created "id") as [id|e] eqn:Hcid; [|discriminate].
  apply get_Normal in Hcid. subst id.
  unfold bind at 1 in Hrun. unfold await at 1 in Hrun. simpl in Hrun.
  destruct (getNodeByIdAsync (path created ["id"]) w2) as [[node|e] w3] eqn:Hnode;
    [|discriminate].
  destruct (truthy node) eqn:Hnt; simpl in Hrun; [|discriminate].
  unfold DocumentDuplicate.clone_children in Hrun.
  unfold bind at 1 in Hrun. unfold lift at 1 in Hrun.
  rewrite (get_truthy _ _ Ht) in Hrun.
  unfold bind at 1 in Hrun. unfold lift at 1 in Hrun.
  destruct (iterate (path page ["children"])) as [children|e] eqn:Hchildren;
    [|discriminate].
  unfold bind at 1 in Hrun.
  destruct (for_of children [] (clone_child node) _) as [[clonedIds|e] st1] eqn:Hloop;
    [|discriminate].
  apply (clone_loop node children Hnt) in Hloop
    as (k & clones & Htr & _ & Hm & Ha & Hres).
  destruct (Hres clonedIds eq_refl) as (-> & pushed & Hall & ->).
  rewrite firstn_all in Ha. simpl in Htr.
  unfold bind, lift, ret in Hrun. rewrite !(get_truthy _ _ Hnt) in Hrun.
  injection Hrun as <- <-.
  exists page, name, created, node, children, clones, pushed.
  split; [rewrite Htr; now rewrite <- !app_assoc|].
  repeat split; auto.
Qed.

End Facts.

(** *** Concrete runs against the scripted plugin *)

Import Scenario.

#[local] Abbreviation run_duplicatePage :=
  (DocumentDuplicate.duplicatePage Scenario.scripted
     (fun _ => next_reply) (fun _ => next_reply) (fun _ => next_reply)).

#[local] Abbreviation V := (value Z_number).

(** A page with two children. *)
Definition home : V :=
  object [("id", str "0:1"); ("type", str "PAGE"); ("name", str "Home");
          ("children", array [object [("id", str "1:1")]; object [("id", str "1:2")]])].

Definition home_copy : V :=
  object [("id", str "5:0"); ("type", str "PAGE"); ("name", str "Home (Copy)")].

(** Everything goes well: the second child clones into two nodes. *)
Definition all_well : state Z_number Scenario.scripted :=
  State (script [Normal home; Normal (object [("id", str "5:0")]); Normal home_copy;
                 Normal (object [("newNodeIds", array [str "5:1"])]);
                 Normal (object [("newNodeIds", array [str "5:2"; str "5:3"])])]) [].

Example duplicatePage_home :
  fst (run_duplicatePage (str "0:1") undefined all_well) =
    Normal (object [("newPageId", str "5:0"); ("newPageName", str "Home (Copy)");
                    ("clonedIds", array [str "5:1"; str "5:2"; str "5:3"])]) /\
  List.map arguments (trace (snd (run_duplicatePage (str "0:1") undefined all_well))) =
    [[str "0:1"]; [str "Home (Copy)"]; [str "5:0"];
     [object [("nodeId", str "1:1"); ("parentId", str "5:0")]];
     [object [("nodeId", str "1:2"); ("parentId", str "5:0")]]].
Proof. split; reflexivity. Qed.

Lemma duplicatePage_success_witness :
  exists page name created node children clones pushed,
    trace (snd (run_duplicatePage (str "0:1") undefined all_well)) =
      trace all_well ++
      Call "figma.getNodeByIdAsync" [str "0:1"] (Normal page) ::
      Call "createPage" [name] (Normal created) ::
      Call "figma.getNodeByIdAsync" [path created ["id"]] (Normal node) :: clones /\
    requested_name undefined page = Normal name /\
    path page ["type"] = str "PAGE" /\
    truthy node = true /\
    iterate (path page ["children"]) = Normal children /\
    List.map method clones = repeat "clone_node" (length children) /\
    List.map arguments clones =
      List.map (fun child => [object [("nodeId", path child ["id"]);
                                      ("parentId", path node ["id"])]]) children /\
    Forall2 (fun c l => pushed_by c = Normal l) clones pushed /\
    object [("newPageId", str "5:0"); ("newPageName", str "Home (Copy)");
            ("clonedIds", array [str "5:1"; str "5:2"; str "5:3"])] =
      object [("newPageId", path node ["id"]);
              ("newPageName", path node ["name"]);
              ("clonedIds", array (concat pushed))].
Proof.
  apply (duplicatePage_success Scenario.scripted
           (fun _ => next_reply) (fun _ => next_reply) (fun _ => next_reply)
           (str "0:1") undefined
           (object [("newPageId", str "5:0"); ("newPageName", str "Home (Copy)");
                    ("clonedIds", array [str "5:1"; str "5:2"; str "5:3"])])
           all_well (snd (run_duplicatePage (str "0:1") undefined all_well))).
  reflexivity.
Defined.

Lemma duplicatePage_missing_pageId_witness :
  run_duplicatePage (str EmptyString) (str "Copy") all_well =
    (Throw (ErrorObject "Missing pageId parameter"), all_well).
Proof.
  apply (duplicatePage_missing_pageId Scenario.scripted
           (fun _ => next_reply) (fun _ => next_reply) (fun _ => next_reply)
           (str EmptyString) (str "Copy") all_well).
  reflexivity.
Defined.

(** The identifier names a frame, not a page. *)
Definition a_frame : V := object [("id", str "1:1"); ("type", str "FRAME")].

Definition finds_frame : state Z_number Scenario.scripted :=
  State (script [Normal a_frame; Normal (object [("id", str "5:0")])]) [].

Lemma duplicatePage_invalid_page_witness :
  run_duplicatePage (str "1:1") undefined finds_frame =
    (Throw (ErrorObject "Invalid page ID"),
     State (script [Normal (object [("id", str "5:0")])])
           (trace finds_frame ++
            [Call "figma.getNodeByIdAsync" [str "1:1"] (Normal a_frame)])).
Proof.
  apply (duplicatePage_invalid_page Scenario.scripted
           (fun _ => next_reply) (fun _ => next_reply) (fun _ => next_reply)
           (str "1:1") undefined a_frame finds_frame
           (script [Normal (object [("id", str "5:0")])])).
  - reflexivity.
  - reflexivity.
  - right. discriminate.
Defined.

(** An empty new name counts as none. *)
Lemma duplicatePage_requested_name_witness :
  exists rest,
    trace (snd (run_duplicatePage (str "0:1") (str EmptyString) all_well)) =
      trace all_well ++
      Call "figma.getNodeByIdAsync" [str "0:1"] (Normal home) ::
      Call "createPage" [str "Home (Copy)"]
        (fst (next_reply
                (script [Normal (object [("id", str "5:0")]); Normal home_copy;
                              Normal (object [("newNodeIds", array [str "5:1"])]);
                              Normal (object [("newNodeIds",
                                               array [str "5:2"; str "5:3"])])]))) ::
      rest.
Proof.
  apply (duplicatePage_requested_name Scenario.scripted
           (fun _ => next_reply) (fun _ => next_reply) (fun _ => next_reply)
           (str "0:1") (str EmptyString) home all_well
           (script [Normal (object [("id", str "5:0")]); Normal home_copy;
                         Normal (object [("newNodeIds", array [str "5:1"])]);
                         Normal (object [("newNodeIds", array [str "5:2"; str "5:3"])])])).
  - reflexivity.
  - reflexivity.
  - reflexivity.
  - reflexivity.
Defined.

(** The clone of the second child is refused: the error comes out as it is,
    the page that was created and the first clone stay, and nothing more is
    called. *)
Definition second_clone_fails : state Z_number Scenario.scripted :=
  State (script [Normal home; Normal (object [("id", str "5:0")]); Normal home_copy;
                 Normal (object [("newNodeIds", array [str "5:1"])]);
                 Scenario.rejected "Node is locked"]) [].

Example duplicatePage_partial :
  fst (run_duplicatePage (str "0:1") (str "Backup") second_clone_fails) =
    Throw (ErrorObject "Node is locked") /\
  List.map method (trace (snd (run_duplicatePage (str "0:1") (str "Backup")
                                 second_clone_fails))) =
    ["figma.getNodeByIdAsync"; "createPage"; "figma.getNodeByIdAsync";
     "clone_node"; "clone_node"].
Proof. split; reflexivity. Qed.

End DocumentDuplicateFacts.

(** ** The UI panel script

    The script of the plugin's panel (second part of
    [document-duplicate.js], lines 62 to 170): connection controls, tabs,
    progress display.  The page is a record of the properties the script
    writes, holding for each the value last assigned to it; what the script
    asks of its surroundings ([connect], [disconnect], [setAutoReconnect],
    [parent.postMessage], [setTimeout]) is appended to a list.  The ten
    elements looked up by identifier at load are taken to exist and to be
    none of the tabs or panels. *)

Module PluginUi.
Import JS Exec.

Section Script.
Context {N : JsNumber}.
(** The number an integer literal denotes. *)
Variable literal : Z -> number.
(** [parseInt(s, 10)]. *)
Variable parseInt10 : string -> number.

(** An element with an [id] and a class list. *)
Record Element : Type := {
  id : string;
  classList : list string
}.

(** [classList.remove(token)] and [classList.add(token)]. *)
Definition remove_token (token : string) (tokens : list string) : list string :=
  List.filter (fun t => negb (String.eqb t token)) tokens.

Definition add_token (token : string) (tokens : list string) : list string :=
  if existsb (String.eqb token) tokens then tokens else tokens ++ [token].

Definition has_token (token : string) (tokens : list string) : bool :=
  existsb (String.eqb token) tokens.

(** The properties the script writes, lines 65 to 78, and the elements
    [document.querySelectorAll] and [document.getElementById] search, in
    document order. *)
Record Dom : Type := {
  portInput_value : string;
  portInput_disabled : bool;
  connectButton_disabled : bool;
  disconnectButton_disabled : bool;
  connectionStatus_innerHTML : string;
  connectionStatus_className : string;
  autoReconnectToggle_checked : bool;
  progressContainer_classList : list string;
  progressBar_style_width : string;
  progressPercentage_textContent : string;
  progressMessage_textContent : string;
  progressStatus_textContent : string;
  progressStatus_className : string;
  elements : list Element
}.

(** The callback of line 127. *)
Inductive Callback : Type := HideProgress.

(** What the script asks of its surroundings. *)
Inductive Effect : Type :=
| Connect (port : number)
| Disconnect
| SetAutoReconnect (enabled : value N)
| PostMessage (message : value N) (targetOrigin : string)
| SetTimeout (callback : Callback) (delay : number).

Record Window : Type := {
  dom : Dom;
  sent : list Effect
}.

Definition modify (f : Dom -> Dom) : exec N Window unit :=
  draw (fun w => (tt, {| dom := f (dom w); sent := sent w |})).

Definition emit (e : Effect) : exec N Window unit :=
  draw (fun w => (tt, {| dom := dom w; sent := sent w ++ [e] |})).

Definition read {A} (f : Dom -> A) : exec N Window A :=
  draw (fun w => (f (dom w), w)).

(** The five writes of lines 95 to 103, [html] being the text line 95
    assigns. *)
Definition set_connection (isConnected : bool) (html : string) (d : Dom) : Dom :=
  {| portInput_value := portInput_value d;
     portInput_disabled := isConnected;
     connectButton_disabled := isConnected;
     disconnectButton_disabled := negb isConnected;
     connectionStatus_innerHTML := html;
     connectionStatus_className :=
       "status " +:+ (if isConnected then "connected" else "disconnected");
     autoReconnectToggle_checked := autoReconnectToggle_checked d;
     progressContainer_classList := progressContainer_classList d;
     progressBar_style_width := progressBar_style_width d;
     progressPercentage_textContent := progressPercentage_textContent d;
     progressMessage_textContent := progressMessage_textContent d;
     progressStatus_textContent := progressStatus_textContent d;
     progressStatus_className := progressStatus_className d;
     elements := elements d |}.

(** [updateConnectionStatus(isConnected, message)], lines 94 to 104; an
    absent [message] is [undefined].  Line 95, the first of the five writes,
    converts what it assigns to a string. *)
Definition updateConnectionStatus (isConnected : bool) (message : value N)
  : exec N Window unit :=
  (html <- lift (if truthy message then to_String message
                 else Normal (if isConnected then "Connected to Conduit MCP server"
                              else "Not connected to Conduit MCP server")) ;;
   modify (set_connection isConnected html))%exec.

Definition set_progressContainer_classList (f : list string -> list string) (d : Dom) : Dom :=
  {| portInput_value := portInput_value d;
     portInput_disabled := portInput_disabled d;
     connectButton_disabled := connectButton_disabled d;
     disconnectButton_disabled := disconnectButton_disabled d;
     connectionStatus_innerHTML := connectionStatus_innerHTML d;
     connectionStatus_className := connectionStatus_className d;
     autoReconnectToggle_checked := autoReconnectToggle_checked d;
     progressContainer_classList := f (progressContainer_classList d);
     progressBar_style_width := progressBar_style_width d;
     progressPercentage_textContent := progressPercentage_textContent d;
     progressMessage_textContent := progressMessage_textContent d;
     progressStatus_textContent := progressStatus_textContent d;
     progressStatus_className := progressStatus_className d;
     elements := elements d |}.

(** [progressBar.style.width = v]. *)
Definition set_progressBar_style_width (v : string) (d : Dom) : Dom :=
  {| portInput_value := portInput_value d;
     portInput_disabled := portInput_disabled d;
     connectButton_disabled := connectButton_disabled d;
     disconnectButton_disabled := disconnectButton_disabled d;
     connectionStatus_innerHTML := connectionStatus_innerHTML d;
     connectionStatus_className := connectionStatus_className d;
     autoReconnectToggle_checked := autoReconnectToggle_checked d;
     progressContainer_classList := progressContainer_classList d;
     progressBar_style_width := v;
     progressPercentage_textContent := progressPercentage_textContent d;
     progressMessage_textContent := progressMessage_textContent d;
     progressStatus_textContent := progressStatus_textContent d;
     progressStatus_className := progressStatus_className d;
     elements := elements d |}.

(** [progressPercentage.textContent = v]. *)
Definition set_progressPercentage_textContent (v : string) (d : Dom) : Dom :=
  {| portInput_value := portInput_value d;
     portInput_disabled := portInput_disabled d;
     connectButton_disabled := connectButton_disabled d;
     disconnectButton_disabled := disconnectButton_disabled d;
     connectionStatus_innerHTML := connectionStatus_innerHTML d;
     connectionStatus_className := connectionStatus_className d;
     autoReconnectToggle_checked := autoReconnectToggle_checked d;
     progressContainer_classList := progressContainer_classList d;
     progressBar_style_width := progressBar_style_width d;
     progressPercentage_textContent := v;
     progressMessage_textContent := progressMessage_textContent d;
     progressStatus_textContent := progressStatus_textContent d;
     progressStatus_className := progressStatus_className d;
     elements := elements d |}.

(** [progressMessage.textContent = v]. *)
Definition set_progressMessage_textContent (v : string) (d : Dom) : Dom :=
  {| portInput_value := portInput_value d;
     portInput_disabled := portInput_disabled d;
     connectButton_disabled := connectButton_disabled d;
     disconnectButton_disabled := disconnectButton_disabled d;
     connectionStatus_innerHTML := connectionStatus_innerHTML d;
     connectionStatus_className := connectionStatus_className d;
     autoReconnectToggle_checked := autoReconnectToggle_checked d;
     progressContainer_classList := progressContainer_classList d;
     progressBar_style_width := progressBar_style_width d;
     progressPercentage_textContent := progressPercentage_textContent d;
     progressMessage_textContent := v;
     progressStatus_textContent := progressStatus_textContent d;
     progressStatus_className := progressStatus_className d;
     elements := elements d |}.

(** [progressStatus.textContent] and [progressStatus.className]. *)
Definition set_progressStatus (textContent className : string) (d : Dom) : Dom :=
  {| portInput_value := portInput_value d;
     portInput_disabled := portInput_disabled d;
     connectButton_disabled := connectButton_disabled d;
     disconnectButton_disabled := disconnectButton_disabled d;
     connectionStatus_innerHTML := connectionStatus_innerHTML d;
     connectionStatus_className := connectionStatus_className d;
     autoReconnectToggle_checked := autoReconnectToggle_checked d;
     progressContainer_classList := progressContainer_classList d;
     progressBar_style_width := progressBar_style_width d;
     progressPercentage_textContent := progressPercentage_textContent d;
     progressMessage_textContent := progressMessage_textContent d;
     progressStatus_textContent := textContent;
     progressStatus_className := className;
     elements := elements d |}.

Definition set_autoReconnectToggle_checked (checked : bool) (d : Dom) : Dom :=
  {| portInput_value := portInput_value d;
     portInput_disabled := portInput_disabled d;
     connectButton_disabled := connectButton_disabled d;
     disconnectButton_disabled := disconnectButton_disabled d;
     connectionStatus_innerHTML := connectionStatus_innerHTML d;
     connectionStatus_className := connectionStatus_className d;
     autoReconnectToggle_checked := checked;
     progressContainer_classList := progressContainer_classList d;
     progressBar_style_width := progressBar_style_width d;
     progressPercentage_textContent := progressPercentage_textContent d;
     progressMessage_textContent := progressMessage_textContent d;
     progressStatus_textContent := progressStatus_textContent d;
     progressStatus_className := progressStatus_className d;
     elements := elements d |}.

Definition set_elements (f : list Element -> list Element) (d : Dom) : Dom :=
  {| portInput_value := portInput_value d;
     portInput_disabled := portInput_disabled d;
     connectButton_disabled := connectButton_disabled d;
     disconnectButton_disabled := disconnectButton_disabled d;
     connectionStatus_innerHTML := connectionStatus_innerHTML d;
     connectionStatus_className := connectionStatus_className d;
     autoReconnectToggle_checked := autoReconnectToggle_checked d;
     progressContainer_classList := progressContainer_classList d;
     progressBar_style_width := progressBar_style_width d;
     progressPercentage_textContent := progressPercentage_textContent d;
     progressMessage_textContent := progressMessage_textContent d;
     progressStatus_textContent := progressStatus_textContent d;
     progressStatus_className := progressStatus_className d;
     elements := f (elements d) |}.

(** [updateProgressUI(data)], lines 118 to 135. *)
Definition updateProgressUI (data : value N) : exec N Window unit :=
  (_ <- modify (set_progressContainer_classList (remove_token "hidden")) ;;
   progress <- lift (get data "progress") ;;
   let pct := if truthy progress then progress else num (literal 0) in
   width <- lift (to_String pct) ;;
   _ <- modify (set_progressBar_style_width (width +:+ "%")) ;;
   percentage <- lift (to_String pct) ;;
   _ <- modify (set_progressPercentage_textContent (percentage +:+ "%")) ;;
   message <- lift (get data "message") ;;
   shown <- lift (if truthy message then to_String message
                  else Normal "Operation in progress") ;;
   _ <- modify (set_progressMessage_textContent shown) ;;
   status <- lift (get data "status") ;;
   if DocumentDuplicate.is_string status "completed" then
     _ <- modify (set_progressStatus "Completed" "operation-complete") ;;
     emit (SetTimeout HideProgress (literal 5000))
   else if DocumentDuplicate.is_string status "error" then
     modify (set_progressStatus "Error" "operation-error")
   else
     modify (set_progressStatus
               (if DocumentDuplicate.is_string status "started"
                then "Started" else "In Progress")
               EmptyString))%exec.

(** The handler given to [onMessage], lines 138 to 147. *)
Definition on_message (msg : value N) : exec N Window unit :=
  (type <- lift (get msg "type") ;;
   if DocumentDuplicate.is_string type "init-settings" then
     settings <- lift (get msg "settings") ;;
     autoReconnect <- lift (get settings "autoReconnect") ;;
     _ <- modify (set_autoReconnectToggle_checked (truthy autoReconnect)) ;;
     settings' <- lift (get msg "settings") ;;
     autoReconnect' <- lift (get settings' "autoReconnect") ;;
     emit (SetAutoReconnect autoReconnect')
   else
     emit (PostMessage (object [("pluginMessage", msg)]) "*"))%exec.

(** [s.split(sep)] for a separator of one character. *)
Fixpoint split (sep : ascii) (s : string) : list string :=
  match s with
  | EmptyString => [EmptyString]
  | String c rest =>
      if Ascii.eqb c sep then EmptyString :: split sep rest
      else match split sep rest with
           | head :: tail => String c head :: tail
           | [] => [String c EmptyString]
           end
  end.

(** [parts[1]]. *)
Definition second (parts : list string) : value N :=
  match parts with
  | _ :: part :: _ => str part
  | _ => undefined
  end.

(** The tabs and the panels: the positions, among [elements], of those that
    [querySelectorAll('.tab')] and [querySelectorAll('.tab-content')] gave
    when the script was loaded, lines 69 and 70. *)
Variable tabs : list nat.
Variable tabContents : list nat.

(** [el.classList = f(el.classList)] for the element at position [i]. *)
Definition update_class (f : list string -> list string) (i : nat)
    (els : list Element) : list Element :=
  alter (fun el => {| id := id el; classList := f (classList el) |}) i els.

(** [indices.forEach(el => el.classList.remove('active'))]. *)
Definition deactivate (indices : list nat) (els : list Element) : list Element :=
  fold_left (fun acc i => update_class (remove_token "active") i acc) indices els.

(** [document.getElementById(target)]: the first element, in document
    order, with that [id]. *)
Fixpoint getElementById (target : string) (els : list Element) : option nat :=
  match els with
  | [] => None
  | el :: rest =>
      if String.eqb (id el) target then Some 0
      else S <$> getElementById target rest
  end.

(** The click listener of the tab at position [t], lines 152 to 158. *)
Definition tab_click (t : nat) : exec N Window unit :=
  (_ <- modify (set_elements (deactivate tabs)) ;;
   _ <- modify (set_elements (deactivate tabContents)) ;;
   _ <- modify (set_elements (update_class (add_token "active") t)) ;;
   tab_id <- read (fun d => match elements d !! t with
                            | Some tab => id tab
                            | None => EmptyString
                            end) ;;
   let segment := second (split "-" tab_id) in
   name <- lift (to_String segment) ;;
   found <- read (fun d => getElementById ("content-" +:+ name) (elements d)) ;;
   match found with
   | Some panel => modify (set_elements (update_class (add_token "active") panel))
   | None =>
       throw (ErrorObject "Cannot read properties of null (reading 'classList')")
   end)%exec.

(** The [change] listener of the toggle, line 162. *)
Definition toggle_change : exec N Window unit :=
  (checked <- read autoReconnectToggle_checked ;;
   emit (SetAutoReconnect (boolean checked)))%exec.

(** The [click] listener of the connect button, lines 163 to 166. *)
Definition connect_click : exec N Window unit :=
  (_ <- updateConnectionStatus false (str "Connecting…") ;;
   value <- read portInput_value ;;
   emit (Connect (if number_truthy (parseInt10 value) then parseInt10 value
                  else literal 3055)))%exec.

(** The [click] listener of the disconnect button, lines 167 to 170. *)
Definition disconnect_click : exec N Window unit :=
  (_ <- updateConnectionStatus false (str "Disconnecting…") ;;
   emit Disconnect)%exec.

(** Running a callback given to [setTimeout]. *)
Definition run_callback (cb : Callback) : exec N Window unit :=
  match cb with
  | HideProgress => modify (set_progressContainer_classList (add_token "hidden"))
  end.

(** What can happen to the panel.  A click on a disabled button fires no
    event; the tab listeners exist on the tabs only; a user who flips the
    toggle changes [checked] before the [change] event fires. *)
Inductive Event : Type :=
| Message (msg : value N)
| Progress (data : value N)
| TabClicked (t : nat)
| ToggleFlipped
| ConnectClicked
| DisconnectClicked
| TimerFired (cb : Callback).

Definition handle (e : Event) : exec N Window unit :=
  match e with
  | Message msg => on_message msg
  | Progress data => updateProgressUI data
  | TabClicked t =>
      (tab <- read (fun d => elements d !! t) ;;
       match tab with
       | Some _ => if existsb (Nat.eqb t) tabs then tab_click t else ret tt
       | None => ret tt
       end)%exec
  | ToggleFlipped =>
      (checked <- read autoReconnectToggle_checked ;;
       _ <- modify (set_autoReconnectToggle_checked (negb checked)) ;;
       toggle_change)%exec
  | ConnectClicked =>
      (disabled <- read connectButton_disabled ;;
       if (disabled : bool) then ret tt else connect_click)%exec
  | DisconnectClicked =>
      (disabled <- read disconnectButton_disabled ;;
       if (disabled : bool) then ret tt else disconnect_click)%exec
  | TimerFired cb => run_callback cb
  end.

(** One event: its listener runs to its end or to an uncaught error, and the
    page is left as the listener left it. *)
Definition step (w : Window) (e : Event) : Window :=
  world (snd (handle e (State w []))).

Definition process (events : list Event) (w : Window) : Window :=
  fold_left step events w.

End Script.

End PluginUi.

(** ** Properties of the UI panel script *)

Module PluginUiFacts.
Import JS Exec PluginUi.

Ltac run_listener :=
  unfold step, handle, on_message, updateProgressUI, tab_click, toggle_change,
    connect_click, disconnect_click, updateConnectionStatus, run_callback, bind, lift,
    modify, emit, read, draw, ret, throw; simpl.

(** Case analysis on everything a listener branches on. *)
Ltac listener_cases :=
  repeat first
    [ match goal with
      | |- context [get ?v ?k] => destruct (get v k) eqn:?; simpl
      end
    | match goal with
      | |- context [to_String ?v] => destruct (to_String v) eqn:?; simpl
      end
    | match goal with
      | |- context [truthy ?v] => destruct (truthy v) eqn:?; simpl
      end
    | match goal with
      | |- context [DocumentDuplicate.is_string ?v ?s] =>
          destruct (DocumentDuplicate.is_string v s) eqn:?; simpl
      end
    | match goal with
      | |- context [elements ?d !! ?t] => destruct (elements d !! t) eqn:?; simpl
      end
    | match goal with
      | |- context [existsb (Nat.eqb ?t) ?l] =>
          destruct (existsb (Nat.eqb t) l) eqn:?; simpl
      end
    | match goal with
      | |- context [getElementById ?s ?l] => destruct (getElementById s l) eqn:?; simpl
      end
    | match goal with
      | |- context [connectButton_disabled (dom ?w)] =>
          destruct (connectButton_disabled (dom w)) eqn:?; simpl
      end
    | match goal with
      | |- context [disconnectButton_disabled (dom ?w)] =>
          destruct (disconnectButton_disabled (dom w)) eqn:?; simpl
      end ].

Section Facts.
Context {N : JsNumber}.
Variable literal : Z -> number.
Variable parseInt10 : string -> number.
Variable tabs : list nat.
Variable tabContents : list nat.

#[local] Abbreviation step := (step literal parseInt10 tabs tabContents).
#[local] Abbreviation process := (process literal parseInt10 tabs tabContents).

(** What the connection controls show. *)
Definition controls (d : Dom) : bool * bool * bool * string * string :=
  (connectButton_disabled d, disconnectButton_disabled d, portInput_disabled d,
   connectionStatus_className d, connectionStatus_innerHTML d).

(** The state every click leaves the controls in: ready to connect. *)
Definition ready_to_connect (d : Dom) : Prop :=
  connectButton_disabled d = false /\
  disconnectButton_disabled d = true /\
  portInput_disabled d = false /\
  connectionStatus_className d = "status disconnected".

Lemma step_controls (w : Window) (e : Event) :
  controls (dom (step w e)) = controls (dom w) \/ ready_to_connect (dom (step w e)).
Proof.
  destruct e as [msg|data|t| | | |[]]; run_listener; listener_cases; auto;
    right; repeat split.
Qed.

(** X13: the script never shows the connected state.  Whatever happens to the
    panel, either the connection controls are as they were, or they are
    ready to connect: Connect enabled, Disconnect disabled, the port
    editable, the status styled as disconnected. *)
Theorem controls_never_connected (events : list Event) (w : Window) :
  controls (dom (process events w)) = controls (dom w) \/
  ready_to_connect (dom (process events w)).
Proof.
  revert w. induction events as [|e rest IH]; intros w; simpl; [now left|].
  destruct (IH (step w e)) as [Hsame | Hready]; [|now right].
  rewrite Hsame. destruct (step_controls w e) as [Hsame' | Hready]; [now left|].
  right. unfold ready_to_connect, controls in *.
  injection Hsame as H1 H2 H3 H4 H5. destruct Hready as (R1 & R2 & R3 & R4).
  repeat split; congruence.
Qed.

Definition is_disconnect (eff : Effect) : bool :=
  match eff with
  | Disconnect => true
  | _ => false
  end.

Definition disconnects (effs : list Effect) : nat :=
  length (List.filter is_disconnect effs).

Lemma disconnects_app effs1 effs2 :
  disconnects (effs1 ++ effs2) = disconnects effs1 + disconnects effs2.
Proof. unfold disconnects. now rewrite List.filter_app, length_app. Qed.

(** A listener only adds to what was asked before; [disconnect] is asked
    only through an enabled Disconnect button, which the same listener
    disables. *)
Lemma step_disconnect (w : Window) (e : Event) :
  exists new,
    sent (step w e) = sent w ++ new /\
    ((disconnects new = 0 /\
      (disconnectButton_disabled (dom w) = true ->
       disconnectButton_disabled (dom (step w e)) = true))
     \/
     (disconnects new = 1 /\
      disconnectButton_disabled (dom w) = false /\
      disconnectButton_disabled (dom (step w e)) = true)).
Proof.
  destruct e as [msg|data|t| | | |[]]; run_listener; listener_cases;
    try (exists []; rewrite app_nil_r; split; [reflexivity|left; split; auto]; fail);
    try (eexists [_]; split; [reflexivity|left; split; auto]; fail).
  eexists [_]; split; [reflexivity|right; auto].
Qed.

(** X14: nothing in the script enables the Disconnect button again: however many
    events follow, [disconnect] is asked at most once, and not at all when
    the button starts disabled. *)
Theorem disconnect_at_most_once (events : list Event) (w : Window) :
  exists new,
    sent (process events w) = sent w ++ new /\
    disconnects new <= 1 /\
    (disconnectButton_disabled (dom w) = true -> disconnects new = 0).
Proof.
  revert w. induction events as [|e rest IH]; intros w; simpl.
  - exists []. rewrite app_nil_r. repeat split; auto.
  - destruct (step_disconnect w e) as (new1 & Hs1 & Hcase).
    destruct (IH (step w e)) as (new2 & Hs2 & Hle & Hzero).
    exists (new1 ++ new2). split; [now rewrite Hs2, Hs1, <- app_assoc|].
    rewrite disconnects_app.
    destruct Hcase as [(H0 & Hkeep) | (H1 & Hen & Hdis)].
    + split; [lia|]. intros Hd. rewrite (Hzero (Hkeep Hd)). lia.
    + rewrite (Hzero Hdis). split; [lia|]. intros Hd. congruence.
Qed.

(** X15: the port [connect] is given is never a falsy number: a field that
    parses to [NaN] or to zero gives the default of line 165. *)
Theorem connect_port_truthy (events : list Event) (w : Window) :
  number_truthy (literal 3055) = true ->
  exists new,
    sent (process events w) = sent w ++ new /\
    Forall (fun eff => forall port, eff = Connect port -> number_truthy port = true) new.
Proof.
  intros Hdefault. revert w. induction events as [|e rest IH]; intros w; simpl.
  - exists []. rewrite app_nil_r. split; [reflexivity|constructor].
  - destruct (IH (step w e)) as (new2 & Hs2 & Hall2).
    assert (Hstep : exists new1,
               sent (step w e) = sent w ++ new1 /\
               Forall (fun eff => forall port, eff = Connect port ->
                                               number_truthy port = true) new1).
    { destruct e as [msg|data|t| | | |[]]; run_listener; listener_cases;
        try (exists []; rewrite app_nil_r; split; [reflexivity|constructor]; fail);
        try (eexists [_]; split; [reflexivity|];
             constructor; [|constructor]; intros port [=]; fail).
      eexists [_]; split; [reflexivity|]. constructor; [|constructor].
      intros port [= <-].
      destruct (number_truthy (parseInt10 (portInput_value (dom w)))) eqn:Hp; auto. }
    destruct Hstep as (new1 & Hs1 & Hall1).
    exists (new1 ++ new2). split; [now rewrite Hs2, Hs1, <- app_assoc|].
    apply Forall_app. auto.
Qed.

#[local] Arguments path : simpl never.

Definition nullish (v : value N) : bool :=
  match v with
  | undefined | null => true
  | _ => false
  end.

Lemma get_defined (v : value N) k : nullish v = false -> get v k = Normal (path v [k]).
Proof. destruct v; simpl; try discriminate; reflexivity. Qed.

Lemma get_nullish (v : value N) k : nullish v = true -> exists e, get v k = Throw e.
Proof. destruct v; simpl; try discriminate; eauto. Qed.

Lemma has_remove_token token tokens :
  has_token token (remove_token token tokens) = false.
Proof.
  unfold has_token, remove_token. induction tokens as [|t rest IH]; [reflexivity|].
  simpl. destruct (String.eqb t token) eqn:E; simpl; [assumption|].
  rewrite String.eqb_sym, E. assumption.
Qed.

Lemma has_remove_other token other tokens :
  other <> token ->
  has_token other (remove_token token tokens) = has_token other tokens.
Proof.
  intros Hne. unfold has_token, remove_token.
  induction tokens as [|t rest IH]; [reflexivity|]. simpl.
  destruct (String.eqb t token) eqn:E; simpl.
  - apply String.eqb_eq in E. subst t.
    apply String.eqb_neq in Hne. now rewrite Hne.
  - now rewrite IH.
Qed.

(** X16: a progress update brings the progress display back, whatever it is
    given and whatever else it carries, and keeps the other classes of the
    container.  Given an event that is not [null] or [undefined], the bar
    and the percentage are written the same text, the progress (or 0 when
    that is falsy) as a string followed by a percent sign; the message shown
    is the event's, or a default when that is falsy; the label is one of
    four; the hiding of the display is scheduled for a [completed] status
    and for no other, so an [error] stays on display.  A progress or a
    message that has no string conversion ends the update where it is
    converted, at line 121 or at line 123: what comes after is not written,
    and nothing is scheduled. *)
Theorem progress_update (data : value N) (w : Window) :
  has_token "hidden" (progressContainer_classList (dom (step w (Progress data)))) = false /\
  (forall token,
     token <> "hidden" ->
     has_token token (progressContainer_classList (dom (step w (Progress data)))) =
       has_token token (progressContainer_classList (dom w))) /\
  (nullish data = false ->
   match to_String (if truthy (path data ["progress"]) then path data ["progress"]
                    else num (literal 0)) with
   | Normal pct =>
       progressBar_style_width (dom (step w (Progress data))) =
         progressPercentage_textContent (dom (step w (Progress data))) /\
       progressPercentage_textContent (dom (step w (Progress data))) = pct +:+ "%" /\
       match (if truthy (path data ["message"]) then to_String (path data ["message"])
              else Normal "Operation in progress") with
       | Normal shown =>
           progressMessage_textContent (dom (step w (Progress data))) = shown /\
           In (progressStatus_textContent (dom (step w (Progress data))))
              ["Completed"; "Error"; "Started"; "In Progress"] /\
           sent (step w (Progress data)) =
             sent w ++
             (if DocumentDuplicate.is_string (path data ["status"]) "completed"
              then [SetTimeout HideProgress (literal 5000)] else [])
       | Throw _ =>
           progressMessage_textContent (dom (step w (Progress data))) =
             progressMessage_textContent (dom w) /\
           progressStatus_textContent (dom (step w (Progress data))) =
             progressStatus_textContent (dom w) /\
           sent (step w (Progress data)) = sent w
       end
   | Throw _ =>
       progressBar_style_width (dom (step w (Progress data))) =
         progressBar_style_width (dom w) /\
       progressPercentage_textContent (dom (step w (Progress data))) =
         progressPercentage_textContent (dom w) /\
       progressMessage_textContent (dom (step w (Progress data))) =
         progressMessage_textContent (dom w) /\
       progressStatus_textContent (dom (step w (Progress data))) =
         progressStatus_textContent (dom w) /\
       sent (step w (Progress data)) = sent w
   end).
Proof.
  split; [|split].
  - run_listener; listener_cases; apply has_remove_token.
  - intros token Hne. run_listener; listener_cases; now apply has_remove_other.
  - intros Hdata. run_listener. rewrite !(get_defined _ _ Hdata). simpl.
    destruct (to_String (if truthy (path data ["progress"]) then path data ["progress"]
                         else num (literal 0))) as [pct|e]; simpl;
      [|repeat split].
    destruct (if truthy (path data ["message"]) then to_String (path data ["message"])
              else Normal "Operation in progress") as [shown|e]; simpl;
      [|repeat split].
    destruct (DocumentDuplicate.is_string (path data ["status"]) "completed"); simpl;
      [rewrite ?app_nil_r; repeat split; auto|].
    destruct (DocumentDuplicate.is_string (path data ["status"]) "error"); simpl;
      [rewrite ?app_nil_r; repeat split; auto|].
    destruct (DocumentDuplicate.is_string (path data ["status"]) "started"); simpl;
      rewrite ?app_nil_r; repeat split; auto.
Qed.

(** X17: a message of type [init-settings] is consumed by the panel and never
    forwarded; any other message is forwarded once, as it came, wrapped
    under [pluginMessage] and to any origin, and changes nothing on the
    page; [null] and [undefined] are dropped by the error they cause. *)
Theorem message_routing (msg : value N) (w : Window) :
  exists new,
    sent (step w (Message msg)) = sent w ++ new /\
    (path msg ["type"] = str "init-settings" ->
     Forall (fun eff => exists v, eff = SetAutoReconnect v) new) /\
    (nullish msg = false ->
     path msg ["type"] <> str "init-settings" ->
     new = [PostMessage (object [("pluginMessage", msg)]) "*"] /\
     dom (step w (Message msg)) = dom w) /\
    (nullish msg = true -> new = [] /\ dom (step w (Message msg)) = dom w).
Proof.
  destruct (nullish msg) eqn:Hn.
  - destruct (get_nullish msg "type" Hn) as [e He].
    exists []. run_listener. rewrite He. simpl. rewrite app_nil_r.
    split; [reflexivity|]. split; [constructor|]. split; [discriminate|].
    intros _. split; [reflexivity | now destruct w].
  - run_listener. rewrite !(get_defined _ _ Hn). simpl.
    destruct (DocumentDuplicate.is_string (path msg ["type"]) "init-settings") eqn:Ht.
    + apply DocumentDuplicateFacts.is_string_true in Ht.
      destruct (get (path msg ["settings"]) "autoReconnect") as [v|e]; simpl.
      * eexists [_]. split; [reflexivity|].
        split; [intros _; repeat constructor; eauto|].
        split; [intros _ Hne; now contradiction Hne | discriminate].
      * exists []. rewrite app_nil_r. split; [reflexivity|].
        split; [constructor|].
        split; [intros _ Hne; now contradiction Hne | discriminate].
    + eexists [_]. split; [reflexivity|].
      split.
      * intros Htype. apply DocumentDuplicateFacts.is_string_true in Htype. congruence.
      * split; [|discriminate]. intros _ _. split; [reflexivity | now destruct w].
Qed.

(** The setting last given to [setAutoReconnect], if any. *)
Definition last_setting (effs : list Effect) : option (value N) :=
  last (omap (fun eff => match eff with
                         | SetAutoReconnect v => Some v
                         | _ => None
                         end) effs).

(** The client was last told what the toggle shows. *)
Definition in_sync (w : Window) : Prop :=
  forall v, last_setting (sent w) = Some v ->
            truthy v = autoReconnectToggle_checked (dom w).

Lemma last_setting_snoc_setting effs v :
  last_setting (effs ++ [SetAutoReconnect v]) = Some v.
Proof. unfold last_setting. rewrite omap_app. simpl. apply last_snoc. Qed.

Lemma last_setting_snoc_other effs eff :
  (forall v, eff <> SetAutoReconnect v) ->
  last_setting (effs ++ [eff]) = last_setting effs.
Proof.
  intros Hother. unfold last_setting. rewrite omap_app. simpl.
  destruct eff; try (now rewrite app_nil_r). now contradiction (Hother enabled).
Qed.

Lemma step_in_sync (w : Window) (e : Event) : in_sync w -> in_sync (step w e).
Proof.
  intros Hsync.
  destruct e as [msg|data|t| | | |[]]; run_listener; listener_cases;
    try exact Hsync;
    try (intros v; simpl; rewrite last_setting_snoc_other by discriminate;
         exact (Hsync v); fail);
    try (intros v; simpl; rewrite last_setting_snoc_setting; intros [= <-];
         (reflexivity || assumption); fail).
Qed.

(** X18: the toggle and the client stay in agreement: whatever happens to the
    panel, the value last given to [setAutoReconnect] is truthy exactly when
    the toggle is checked. *)
Theorem toggle_in_sync (events : list Event) (w : Window) :
  in_sync w -> in_sync (process events w).
Proof.
  revert w. induction events as [|e rest IH]; intros w Hsync; simpl; [assumption|].
  apply IH. now apply step_in_sync.
Qed.

(** *** Tabs *)

Definition with_class (f : list string -> list string) (el : Element) : Element :=
  {| id := id el; classList := f (classList el) |}.

Lemma update_class_lookup f i j (els : list Element) :
  update_class f i els !! j =
    (if Nat.eqb i j then with_class f else fun el => el) <$> els !! j.
Proof.
  unfold update_class. destruct (Nat.eqb_spec i j) as [->|Hne].
  - now rewrite list_lookup_alter_eq.
  - rewrite list_lookup_alter_ne by assumption. now destruct (els !! j).
Qed.

Lemma remove_token_twice token tokens :
  remove_token token (remove_token token tokens) = remove_token token tokens.
Proof.
  unfold remove_token. induction tokens as [|t rest IH]; [reflexivity|]. simpl.
  destruct (negb (String.eqb t token)) eqn:E; simpl; [rewrite E; now f_equal | assumption].
Qed.

Lemma deactivate_lookup (indices : list nat) :
  forall (els : list Element) j,
    deactivate indices els !! j =
      (if existsb (Nat.eqb j) indices then with_class (remove_token "active")
       else fun el => el) <$> els !! j.
Proof.
  induction indices as [|i rest IH]; intros els j; simpl.
  - now destruct (els !! j).
  - rewrite IH, update_class_lookup. rewrite (Nat.eqb_sym j i).
    destruct (els !! j) as [el|]; [|reflexivity]. simpl.
    destruct (Nat.eqb i j); simpl; [|reflexivity].
    destruct (existsb (Nat.eqb j) rest); [|reflexivity].
    unfold with_class. simpl. now rewrite remove_token_twice.
Qed.

Lemma update_class_ids f i (els : list Element) :
  List.map id (update_class f i els) = List.map id els.
Proof.
  unfold update_class. revert i. induction els as [|el rest IH]; intros [|i]; simpl;
    try reflexivity. f_equal. apply IH.
Qed.

Lemma deactivate_ids (indices : list nat) :
  forall els : list Element, List.map id (deactivate indices els) = List.map id els.
Proof.
  induction indices as [|i rest IH]; intros els; simpl; [reflexivity|].
  now rewrite IH, update_class_ids.
Qed.

(** [getElementById] looks at identifiers only. *)
Lemma getElementById_ids target (els els' : list Element) :
  List.map id els = List.map id els' ->
  getElementById target els = getElementById target els'.
Proof.
  revert els'. induction els as [|el rest IH]; intros [|el' rest']; simpl;
    try discriminate; [reflexivity|].
  intros [= Hid Hrest]. rewrite Hid. now rewrite (IH rest' Hrest).
Qed.

Lemma has_add_token token tokens : has_token token (add_token token tokens) = true.
Proof.
  unfold has_token, add_token.
  destruct (existsb (String.eqb token) tokens) eqn:E; [assumption|].
  rewrite existsb_app. simpl. rewrite String.eqb_refl. now rewrite orb_true_r.
Qed.

(** The class list of the element at position [i] once the tab at [t] was
    clicked and [found] is what [getElementById] gave. *)
Definition after_click (t : nat) (found : option nat) (i : nat)
    (classes : list string) : list string :=
  let c1 := if existsb (Nat.eqb i) tabs then remove_token "active" classes else classes in
  let c2 := if existsb (Nat.eqb i) tabContents then remove_token "active" c1 else c1 in
  let c3 := if Nat.eqb t i then add_token "active" c2 else c2 in
  match found with
  | Some panel => if Nat.eqb panel i then add_token "active" c3 else c3
  | None => c3
  end.

(** The identifier line 157 looks up for a tab: [content-] followed by
    what stands between the first hyphen of the tab's own identifier and the
    next, or by [undefined] when that identifier has no hyphen. *)
Definition panel_id (tab_id : string) : string :=
  "content-" +:+ match split "-" tab_id with
                 | _ :: part :: _ => part
                 | _ => "undefined"
                 end.

Lemma to_String_second (parts : list string) :
  to_String (@second N parts) =
    Normal match parts with
           | _ :: part :: _ => part
           | _ => "undefined"
           end.
Proof. destruct parts as [|p0 [|p1 rest]]; reflexivity. Qed.

Lemma tab_click_elements (t : nat) (tab : Element) (w : Window) :
  existsb (Nat.eqb t) tabs = true ->
  elements (dom w) !! t = Some tab ->
  let found := getElementById (panel_id (id tab)) (elements (dom w)) in
  sent (step w (TabClicked t)) = sent w /\
  List.map id (elements (dom (step w (TabClicked t)))) = List.map id (elements (dom w)) /\
  forall i,
    elements (dom (step w (TabClicked t))) !! i =
      with_class (after_click t found i) <$> elements (dom w) !! i.
Proof.
  intros Htab Hel found.
  set (els3 := update_class (add_token "active") t
                 (deactivate tabContents (deactivate tabs (elements (dom w))))).
  assert (Hids3 : List.map id els3 = List.map id (elements (dom w))).
  { unfold els3. now rewrite update_class_ids, !deactivate_ids. }
  assert (Hl3 : forall i,
             els3 !! i =
               with_class (after_click t None i) <$> elements (dom w) !! i).
  { intros i. unfold els3. rewrite update_class_lookup, !deactivate_lookup.
    unfold after_click.
    destruct (elements (dom w) !! i) as [[eid classes]|]; [|reflexivity]. simpl. f_equal.
    destruct (Nat.eqb t i), (existsb (Nat.eqb i) tabs),
      (existsb (Nat.eqb i) tabContents); reflexivity. }
  assert (Htid : els3 !! t = Some (with_class (after_click t None t) tab)).
  { now rewrite Hl3, Hel. }
  assert (Hfound : getElementById (panel_id (id tab)) els3 = found).
  { unfold found. now apply getElementById_ids. }
  run_listener. rewrite Hel. simpl. rewrite Htab. simpl.
  fold els3. rewrite Htid. simpl. rewrite to_String_second. simpl.
  fold (panel_id (id tab)). rewrite Hfound.
  destruct found as [panel|]; simpl.
  - split; [reflexivity|]. split; [now rewrite update_class_ids|].
    intros i. rewrite update_class_lookup, Hl3. unfold after_click.
    destruct (elements (dom w) !! i) as [[eid classes]|]; [|reflexivity]. simpl.
    destruct (Nat.eqb panel i); reflexivity.
  - split; [reflexivity|]. split; [assumption|]. exact Hl3.
Qed.

(** X19: after a click on a tab, that tab is active, and among the tabs and the
    panels nothing else is but the element [content-...] named after the
    tab, when there is one; no identifier changes, and nothing is asked of
    the surroundings.  When no element carries that name the listener fails,
    with the tab already switched and no panel active. *)
Theorem tab_click_exclusive (t : nat) (tab : Element) (w : Window) :
  In t tabs ->
  elements (dom w) !! t = Some tab ->
  sent (step w (TabClicked t)) = sent w /\
  List.map id (elements (dom (step w (TabClicked t)))) = List.map id (elements (dom w)) /\
  forall i el,
    In i tabs \/ In i tabContents ->
    elements (dom (step w (TabClicked t))) !! i = Some el ->
    (has_token "active" (classList el) = true <->
     i = t \/ getElementById (panel_id (id tab)) (elements (dom w)) = Some i).
Proof.
  intros Hin Hel.
  assert (Htab : existsb (Nat.eqb t) tabs = true).
  { apply existsb_exists. exists t. split; [assumption | apply Nat.eqb_refl]. }
  destruct (tab_click_elements t tab w Htab Hel) as (Hsent & Hids & Hlook).
  split; [assumption|]. split; [assumption|].
  intros i el Hi Hi'. rewrite Hlook in Hi'.
  destruct (elements (dom w) !! i) as [el0|]; [|discriminate].
  injection Hi' as <-. simpl.
  set (found := getElementById _ _).
  assert (Hoff : has_token "active"
                   (if existsb (Nat.eqb i) tabContents
                    then remove_token "active"
                           (if existsb (Nat.eqb i) tabs
                            then remove_token "active" (classList el0)
                            else classList el0)
                    else if existsb (Nat.eqb i) tabs
                         then remove_token "active" (classList el0)
                         else classList el0) = false).
  { destruct Hi as [Hi | Hi].
    - assert (E : existsb (Nat.eqb i) tabs = true).
      { apply existsb_exists. exists i. split; [assumption | apply Nat.eqb_refl]. }
      rewrite E. destruct (existsb (Nat.eqb i) tabContents);
        [|apply has_remove_token]. apply has_remove_token.
    - assert (E : existsb (Nat.eqb i) tabContents = true).
      { apply existsb_exists. exists i. split; [assumption | apply Nat.eqb_refl]. }
      rewrite E. apply has_remove_token. }
  unfold after_click.
  destruct (Nat.eqb_spec t i) as [->|Hne].
  - split; [auto|]. intros _.
    destruct found as [panel|]; [destruct (Nat.eqb panel i)|]; apply has_add_token.
  - destruct found as [panel|].
    + destruct (Nat.eqb_spec panel i) as [->|Hne'].
      * split; [auto|]. intros _. apply has_add_token.
      * split.
        -- intros Hact.
           destruct (existsb (Nat.eqb i) tabContents), (existsb (Nat.eqb i) tabs);
             congruence.
        -- intros [-> | [= ->]]; congruence.
    + split.
      * intros Hact.
        destruct (existsb (Nat.eqb i) tabContents), (existsb (Nat.eqb i) tabs);
          congruence.
      * intros [-> | Hsome]; [congruence | discriminate].
Qed.

End Facts.

(** *** A concrete panel *)

(** The digits a string starts with, as a number; on integers [NaN] has no
    counterpart, and zero, falsy as well, stands for it. *)
Fixpoint leading_digits (s : string) (acc : Z) : Z :=
  match s with
  | String c rest =>
      match Ascii.is_nat c with
      | Some d => leading_digits rest (10 * acc + Z.of_nat d)
      | None => acc
      end
  | EmptyString => acc
  end.

Definition parse_port (s : string) : Z := leading_digits s 0.

(** Two tabs and their panels, as the page is loaded: the first tab is the
    active one. *)
Definition panel_elements : list Element :=
  [ {| id := "tab-connection"; classList := ["tab"; "active"] |};
    {| id := "tab-about"; classList := ["tab"] |};
    {| id := "content-connection"; classList := ["tab-content"; "active"] |};
    {| id := "content-about"; classList := ["tab-content"] |} ].

Definition loaded : @Window Z_number :=
  {| dom :=
       {| portInput_value := "3055";
          portInput_disabled := false;
          connectButton_disabled := false;
          disconnectButton_disabled := false;
          connectionStatus_innerHTML := "Not connected";
          connectionStatus_className := "status disconnected";
          autoReconnectToggle_checked := true;
          progressContainer_classList := ["hidden"];
          progressBar_style_width := EmptyString;
          progressPercentage_textContent := EmptyString;
          progressMessage_textContent := EmptyString;
          progressStatus_textContent := EmptyString;
          progressStatus_className := EmptyString;
          elements := panel_elements |};
     sent := [] |}.

#[local] Abbreviation run_panel :=
  (@PluginUi.process Z_number (fun z => z) parse_port [0; 1] [2; 3]).
#[local] Abbreviation run_event :=
  (@PluginUi.step Z_number (fun z => z) parse_port [0; 1] [2; 3]).

(** Connect, then Disconnect, then Connect again: the click on Disconnect
    finds the button disabled by the first click, and [disconnect] is never
    asked. *)
Example connect_disables_disconnect :
  sent (run_panel [ConnectClicked; DisconnectClicked; ConnectClicked] loaded) =
    [Connect 3055%Z; Connect 3055%Z] /\
  disconnectButton_disabled
    (dom (run_panel [ConnectClicked; DisconnectClicked; ConnectClicked] loaded)) = true.
Proof. split; reflexivity. Qed.

Lemma connect_port_truthy_witness :
  exists new,
    sent (run_panel [ConnectClicked] loaded) = sent loaded ++ new /\
    Forall (fun eff => forall port, eff = Connect port ->
                                    @number_truthy Z_number port = true) new.
Proof.
  apply (@connect_port_truthy Z_number (fun z => z) parse_port [0; 1] [2; 3]
           [ConnectClicked] loaded).
  reflexivity.
Defined.

(** The saved setting arrives, the user flips the toggle, a result is
    forwarded. *)
Definition settings_then_flip : list (@Event Z_number) :=
  [Message (object [("type", str "init-settings");
                    ("settings", object [("autoReconnect", boolean false)])]);
   ToggleFlipped;
   Message (object [("type", str "result"); ("id", str "7")])].

Example settings_then_flip_sent :
  sent (run_panel settings_then_flip loaded) =
    [SetAutoReconnect (boolean false); SetAutoReconnect (boolean true);
     PostMessage (object [("pluginMessage",
                           object [("type", str "result"); ("id", str "7")])]) "*"] /\
  autoReconnectToggle_checked (dom (run_panel settings_then_flip loaded)) = true.
Proof. split; reflexivity. Qed.

Lemma toggle_in_sync_witness : in_sync (run_panel settings_then_flip loaded).
Proof.
  apply (@toggle_in_sync Z_number (fun z => z) parse_port [0; 1] [2; 3]
           settings_then_flip loaded).
  intros v. discriminate.
Defined.

(** A click on the second tab. *)
Example about_tab_clicked :
  List.map classList (elements (dom (run_event loaded (TabClicked 1)))) =
    [["tab"]; ["tab"; "active"]; ["tab-content"]; ["tab-content"; "active"]].
Proof. reflexivity. Qed.

Lemma tab_click_exclusive_witness :
  sent (run_event loaded (TabClicked 1)) = sent loaded /\
  List.map id (elements (dom (run_event loaded (TabClicked 1)))) =
    List.map id (elements (dom loaded)) /\
  forall i el,
    In i [0; 1] \/ In i [2; 3] ->
    elements (dom (run_event loaded (TabClicked 1))) !! i = Some el ->
    (has_token "active" (classList el) = true <->
     i = 1 \/
     getElementById (panel_id (id {| id := "tab-about"; classList := ["tab"] |}))
       (elements (dom loaded)) = Some i).
Proof.
  apply (@tab_click_exclusive Z_number (fun z => z) parse_port [0; 1] [2; 3]
           1 {| id := "tab-about"; classList := ["tab"] |} loaded).
  - right. now left.
  - reflexivity.
Defined.

(** A completed operation: the display is shown at 100% and its hiding is
    scheduled; when the timer fires it is hidden. *)
Example completed_then_hidden :
  let done := object [("commandId", str "c1"); ("progress", @num Z_number 100%Z);
                      ("status", str "completed")] in
  progressPercentage_textContent (dom (run_panel [Progress done] loaded)) = "100%" /\
  progressMessage_textContent (dom (run_panel [Progress done] loaded)) =
    "Operation in progress" /\
  sent (run_panel [Progress done] loaded) = [SetTimeout HideProgress 5000%Z] /\
  progressContainer_classList (dom (run_panel [Progress done] loaded)) = [] /\
  progressContainer_classList
    (dom (run_panel [Progress done; TimerFired HideProgress] loaded)) = ["hidden"].
Proof. repeat split; reflexivity. Qed.

(** A message that has no string conversion: the display is shown and the
    percentage written, the update fails at line 123, and the completion is
    neither labelled nor followed by a timer. *)
Example message_not_printable :
  let odd := object [("progress", @num Z_number 100%Z);
                     ("message", object [("toString", null)]);
                     ("status", str "completed")] in
  progressContainer_classList (dom (run_panel [Progress odd] loaded)) = [] /\
  progressPercentage_textContent (dom (run_panel [Progress odd] loaded)) = "100%" /\
  progressStatus_textContent (dom (run_panel [Progress odd] loaded)) = EmptyString /\
  sent (run_panel [Progress odd] loaded) = [].
Proof. repeat split; reflexivity. Qed.

End PluginUiFacts.

(** ** text-schema.ts: the pattern of [parentId]

    [parentId] must match [/^\d+:\d+$/].  The pattern is kept as a term;
    [test] decides, by derivatives, whether a whole string matches it, which
    is what the two anchors ask of [RegExp.prototype.test]. *)

Module NodeIdPattern.

Inductive regex : Type :=
| Void
| Eps
| Lit (c : ascii)
| Digit
| Seq (r1 r2 : regex)
| Alt (r1 r2 : regex)
| Star (r : regex)
| Plus (r : regex).

(** [\d]: one of [0] to [9]. *)
Definition is_digit (c : ascii) : bool :=
  let n := nat_of_ascii c in Nat.leb 48 n && Nat.leb n 57.

Fixpoint nullable (r : regex) : bool :=
  match r with
  | Void | Lit _ | Digit => false
  | Eps | Star _ => true
  | Seq r1 r2 => nullable r1 && nullable r2
  | Alt r1 r2 => nullable r1 || nullable r2
  | Plus r => nullable r
  end.

(** What is left of [r] once [c] has been read. *)
Fixpoint deriv (c : ascii) (r : regex) : regex :=
  match r with
  | Void | Eps => Void
  | Lit c' => if Ascii.eqb c c' then Eps else Void
  | Digit => if is_digit c then Eps else Void
  | Seq r1 r2 =>
      if nullable r1 then Alt (Seq (deriv c r1) r2) (deriv c r2)
      else Seq (deriv c r1) r2
  | Alt r1 r2 => Alt (deriv c r1) (deriv c r2)
  | Star r => Seq (deriv c r) (Star r)
  | Plus r => Seq (deriv c r) (Star r)
  end.

Fixpoint matches (r : regex) (s : list ascii) : bool :=
  match s with
  | [] => nullable r
  | c :: rest => matches (deriv c r) rest
  end.

(** [\d+:\d+], lines 46 and 47 of the schema. *)
Definition node_id_pattern : regex :=
  Seq (Plus Digit) (Seq (Lit ":") (Plus Digit)).

(** [/^\d+:\d+$/.test(s)]. *)
Definition test_parentId (s : string) : bool :=
  matches node_id_pattern (list_ascii_of_string s).

(** The strings a pattern stands for. *)
Inductive Lang : regex -> list ascii -> Prop :=
| Lang_eps : Lang Eps []
| Lang_lit c : Lang (Lit c) [c]
| Lang_digit c : is_digit c = true -> Lang Digit [c]
| Lang_seq r1 r2 s1 s2 : Lang r1 s1 -> Lang r2 s2 -> Lang (Seq r1 r2) (s1 ++ s2)
| Lang_alt_l r1 r2 s : Lang r1 s -> Lang (Alt r1 r2) s
| Lang_alt_r r1 r2 s : Lang r2 s -> Lang (Alt r1 r2) s
| Lang_star_nil r : Lang (Star r) []
| Lang_star_more r s1 s2 : Lang r s1 -> Lang (Star r) s2 -> Lang (Star r) (s1 ++ s2)
| Lang_plus r s1 s2 : Lang r s1 -> Lang (Star r) s2 -> Lang (Plus r) (s1 ++ s2).

#[local] Hint Constructors Lang : core.

(** An inversion that names nothing: split an append that is empty or
    starts with a known character. *)
Ltac split_append :=
  match goal with
  | E : _ ++ _ = [] |- _ => apply app_eq_nil in E as [-> ->]
  | E : ?s1 ++ _ = _ :: _ |- _ =>
      destruct s1; simpl in E; [subst | injection E as -> <-]
  end.

Lemma nullable_Lang r : nullable r = true <-> Lang r [].
Proof.
  induction r as [| |c| |r1 IH1 r2 IH2|r1 IH1 r2 IH2|r IH|r IH]; simpl.
  - split; [discriminate | inversion 1].
  - split; auto.
  - split; [discriminate | inversion 1].
  - split; [discriminate | inversion 1].
  - rewrite andb_true_iff, IH1, IH2. split.
    + intros [H1 H2]. change (Lang (Seq r1 r2) ([] ++ [])). auto.
    + inversion 1; subst. split_append. auto.
  - rewrite orb_true_iff, IH1, IH2. split.
    + intros [H | H]; auto.
    + inversion 1; subst; auto.
  - split; auto.
  - rewrite IH. split.
    + intros H. change (Lang (Plus r) ([] ++ [])). auto.
    + inversion 1; subst. split_append. auto.
Qed.

(** A repetition that starts with [c] starts with an iteration that starts
    with [c]. *)
Lemma Lang_star_head r c s :
  Lang (Star r) (c :: s) ->
  exists s1 s2, s = s1 ++ s2 /\ Lang r (c :: s1) /\ Lang (Star r) s2.
Proof.
  intros H. remember (Star r) as r' eqn:Er. remember (c :: s) as cs eqn:Es.
  revert s Es. induction H as [| | | | | | |r0 s1 s2 H1 _ H2 IH2|]; intros tail Es;
    try discriminate.
  injection Er as ->. destruct s1 as [|c1 s1]; simpl in Es.
  - apply IH2; auto.
  - injection Es as -> <-. eauto.
Qed.

Lemma Lang_seq_cons r1 r2 c s1 s2 :
  Lang r1 (c :: s1) -> Lang r2 s2 -> Lang (Seq r1 r2) (c :: s1 ++ s2).
Proof. intros H1 H2. change (Lang (Seq r1 r2) ((c :: s1) ++ s2)). auto. Qed.

Lemma Lang_star_cons r c s1 s2 :
  Lang r (c :: s1) -> Lang (Star r) s2 -> Lang (Star r) (c :: s1 ++ s2).
Proof. intros H1 H2. change (Lang (Star r) ((c :: s1) ++ s2)). auto. Qed.

Lemma Lang_plus_cons r c s1 s2 :
  Lang r (c :: s1) -> Lang (Star r) s2 -> Lang (Plus r) (c :: s1 ++ s2).
Proof. intros H1 H2. change (Lang (Plus r) ((c :: s1) ++ s2)). auto. Qed.

Lemma deriv_Lang r : forall c s, Lang (deriv c r) s <-> Lang r (c :: s).
Proof.
  induction r as [| |c'| |r1 IH1 r2 IH2|r1 IH1 r2 IH2|r IH|r IH]; intros c s; simpl.
  - split; inversion 1.
  - split; inversion 1.
  - destruct (Ascii.eqb_spec c c') as [->|Hne]; split; inversion 1; subst; auto.
    congruence.
  - destruct (is_digit c) eqn:Hd; split; inversion 1; subst; auto. congruence.
  - assert (Hseq : Lang (Seq (deriv c r1) r2) s -> Lang (Seq r1 r2) (c :: s)).
    { inversion 1; subst.
      match goal with H : Lang (deriv c r1) _ |- _ => apply IH1 in H end.
      now apply Lang_seq_cons. }
    assert (Hinv : Lang (Seq r1 r2) (c :: s) ->
                   Lang (Seq (deriv c r1) r2) s \/ (Lang r1 [] /\ Lang r2 (c :: s))).
    { inversion 1; subst. split_append; [auto|].
      left. match goal with H : Lang r1 (_ :: _) |- _ => apply IH1 in H end. auto. }
    destruct (nullable r1) eqn:Hn.
    + split.
      * inversion 1; subst; auto.
        apply nullable_Lang in Hn. change (Lang (Seq r1 r2) ([] ++ c :: s)).
        constructor; [assumption|]. now apply IH2.
      * intros H. apply Hinv in H as [H | [_ H]]; auto.
        apply Lang_alt_r. now apply IH2.
    + split; [assumption|].
      intros H. apply Hinv in H as [H | [H _]]; auto.
      apply nullable_Lang in H. congruence.
  - split.
    + inversion 1; subst; [apply Lang_alt_l; now apply IH1 | apply Lang_alt_r; now apply IH2].
    + inversion 1; subst; [apply Lang_alt_l; now apply IH1 | apply Lang_alt_r; now apply IH2].
  - split.
    + inversion 1; subst.
      match goal with H : Lang (deriv c r) _ |- _ => apply IH in H end.
      now apply Lang_star_cons.
    + intros H. apply Lang_star_head in H as (s1 & s2 & -> & H1 & H2).
      apply IH in H1. auto.
  - split.
    + inversion 1; subst.
      match goal with H : Lang (deriv c r) _ |- _ => apply IH in H end.
      now apply Lang_plus_cons.
    + inversion 1; subst. split_append.
      * match goal with H : Lang (Star r) (_ :: _) |- _ =>
          apply Lang_star_head in H as (s1 & s2 & -> & H1' & H2') end.
        apply IH in H1'. auto.
      * match goal with H : Lang r (_ :: _) |- _ => apply IH in H end. auto.
Qed.

(** The matcher decides the language of the pattern. *)
Lemma matches_Lang s : forall r, matches r s = true <-> Lang r s.
Proof.
  induction s as [|c rest IH]; intros r; simpl.
  - apply nullable_Lang.
  - rewrite IH. apply deriv_Lang.
Qed.

Lemma Lang_star_digits s : Lang (Star Digit) s <-> forallb is_digit s = true.
Proof.
  split.
  - intros H. remember (Star Digit) as r eqn:Er.
    induction H as [| | | | | | |r0 s1 s2 H1 _ H2 IH2|]; try discriminate; [reflexivity|].
    injection Er as ->. inversion H1; subst. simpl.
    apply andb_true_iff. auto.
  - induction s as [|c rest IH]; simpl; [auto|].
    intros [Hc Hrest]%andb_true_iff.
    change (Lang (Star Digit) ([c] ++ rest)). auto.
Qed.

Lemma Lang_plus_digits s :
  Lang (Plus Digit) s <-> s <> [] /\ forallb is_digit s = true.
Proof.
  split.
  - inversion 1; subst.
    match goal with H : Lang Digit _ |- _ => inversion H; subst end.
    match goal with H : Lang (Star Digit) _ |- _ => apply Lang_star_digits in H end.
    simpl. split; [discriminate|]. apply andb_true_iff. auto.
  - intros [Hne Hall]. destruct s as [|c rest]; [now contradiction Hne|].
    simpl in Hall. apply andb_true_iff in Hall as [Hc Hrest].
    change (Lang (Plus Digit) ([c] ++ rest)).
    constructor; [auto | now apply Lang_star_digits].
Qed.

Lemma Lang_node_id s :
  Lang node_id_pattern s <->
  exists a b,
    s = a ++ ":"%char :: b /\
    (a <> [] /\ forallb is_digit a = true) /\
    (b <> [] /\ forallb is_digit b = true).
Proof.
  unfold node_id_pattern. split.
  - inversion 1; subst.
    match goal with H : Lang (Seq (Lit _) _) _ |- _ => inversion H; subst end.
    match goal with H : Lang (Lit _) _ |- _ => inversion H; subst end.
    repeat match goal with H : Lang (Plus Digit) _ |- _ => apply Lang_plus_digits in H end.
    eauto.
  - intros (a & b & -> & Ha & Hb).
    constructor; [now apply Lang_plus_digits|].
    change (Lang (Seq (Lit ":") (Plus Digit)) ([":"%char] ++ b)).
    constructor; [auto | now apply Lang_plus_digits].
Qed.

Definition all_digits (s : string) : bool :=
  forallb is_digit (list_ascii_of_string s).

Lemma list_ascii_of_append (a b : string) :
  list_ascii_of_string (a +:+ b) = list_ascii_of_string a ++ list_ascii_of_string b.
Proof. induction a as [|c a IH]; simpl; [reflexivity | now rewrite IH]. Qed.

(** X20: a [parentId] passes the schema exactly when it is one or more digits, a
    colon, and one or more digits, with nothing before, between or after:
    no sign, no space, no second colon, no final newline. *)
Theorem parentId_accepted (s : string) :
  test_parentId s = true <->
  exists a b : string,
    s = a +:+ ":" +:+ b /\
    a <> EmptyString /\ b <> EmptyString /\
    all_digits a = true /\ all_digits b = true.
Proof.
  unfold test_parentId. rewrite matches_Lang, Lang_node_id. split.
  - intros (a & b & Hs & [Ha Hda] & [Hb Hdb]).
    exists (string_of_list_ascii a), (string_of_list_ascii b).
    unfold all_digits. rewrite !list_ascii_of_string_of_list_ascii.
    split.
    + rewrite <- (string_of_list_ascii_of_string s), Hs.
      rewrite <- (list_ascii_of_string_of_list_ascii a) at 1.
      rewrite <- (list_ascii_of_string_of_list_ascii b) at 1.
      change (":"%char :: list_ascii_of_string (string_of_list_ascii b))
        with (list_ascii_of_string (":" +:+ string_of_list_ascii b)).
      rewrite <- list_ascii_of_append.
      now rewrite string_of_list_ascii_of_string.
    + repeat split; auto.
      * intros E. apply Ha. now destruct a.
      * intros E. apply Hb. now destruct b.
  - intros (a & b & -> & Ha & Hb & Hda & Hdb).
    exists (list_ascii_of_string a), (list_ascii_of_string b).
    split; [now rewrite list_ascii_of_append|].
    split; split; auto.
    + intros E. apply Ha. now destruct a.
    + intros E. apply Hb. now destruct b.
Qed.

(** The shapes the pattern keeps out. *)
Example parentId_shapes :
  test_parentId "123:456" = true /\
  test_parentId "123:" = false /\
  test_parentId ":456" = false /\
  test_parentId "1:2:3" = false /\
  test_parentId " 1:2" = false /\
  test_parentId "-1:2" = false /\
  test_parentId EmptyString = false.
Proof. repeat split; reflexivity. Qed.

End NodeIdPattern.
